(** * Perishable-goods route planner (Food_YOLO/shortpath.py)

    A shallow embedding of the single-vehicle pickup-and-delivery planner:
    the data classes, the feasibility checker, the greedy builder
    [optimize_route], the nearest-action builder [_optimize_by_distance],
    the deadline-ordered builder [_optimize_by_time_window] and the
    ensemble selector [find_k_shortest_routes].

    Numbers.  Python floats are modelled by exact rationals [Q]; Python
    ints ([time_to_expiry], [priority], the pickup window, [k]) by [Z].
    Float comparisons become [Qle_bool]; float equality becomes [Qeq_bool].

    Distance.  [Location.distance_to] is a haversine formula evaluated in
    floating point with sin, cos, asin and sqrt.  The planner only consumes
    its value, so the development takes the distance function as a section
    variable [distance_to].  The formula itself is given over the real
    numbers as [haversine_km].

    Errors.  The exception modelled is the float division by a zero speed
    in a travel-time computation: the [Raises ZeroDivisionError] outcome.
    The exceptions of the float conversions and of the math functions on
    numbers out of range ([OverflowError] for an int too large for a float,
    [ValueError] for a coordinate that is not finite) and the rounding of
    float arithmetic are outside the model: ints are taken within the
    float range and sums are exact.  The [while] loops are modelled with
    fuel; [OutOfFuel] is the outcome of a loop that was cut short, and the
    builders are shown never to produce it. *)

From Stdlib Require Import ZArith QArith Qabs List String Bool Arith Lia ListSet.
From Stdlib Require Import Permutation Sorted Lqa.
From Stdlib Require Import Reals Qreals.
From Stdlib Require Lra.
Import ListNotations.

Local Open Scope Q_scope.
Local Open Scope string_scope.

(* ------------------------------------------------------------------ *)
(** ** Numeric helpers *)

Definition Qlt_bool (a b : Q) : bool := negb (Qle_bool b a).
Definition Qgt_bool (a b : Q) : bool := negb (Qle_bool a b).

(* ------------------------------------------------------------------ *)
(** ** Outcomes: normal return, exception, or loop cut short *)

Inductive exn : Type :=
| ZeroDivisionError.

Inductive outcome (A : Type) : Type :=
| Returns (a : A)
| Raises (e : exn)
| OutOfFuel.

Arguments Returns {A} a.
Arguments Raises {A} e.
Arguments OutOfFuel {A}.

Definition bind {A B : Type} (m : outcome A) (k : A -> outcome B) : outcome B :=
  match m with
  | Returns a => k a
  | Raises e => Raises e
  | OutOfFuel => OutOfFuel
  end.

Notation "x <- m ;; k" := (bind m (fun x => k))
  (at level 61, m at next level, right associativity).

(** A [for] loop whose body may raise. *)
Fixpoint for_each {A S : Type} (body : S -> A -> outcome S) (xs : list A) (s : S)
  : outcome S :=
  match xs with
  | [] => Returns s
  | x :: xs' => s' <- body s x ;; for_each body xs' s'
  end.

(* ------------------------------------------------------------------ *)
(** ** Data classes *)

Inductive GoodsType : Type :=
| FOOD
| MEDICINE.

Record Location : Type := mkLocation {
  loc_id : string;
  loc_name : string;
  latitude : Q;
  longitude : Q;
  loc_type : string
}.

Record PerishableGoods : Type := mkGoods {
  goods_id : string;
  goods_name : string;
  goods_type : GoodsType;
  quantity : Q;
  pickup_location : Location;
  delivery_location : Location;
  time_to_expiry : Z;
  priority : Z;
  pickup_time_window : Z * Z
}.

Record Vehicle : Type := mkVehicle {
  vehicle_id : string;
  vehicle_name : string;
  capacity : Q;
  current_location : Location;
  speed : Q
}.

Record RouteStop : Type := mkStop {
  location : Location;
  action : string;
  goods : PerishableGoods;
  arrival_time : Q;
  estimated_duration : Q
}.

(** [RouteStop(...)] as the builders call it: the duration takes its
    default, 15 minutes. *)
Definition new_stop (l : Location) (a : string) (g : PerishableGoods) (t : Q)
  : RouteStop :=
  mkStop l a g t 15.

Record Route : Type := mkRoute {
  vehicle : Vehicle;
  stops : list RouteStop;
  total_distance : Q;
  total_time : Q;
  goods_delivered : list PerishableGoods
}.

(** [Route(vehicle=v)]: every other field at its default. *)
Definition new_route (v : Vehicle) : Route := mkRoute v [] 0 0 [].

(* ------------------------------------------------------------------ *)
(** ** PerishableGoods.urgency_score *)

Definition urgency_score (g : PerishableGoods) : Q :=
  let time_factor := 1000 / inject_Z (Z.max (time_to_expiry g) 1) in
  let priority_factor := inject_Z ((6 - priority g) * 10) in
  time_factor + priority_factor.

(* ------------------------------------------------------------------ *)
(** ** Route.is_feasible and Route.total_goods_saved *)

Fixpoint is_feasible_from (cap : Q) (current_load : Q) (ss : list RouteStop)
  : bool * string :=
  match ss with
  | [] => (true, "Route is feasible")
  | stop :: rest =>
      if String.eqb (action stop) "pickup" then
        let current_load := current_load + quantity (goods stop) in
        if Qgt_bool current_load cap then
          (false, "Capacity exceeded at " ++ loc_name (location stop))
        else is_feasible_from cap current_load rest
      else
        let current_load := current_load - quantity (goods stop) in
        if Qgt_bool (arrival_time stop) (inject_Z (time_to_expiry (goods stop))) then
          (false, goods_name (goods stop) ++ " expired before delivery")
        else is_feasible_from cap current_load rest
  end.

Definition is_feasible (r : Route) : bool * string :=
  is_feasible_from (capacity (vehicle r)) 0 (stops r).

Definition total_goods_saved (r : Route) : Q :=
  fold_left (fun acc g => acc + quantity g) (goods_delivered r) 0.

(* ------------------------------------------------------------------ *)
(** ** Python's stable [sorted]

    [sorted_by before xs] is a stable sort: [before y x = true] says that
    [y] has to come strictly before [x]; elements that neither precede the
    other keep their input order.  [sorted(xs, key=k)] is
    [sorted_by (fun y x => k y < k x)] and [sorted(xs, key=k, reverse=True)]
    is [sorted_by (fun y x => k y > k x)] (reverse sorting keeps the input
    order of equal keys too). *)

Fixpoint insert_by {A : Type} (before : A -> A -> bool) (x : A) (l : list A)
  : list A :=
  match l with
  | [] => [x]
  | y :: l' => if before x y then x :: y :: l'
               else y :: insert_by before x l'
  end.

Definition sorted_by {A : Type} (before : A -> A -> bool) (xs : list A) : list A :=
  fold_left (fun acc x => insert_by before x acc) xs [].

(* ------------------------------------------------------------------ *)
(** ** The planner *)

(** The sets [picked_up] and [delivered] hold goods ids. *)
Definition id_set : Type := set string.
Definition id_in (x : string) (s : id_set) : bool := set_mem string_dec x s.
Definition id_add (x : string) (s : id_set) : id_set := set_add string_dec x s.

(** The local variables of a builder's [while] loop. *)
Record plan_state : Type := mkState {
  route : Route;
  cur_location : Location;
  current_time : Q;
  picked_up : id_set;
  delivered : id_set
}.

(** The winner of one scan: [best_score] (or [min_distance]),
    [best_action] and [best_goods], which the source always assigns
    together.  [None] is the state before the first assignment:
    [best_action = None] with [best_score = -inf] (greedy) or
    [min_distance = +inf] (nearest action). *)
Record candidate : Type := mkCandidate {
  best_score : Q;
  best_action : string;
  best_goods : PerishableGoods
}.

Section Planner.

(** [Location.distance_to]. *)
Variable distance_to : Location -> Location -> Q.

(** [Vehicle.travel_time]: the float division raises on a zero speed. *)
Definition travel_time (v : Vehicle) (from_loc to_loc : Location) : outcome Q :=
  let distance := distance_to from_loc to_loc in
  if Qeq_bool (speed v) 0 then Raises ZeroDivisionError
  else Returns ((distance / speed v) * 60).

Definition initial_state (v : Vehicle) : plan_state :=
  mkState (new_route v) (current_location v) 0 [] [].

(** *** Greedy builder: one pass of the inner [for] loop *)

Definition greedy_visit (v : Vehicle) (st : plan_state)
           (best : option candidate) (g : PerishableGoods)
  : outcome (option candidate) :=
  if id_in (goods_id g) (delivered st) then Returns best
  else if negb (id_in (goods_id g) (picked_up st)) then
    travel <- travel_time v (cur_location st) (pickup_location g) ;;
    let arrival := current_time st + travel in
    if Qle_bool arrival (inject_Z (snd (pickup_time_window g))) then
      let score := urgency_score g - travel * (1 # 2) in
      if match best with
         | None => true
         | Some b => Qgt_bool score (best_score b)
         end
      then Returns (Some (mkCandidate score "pickup" g))
      else Returns best
    else Returns best
  else
    travel <- travel_time v (cur_location st) (delivery_location g) ;;
    let arrival := current_time st + travel in
    if Qle_bool arrival (inject_Z (time_to_expiry g)) then
      let score := urgency_score g + 50 - travel * (3 # 10) in
      if match best with
         | None => true
         | Some b => Qgt_bool score (best_score b)
         end
      then Returns (Some (mkCandidate score "delivery" g))
      else Returns best
    else Returns best.

(** *** Committing the winner *)

Definition add_stop (r : Route) (s : RouteStop) : Route :=
  mkRoute (vehicle r) (stops r ++ [s]) (total_distance r) (total_time r)
          (goods_delivered r).

Definition add_distance (r : Route) (d : Q) : Route :=
  mkRoute (vehicle r) (stops r) (total_distance r + d) (total_time r)
          (goods_delivered r).

Definition add_delivered (r : Route) (g : PerishableGoods) : Route :=
  mkRoute (vehicle r) (stops r) (total_distance r) (total_time r)
          (goods_delivered r ++ [g]).

Definition set_total_time (r : Route) (t : Q) : Route :=
  mkRoute (vehicle r) (stops r) (total_distance r) t (goods_delivered r).

(** The [pickup] branch of [optimize_route], with its update of
    [total_distance]. *)
Definition greedy_commit_pickup (v : Vehicle) (st : plan_state)
           (g : PerishableGoods) : outcome plan_state :=
  travel <- travel_time v (cur_location st) (pickup_location g) ;;
  let now := current_time st + travel in
  let stop := new_stop (pickup_location g) "pickup" g now in
  let r := add_stop (route st) stop in
  let here := pickup_location g in
  let r := add_distance r
             (if Nat.eqb (List.length (stops r)) 1
              then distance_to (current_location v) here
              else distance_to (location stop) here) in
  Returns (mkState r here (now + estimated_duration stop)
                   (id_add (goods_id g) (picked_up st)) (delivered st)).

(** The [pickup] branch of [_optimize_by_distance]. *)
Definition distance_commit_pickup (v : Vehicle) (st : plan_state)
           (g : PerishableGoods) : outcome plan_state :=
  travel <- travel_time v (cur_location st) (pickup_location g) ;;
  let now := current_time st + travel in
  let stop := new_stop (pickup_location g) "pickup" g now in
  let r := add_stop (route st) stop in
  Returns (mkState r (pickup_location g) (now + estimated_duration stop)
                   (id_add (goods_id g) (picked_up st)) (delivered st)).

(** The [else] (delivery) branch, the same in both builders. *)
Definition commit_delivery (v : Vehicle) (st : plan_state)
           (g : PerishableGoods) : outcome plan_state :=
  travel <- travel_time v (cur_location st) (delivery_location g) ;;
  let now := current_time st + travel in
  let stop := new_stop (delivery_location g) "delivery" g now in
  let r := add_delivered (add_stop (route st) stop) g in
  Returns (mkState r (delivery_location g) (now + estimated_duration stop)
                   (picked_up st) (id_add (goods_id g) (delivered st))).

Definition greedy_commit (v : Vehicle) (st : plan_state) (c : candidate)
  : outcome plan_state :=
  if String.eqb (best_action c) "pickup"
  then greedy_commit_pickup v st (best_goods c)
  else commit_delivery v st (best_goods c).

Definition distance_commit (v : Vehicle) (st : plan_state) (c : candidate)
  : outcome plan_state :=
  if String.eqb (best_action c) "pickup"
  then distance_commit_pickup v st (best_goods c)
  else commit_delivery v st (best_goods c).

(** *** The [while] loop

    One iteration: [None] when the loop is left (its condition fails or
    the scan finds no candidate and breaks), [Some st'] after a commit. *)
Definition iteration
           (visit : plan_state -> option candidate -> PerishableGoods
                    -> outcome (option candidate))
           (commit : plan_state -> candidate -> outcome plan_state)
           (gl : list PerishableGoods) (st : plan_state)
  : outcome (option plan_state) :=
  if Nat.ltb (List.length (delivered st)) (List.length gl) then
    best <- for_each (visit st) gl None ;;
    match best with
    | None => Returns None
    | Some c => st' <- commit st c ;; Returns (Some st')
    end
  else Returns None.

Fixpoint while_loop (step : plan_state -> outcome (option plan_state))
         (fuel : nat) (st : plan_state) : outcome plan_state :=
  match fuel with
  | O => OutOfFuel
  | S fuel' =>
      next <- step st ;;
      match next with
      | None => Returns st
      | Some st' => while_loop step fuel' st'
      end
  end.

Definition finish (st : plan_state) : Route :=
  set_total_time (route st) (current_time st).

(** Every iteration but the last commits a pickup or a delivery of a
    listed item, so [2 * len(goods_list) + 1] iterations are enough; the
    builders are shown below never to exhaust them. *)
Definition enough_fuel (gl : list PerishableGoods) : nat :=
  2 * List.length gl + 1.

(** The key of [sorted(goods_list, key=urgency_score, reverse=True)]. *)
Definition urgency_before (y x : PerishableGoods) : bool :=
  Qgt_bool (urgency_score y) (urgency_score x).

Definition greedy_step (v : Vehicle) (gl : list PerishableGoods) :=
  iteration (greedy_visit v) (greedy_commit v) gl.

Definition optimize_route_fuel (fuel : nat) (v : Vehicle)
           (goods_list : list PerishableGoods) : outcome Route :=
  match goods_list with
  | [] => Returns (new_route v)
  | _ =>
      let sorted_goods := sorted_by urgency_before goods_list in
      st <- while_loop (greedy_step v sorted_goods) fuel (initial_state v) ;;
      Returns (finish st)
  end.

Definition optimize_route (v : Vehicle) (goods_list : list PerishableGoods)
  : outcome Route :=
  optimize_route_fuel (enough_fuel goods_list) v goods_list.

(** *** Nearest-action builder *)

Definition distance_visit (v : Vehicle) (st : plan_state)
           (best : option candidate) (g : PerishableGoods)
  : outcome (option candidate) :=
  if id_in (goods_id g) (delivered st) then Returns best
  else if negb (id_in (goods_id g) (picked_up st)) then
    let distance := distance_to (cur_location st) (pickup_location g) in
    if Qeq_bool (speed v) 0 then Raises ZeroDivisionError
    else
      let travel := (distance / speed v) * 60 in
      if Qle_bool (current_time st + travel)
                  (inject_Z (snd (pickup_time_window g))) then
        if match best with
           | None => true
           | Some b => Qlt_bool distance (best_score b)
           end
        then Returns (Some (mkCandidate distance "pickup" g))
        else Returns best
      else Returns best
  else
    let distance := distance_to (cur_location st) (delivery_location g) in
    if Qeq_bool (speed v) 0 then Raises ZeroDivisionError
    else
      let travel := (distance / speed v) * 60 in
      if Qle_bool (current_time st + travel) (inject_Z (time_to_expiry g)) then
        if match best with
           | None => true
           | Some b => Qlt_bool distance (best_score b - 1)
           end
        then Returns (Some (mkCandidate distance "delivery" g))
        else Returns best
      else Returns best.

Definition distance_step (v : Vehicle) (gl : list PerishableGoods) :=
  iteration (distance_visit v) (distance_commit v) gl.

Definition _optimize_by_distance_fuel (fuel : nat) (v : Vehicle)
           (goods_list : list PerishableGoods) : outcome Route :=
  st <- while_loop (distance_step v goods_list) fuel (initial_state v) ;;
  Returns (finish st).

Definition _optimize_by_distance (v : Vehicle)
           (goods_list : list PerishableGoods) : outcome Route :=
  _optimize_by_distance_fuel (enough_fuel goods_list) v goods_list.

(** *** Deadline-ordered builder *)

Definition deadline_before (y x : PerishableGoods) : bool :=
  Z.ltb (time_to_expiry y) (time_to_expiry x)
  || (Z.eqb (time_to_expiry y) (time_to_expiry x)
      && Z.ltb (snd (pickup_time_window y)) (snd (pickup_time_window x))).

Definition _optimize_by_time_window (v : Vehicle)
           (goods_list : list PerishableGoods) : outcome Route :=
  let sorted_goods := sorted_by deadline_before goods_list in
  optimize_route v sorted_goods.

End Planner.

(* ------------------------------------------------------------------ *)
(** ** Dataclass equality ([==] on the generated [__eq__]) *)

Definition GoodsType_eqb (a b : GoodsType) : bool :=
  match a, b with
  | FOOD, FOOD | MEDICINE, MEDICINE => true
  | _, _ => false
  end.

Definition Location_eqb (a b : Location) : bool :=
  String.eqb (loc_id a) (loc_id b)
  && String.eqb (loc_name a) (loc_name b)
  && Qeq_bool (latitude a) (latitude b)
  && Qeq_bool (longitude a) (longitude b)
  && String.eqb (loc_type a) (loc_type b).

Definition PerishableGoods_eqb (a b : PerishableGoods) : bool :=
  String.eqb (goods_id a) (goods_id b)
  && String.eqb (goods_name a) (goods_name b)
  && GoodsType_eqb (goods_type a) (goods_type b)
  && Qeq_bool (quantity a) (quantity b)
  && Location_eqb (pickup_location a) (pickup_location b)
  && Location_eqb (delivery_location a) (delivery_location b)
  && Z.eqb (time_to_expiry a) (time_to_expiry b)
  && Z.eqb (priority a) (priority b)
  && Z.eqb (fst (pickup_time_window a)) (fst (pickup_time_window b))
  && Z.eqb (snd (pickup_time_window a)) (snd (pickup_time_window b)).

Definition Vehicle_eqb (a b : Vehicle) : bool :=
  String.eqb (vehicle_id a) (vehicle_id b)
  && String.eqb (vehicle_name a) (vehicle_name b)
  && Qeq_bool (capacity a) (capacity b)
  && Location_eqb (current_location a) (current_location b)
  && Qeq_bool (speed a) (speed b).

Definition RouteStop_eqb (a b : RouteStop) : bool :=
  Location_eqb (location a) (location b)
  && String.eqb (action a) (action b)
  && PerishableGoods_eqb (goods a) (goods b)
  && Qeq_bool (arrival_time a) (arrival_time b)
  && Qeq_bool (estimated_duration a) (estimated_duration b).

Fixpoint list_eqb {A : Type} (eqb : A -> A -> bool) (xs ys : list A) : bool :=
  match xs, ys with
  | [], [] => true
  | x :: xs', y :: ys' => eqb x y && list_eqb eqb xs' ys'
  | _, _ => false
  end.

Definition Route_eqb (a b : Route) : bool :=
  Vehicle_eqb (vehicle a) (vehicle b)
  && list_eqb RouteStop_eqb (stops a) (stops b)
  && Qeq_bool (total_distance a) (total_distance b)
  && Qeq_bool (total_time a) (total_time b)
  && list_eqb PerishableGoods_eqb (goods_delivered a) (goods_delivered b).

(* ------------------------------------------------------------------ *)
(** ** Ensemble selector *)

(** [routes[:k]] for a Python int [k]: a negative [k] counts from the end. *)
Definition slice_to {A : Type} (k : Z) (l : list A) : list A :=
  if (0 <=? k)%Z then firstn (Z.to_nat k) l
  else firstn (List.length l - Z.to_nat (- k)) l.

Definition is_empty {A : Type} (l : list A) : bool :=
  match l with [] => true | _ => false end.

(** The sort key [(r.total_goods_saved(), -r.total_time)] under
    [reverse=True]: [y] comes strictly before [x] when its key is the
    greater tuple. *)
Definition rank_before (y x : Route) : bool :=
  Qgt_bool (total_goods_saved y) (total_goods_saved x)
  || (Qeq_bool (total_goods_saved y) (total_goods_saved x)
      && Qgt_bool (- total_time y) (- total_time x)).

Definition find_k_shortest_routes (distance_to : Location -> Location -> Q)
           (v : Vehicle) (goods_list : list PerishableGoods) (k : Z)
  : outcome (list Route) :=
  let routes := [] in
  route1 <- optimize_route distance_to v goods_list ;;
  let routes := if negb (is_empty (stops route1)) then (routes ++ [route1])%list
                else routes in
  route2 <- _optimize_by_distance distance_to v goods_list ;;
  let routes := if negb (is_empty (stops route2)) && negb (Route_eqb route2 route1)
                then (routes ++ [route2])%list else routes in
  route3 <- _optimize_by_time_window distance_to v goods_list ;;
  let routes := if negb (is_empty (stops route3))
                   && negb (existsb (fun r => Route_eqb r route3) routes)
                then (routes ++ [route3])%list else routes in
  let routes := sorted_by rank_before routes in
  Returns (slice_to k routes).

(** The default [k = 3]. *)
Definition find_k_shortest_routes_default distance_to v goods_list :=
  find_k_shortest_routes distance_to v goods_list 3.

(* ------------------------------------------------------------------ *)
(** ** Fixtures

    Two places on the equator about 20 km apart (0.17986 degrees of
    longitude), and the distance table of the examples: 0 between equal
    coordinates, 20 km otherwise. *)

Definition place_A : Location := mkLocation "A" "Depot A" 0 0 "warehouse".
Definition place_B : Location := mkLocation "B" "Shelter B" 0 (17986 # 100000) "ngo".

Definition table_distance (a b : Location) : Q :=
  if Qeq_bool (latitude a) (latitude b) && Qeq_bool (longitude a) (longitude b)
  then 0 else 20.

Definition van (cap spd : Q) : Vehicle := mkVehicle "V1" "Van" cap place_A spd.

Definition crate (id : string) (qty : Q) (from to : Location)
           (expiry : Z) (window : Z * Z) : PerishableGoods :=
  mkGoods id id FOOD qty from to expiry 1 window.

(* ------------------------------------------------------------------ *)
(** ** Predicates used by the statements *)

Definition outcome_map {A B : Type} (f : A -> B) (m : outcome A) : outcome B :=
  match m with
  | Returns a => Returns (f a)
  | Raises e => Raises e
  | OutOfFuel => OutOfFuel
  end.

Definition is_pickup (s : RouteStop) : bool := String.eqb (action s) "pickup".

Definition stop_id (s : RouteStop) : string := goods_id (goods s).

(** The stop is reached no later than its item expires: the negation of
    the test [stop.arrival_time > stop.goods.time_to_expiry]. *)
Definition on_time (s : RouteStop) : Prop :=
  Qle_bool (arrival_time s) (inject_Z (time_to_expiry (goods s))) = true.

(** How many listed items have an id outside the set [s]. *)
Definition count_out (gl : list PerishableGoods) (s : id_set) : nat :=
  List.length (filter (fun g => negb (id_in (goods_id g) s)) gl).

(** The values of the cached fields, recomputed from the stop sequence
    alone. *)
Fixpoint legs_distance (distance_to : Location -> Location -> Q)
         (from : Location) (ss : list RouteStop) : Q :=
  match ss with
  | [] => 0
  | s :: rest =>
      distance_to from (location s) + legs_distance distance_to (location s) rest
  end.

Definition recomputed_distance (distance_to : Location -> Location -> Q)
           (r : Route) : Q :=
  legs_distance distance_to (current_location (vehicle r)) (stops r).

Definition recomputed_delivered (ss : list RouteStop) : list PerishableGoods :=
  map goods (filter (fun s => negb (is_pickup s)) ss).

Definition recomputed_time (ss : list RouteStop) : Q :=
  match last (map Some ss) None with
  | None => 0
  | Some s => arrival_time s + estimated_duration s
  end.

(** A scan winner that the commit may apply: a listed item, not yet
    delivered, either not yet picked up (pickup) or on board and
    deliverable before it expires (delivery). *)
Definition eligible (distance_to : Location -> Location -> Q) (v : Vehicle)
           (gl : list PerishableGoods) (st : plan_state) (c : candidate) : Prop :=
  let g := best_goods c in
  In g gl /\
  id_in (goods_id g) (delivered st) = false /\
  ((best_action c = "pickup" /\ id_in (goods_id g) (picked_up st) = false) \/
   (best_action c = "delivery" /\ id_in (goods_id g) (picked_up st) = true /\
    Qle_bool (current_time st
              + distance_to (cur_location st) (delivery_location g) / speed v * 60)
             (inject_Z (time_to_expiry g)) = true)).

(** What a commit does to the planning state, [total_distance] apart. *)
Definition committed (distance_to : Location -> Location -> Q) (v : Vehicle)
           (st : plan_state) (c : candidate) (st' : plan_state) : Prop :=
  let g := best_goods c in
  vehicle (route st') = vehicle (route st) /\
  if String.eqb (best_action c) "pickup" then
    let now := current_time st
               + distance_to (cur_location st) (pickup_location g) / speed v * 60 in
    stops (route st')
    = (stops (route st) ++ [new_stop (pickup_location g) "pickup" g now])%list /\
    goods_delivered (route st') = goods_delivered (route st) /\
    cur_location st' = pickup_location g /\
    current_time st' = now + 15 /\
    picked_up st' = id_add (goods_id g) (picked_up st) /\
    delivered st' = delivered st
  else
    let now := current_time st
               + distance_to (cur_location st) (delivery_location g) / speed v * 60 in
    stops (route st')
    = (stops (route st) ++ [new_stop (delivery_location g) "delivery" g now])%list /\
    goods_delivered (route st') = (goods_delivered (route st) ++ [g])%list /\
    cur_location st' = delivery_location g /\
    current_time st' = now + 15 /\
    picked_up st' = picked_up st /\
    delivered st' = id_add (goods_id g) (delivered st).

(** The invariant of both [while] loops. *)
Record well_formed (gl : list PerishableGoods) (st : plan_state) : Prop := {
  wf_listed : forall s, In s (stops (route st)) -> In (goods s) gl;
  wf_kind : forall s, In s (stops (route st)) ->
                      action s = "pickup" \/ action s = "delivery";
  wf_picked : forall s, In s (stops (route st)) -> action s = "pickup" ->
                        id_in (stop_id s) (picked_up st) = true;
  wf_delivered : forall s, In s (stops (route st)) -> action s = "delivery" ->
                           id_in (stop_id s) (delivered st) = true;
  wf_on_board : forall x, id_in x (picked_up st) = true ->
                  exists s, In s (stops (route st)) /\ action s = "pickup"
                            /\ stop_id s = x;
  wf_once : forall i j si sj,
      nth_error (stops (route st)) i = Some si ->
      nth_error (stops (route st)) j = Some sj ->
      action si = action sj -> stop_id si = stop_id sj -> i = j;
  wf_order : forall j sj,
      nth_error (stops (route st)) j = Some sj -> action sj = "delivery" ->
      exists i si, (i < j)%nat /\ nth_error (stops (route st)) i = Some si
                   /\ action si = "pickup" /\ stop_id si = stop_id sj;
  wf_on_time : forall s, In s (stops (route st)) -> action s = "delivery" ->
                         on_time s;
  wf_pickups : (List.length (filter is_pickup (stops (route st)))
                + count_out gl (picked_up st) <= List.length gl)%nat;
  wf_deliveries : (List.length (filter (fun s => negb (is_pickup s))
                                       (stops (route st)))
                   + count_out gl (delivered st) <= List.length gl)%nat;
  wf_cache : goods_delivered (route st) = recomputed_delivered (stops (route st));
  wf_clock : current_time st = recomputed_time (stops (route st))
}.

(** The loop measure: pickups and deliveries still possible. *)
Definition remaining (gl : list PerishableGoods) (st : plan_state) : nat :=
  (count_out gl (picked_up st) + count_out gl (delivered st))%nat.

(** The scan's running winner, when there is one, is eligible. *)
Definition all_eligible (distance_to : Location -> Location -> Q) (v : Vehicle)
           (gl : list PerishableGoods) (st : plan_state)
           (best : option candidate) : Prop :=
  forall c, best = Some c -> eligible distance_to v gl st c.

(** What the loop invariant leaves in the returned route. *)
Record sound_route (gl : list PerishableGoods) (r : Route) : Prop := {
  sr_listed : forall s, In s (stops r) -> In (goods s) gl;
  sr_kind : forall s, In s (stops r) ->
                      action s = "pickup" \/ action s = "delivery";
  sr_once : forall i j si sj,
      nth_error (stops r) i = Some si -> nth_error (stops r) j = Some sj ->
      action si = action sj -> stop_id si = stop_id sj -> i = j;
  sr_order : forall j sj,
      nth_error (stops r) j = Some sj -> action sj = "delivery" ->
      exists i si, (i < j)%nat /\ nth_error (stops r) i = Some si
                   /\ action si = "pickup" /\ stop_id si = stop_id sj;
  sr_on_time : forall s, In s (stops r) -> action s = "delivery" -> on_time s;
  sr_pickups : (List.length (filter is_pickup (stops r)) <= List.length gl)%nat;
  sr_deliveries : (List.length (filter (fun s => negb (is_pickup s)) (stops r))
                   <= List.length gl)%nat;
  sr_cache : goods_delivered r = recomputed_delivered (stops r);
  sr_time : total_time r = recomputed_time (stops r)
}.

(** A route was returned by one of the three builders. *)
Definition built_by (distance_to : Location -> Location -> Q) (v : Vehicle)
           (gl : list PerishableGoods) (r : Route) : Prop :=
  optimize_route distance_to v gl = Returns r
  \/ _optimize_by_distance distance_to v gl = Returns r
  \/ _optimize_by_time_window distance_to v gl = Returns r.

(** Two crates of 60 units for a van of capacity 100; the first one
    expires within 20 minutes. *)
Definition two_crates : list PerishableGoods :=
  [crate "g1" 60 place_A place_B 20 (0, 120)%Z;
   crate "g2" 60 place_A place_B 600 (0, 120)%Z].

(** The scenario of the specification: 30 units from A to B, expiring
    after 60 minutes, pickup window [0, 120]. *)
Definition one_crate : list PerishableGoods :=
  [crate "g" 30 place_A place_B 60 (0, 120)%Z].

Definition route_of (m : outcome Route) (v : Vehicle) : Route :=
  match m with
  | Returns r => r
  | _ => new_route v
  end.

Definition one_crate_route : Route :=
  Eval vm_compute in
    route_of (optimize_route table_distance (van 100 40) one_crate) (van 100 40).

(** Malformed inputs, in the words of the specification. *)
Definition malformed_vehicle (v : Vehicle) : Prop :=
  capacity v <= 0 \/ speed v <= 0.

Definition malformed_goods (g : PerishableGoods) : Prop :=
  quantity g <= 0
  \/ (snd (pickup_time_window g) < fst (pickup_time_window g))%Z.

(** A crate of no weight whose pickup window closes before it opens. *)
Definition odd_crate : list PerishableGoods :=
  [crate "g" 0 place_A place_B 60 (50, 20)%Z].

(** What a scan winner decides: the action and the item. *)
Definition decision (c : candidate) : string * PerishableGoods :=
  (best_action c, best_goods c).

(** The same item with another open bound of its pickup window. *)
Definition reopen (o : PerishableGoods -> Z) (g : PerishableGoods)
  : PerishableGoods :=
  mkGoods (goods_id g) (goods_name g) (goods_type g) (quantity g)
          (pickup_location g) (delivery_location g) (time_to_expiry g)
          (priority g) (o g, snd (pickup_time_window g)).

Definition reopen_stop (o : PerishableGoods -> Z) (s : RouteStop) : RouteStop :=
  mkStop (location s) (action s) (reopen o (goods s)) (arrival_time s)
         (estimated_duration s).

Definition reopen_route (o : PerishableGoods -> Z) (r : Route) : Route :=
  mkRoute (vehicle r) (map (reopen_stop o) (stops r)) (total_distance r)
          (total_time r) (map (reopen o) (goods_delivered r)).

Definition reopen_state (o : PerishableGoods -> Z) (st : plan_state)
  : plan_state :=
  mkState (reopen_route o (route st)) (cur_location st) (current_time st)
          (picked_up st) (delivered st).

Definition reopen_candidate (o : PerishableGoods -> Z) (c : candidate)
  : candidate :=
  mkCandidate (best_score c) (best_action c) (reopen o (best_goods c)).

(** The same vehicle with another capacity, and the same item with another
    quantity and another open bound of its pickup window: the fields that
    make an input malformed and that no builder reads. *)
Definition with_capacity (c : Q) (v : Vehicle) : Vehicle :=
  mkVehicle (vehicle_id v) (vehicle_name v) c (current_location v) (speed v).

Definition relabel (q : PerishableGoods -> Q) (o : PerishableGoods -> Z)
           (g : PerishableGoods) : PerishableGoods :=
  mkGoods (goods_id g) (goods_name g) (goods_type g) (q g)
          (pickup_location g) (delivery_location g) (time_to_expiry g)
          (priority g) (o g, snd (pickup_time_window g)).

Definition relabel_stop (q : PerishableGoods -> Q) (o : PerishableGoods -> Z)
           (s : RouteStop) : RouteStop :=
  mkStop (location s) (action s) (relabel q o (goods s)) (arrival_time s)
         (estimated_duration s).

Definition relabel_route (c : Q) (q : PerishableGoods -> Q)
           (o : PerishableGoods -> Z) (r : Route) : Route :=
  mkRoute (with_capacity c (vehicle r)) (map (relabel_stop q o) (stops r))
          (total_distance r) (total_time r)
          (map (relabel q o) (goods_delivered r)).

Definition relabel_state (c : Q) (q : PerishableGoods -> Q)
           (o : PerishableGoods -> Z) (st : plan_state) : plan_state :=
  mkState (relabel_route c q o (route st)) (cur_location st) (current_time st)
          (picked_up st) (delivered st).

Definition relabel_candidate (q : PerishableGoods -> Q)
           (o : PerishableGoods -> Z) (c0 : candidate) : candidate :=
  mkCandidate (best_score c0) (best_action c0) (relabel q o (best_goods c0)).

(** A crate whose pickup window opens after one hour. *)
Definition late_window_crate : list PerishableGoods :=
  [crate "g" 30 place_A place_B 600 (60, 120)%Z].

(** [a] may stand before [b] in the selector's ranking: it saves at least
    as much and, on equal savings, takes no longer. *)
Definition ranks_no_lower (a b : Route) : Prop :=
  total_goods_saved b <= total_goods_saved a
  /\ (total_goods_saved a == total_goods_saved b -> total_time a <= total_time b).

(** A crate waiting at B, 20 km from the van, to be brought to A. *)
Definition far_crate : list PerishableGoods :=
  [crate "g" 30 place_B place_A 600 (0, 120)%Z].

(* ------------------------------------------------------------------ *)
(** ** Predicates of the further properties *)

(** Where the vehicle stands and what the clock shows after a stop
    sequence that started at [start] at time [clock]. *)
Definition end_location (start : Location) (ss : list RouteStop) : Location :=
  last (map location ss) start.

Definition end_clock (clock : Q) (ss : list RouteStop) : Q :=
  last (map (fun s => arrival_time s + estimated_duration s) ss) clock.

(** The arrival times replayed from the stop sequence alone: each stop is
    reached after the travel from the previous place, and left after its
    15 minutes of service. *)
Fixpoint timetable (distance_to : Location -> Location -> Q) (spd : Q)
         (from : Location) (clock : Q) (ss : list RouteStop) : Prop :=
  match ss with
  | [] => True
  | s :: rest =>
      arrival_time s = clock + distance_to from (location s) / spd * 60
      /\ estimated_duration s = 15
      /\ timetable distance_to spd (location s)
                   (arrival_time s + estimated_duration s) rest
  end.

(** The stop is at the place its action names. *)
Definition at_its_place (s : RouteStop) : Prop :=
  (action s = "pickup" /\ location s = pickup_location (goods s))
  \/ (action s = "delivery" /\ location s = delivery_location (goods s)).

(** A pickup winner reaches the item before its window closes. *)
Definition in_window (distance_to : Location -> Location -> Q) (v : Vehicle)
           (st : plan_state) (c : candidate) : Prop :=
  best_action c = "pickup" ->
  Qle_bool (current_time st
            + distance_to (cur_location st) (pickup_location (best_goods c))
              / speed v * 60)
           (inject_Z (snd (pickup_time_window (best_goods c)))) = true.

Definition all_in_window (distance_to : Location -> Location -> Q) (v : Vehicle)
           (st : plan_state) (best : option candidate) : Prop :=
  forall c, best = Some c -> in_window distance_to v st c.

(** What both loops keep besides [well_formed]. *)
Record tracked (distance_to : Location -> Location -> Q) (v : Vehicle)
       (st : plan_state) : Prop := {
  tr_vehicle : vehicle (route st) = v;
  tr_place : forall s, In s (stops (route st)) -> at_its_place s;
  tr_window : forall s, In s (stops (route st)) -> action s = "pickup" ->
                Qle_bool (arrival_time s)
                         (inject_Z (snd (pickup_time_window (goods s)))) = true;
  tr_timetable : timetable distance_to (speed v) (current_location v) 0
                           (stops (route st));
  tr_here : cur_location st = end_location (current_location v) (stops (route st));
  tr_now : current_time st = end_clock 0 (stops (route st));
  tr_dropped : forall x, id_in x (delivered st) = true ->
                 exists s, In s (stops (route st)) /\ action s = "delivery"
                           /\ stop_id s = x;
  tr_picked_nodup : NoDup (picked_up st);
  tr_delivered_nodup : NoDup (delivered st);
  tr_pickups_nodup : NoDup (map stop_id (filter is_pickup (stops (route st))));
  tr_deliveries_nodup :
    NoDup (map stop_id (filter (fun s => negb (is_pickup s)) (stops (route st))))
}.

(** The same facts on the returned route. *)
Record scheduled (distance_to : Location -> Location -> Q) (v : Vehicle)
       (r : Route) : Prop := {
  sc_vehicle : vehicle r = v;
  sc_place : forall s, In s (stops r) -> at_its_place s;
  sc_window : forall s, In s (stops r) -> action s = "pickup" ->
                Qle_bool (arrival_time s)
                         (inject_Z (snd (pickup_time_window (goods s)))) = true;
  sc_timetable : timetable distance_to (speed v) (current_location v) 0 (stops r);
  sc_time : total_time r = end_clock 0 (stops r);
  sc_pickups_nodup : NoDup (map stop_id (filter is_pickup (stops r)));
  sc_deliveries_nodup :
    NoDup (map stop_id (filter (fun s => negb (is_pickup s)) (stops r)))
}.

(** The checker's running load, started from [load]. *)
Definition load_from (load : Q) (ss : list RouteStop) : Q :=
  fold_left (fun load s => if is_pickup s then load + quantity (goods s)
                           else load - quantity (goods s)) ss load.

(** The [n]-th stop [s] of the sequence passes the checker: a pickup keeps
    the load within the capacity, any other stop is reached by the expiry
    of its item. *)
Definition stop_passes (cap : Q) (load : Q) (ss : list RouteStop) (n : nat)
           (s : RouteStop) : Prop :=
  if is_pickup s then load_from load (firstn (S n) ss) <= cap
  else arrival_time s <= inject_Z (time_to_expiry (goods s)).

(** A hand-made route that loads 60 + 60 units on a van of capacity 100
    before delivering anything. *)
Definition overloaded_route : Route :=
  mkRoute (van 100 40)
          [new_stop place_A "pickup" (crate "g1" 60 place_A place_B 600 (0, 120)%Z) 0;
           new_stop place_A "pickup" (crate "g2" 60 place_A place_B 600 (0, 120)%Z) 15;
           new_stop place_B "delivery" (crate "g1" 60 place_A place_B 600 (0, 120)%Z) 60]
          20 75 [crate "g1" 60 place_A place_B 600 (0, 120)%Z].

(** Two crates that fit together into a van of capacity 100. *)
Definition light_crates : list PerishableGoods :=
  [crate "g1" 30 place_A place_B 600 (0, 120)%Z;
   crate "g2" 40 place_B place_A 600 (0, 240)%Z].

Definition light_route : Route :=
  Eval vm_compute in
    route_of (optimize_route table_distance (van 100 40) light_crates) (van 100 40).

(** The distance of the first leg of a stop sequence. *)
Definition first_leg (distance_to : Location -> Location -> Q) (v : Vehicle)
           (ss : list RouteStop) : Q :=
  match ss with
  | [] => 0
  | s :: _ => distance_to (current_location v) (location s)
  end.

(** The route holds a pickup stop of the item. *)
Definition picked_in (r : Route) (g : PerishableGoods) : Prop :=
  exists s, In s (stops r) /\ action s = "pickup" /\ goods s = g.

(** Nothing can be done for the item in this state: it is delivered, or it
    cannot be picked up before its window closes, or it is on board and
    cannot be delivered before it expires. *)
Definition no_offer (distance_to : Location -> Location -> Q) (v : Vehicle)
           (st : plan_state) (g : PerishableGoods) : Prop :=
  id_in (goods_id g) (delivered st) = true
  \/ (id_in (goods_id g) (picked_up st) = false
      /\ Qle_bool (current_time st
                   + distance_to (cur_location st) (pickup_location g)
                     / speed v * 60)
                  (inject_Z (snd (pickup_time_window g))) = false)
  \/ (id_in (goods_id g) (picked_up st) = true
      /\ Qle_bool (current_time st
                   + distance_to (cur_location st) (delivery_location g)
                     / speed v * 60)
                  (inject_Z (time_to_expiry g)) = false).

(** The second scenario of the specification: the crate expires after 10
    minutes, before it can reach B. *)
Definition doomed_crate : list PerishableGoods :=
  [crate "g" 30 place_A place_B 10 (0, 120)%Z].

Definition doomed_route : Route :=
  Eval vm_compute in
    route_of (optimize_route table_distance (van 100 40) doomed_crate) (van 100 40).

(** No route of the list equals, as a whole [Route] value, a later one. *)
Fixpoint all_differ (l : list Route) : Prop :=
  match l with
  | [] => True
  | x :: t => (forall y, In y t -> Route_eqb x y = false) /\ all_differ t
  end.

(** Two crates of different urgency. *)
Definition ranked_crates : list PerishableGoods :=
  [crate "g1" 30 place_A place_B 600 (0, 120)%Z;
   crate "g2" 40 place_B place_A 300 (0, 240)%Z].

Definition routes_of (m : outcome (list Route)) : list Route :=
  match m with
  | Returns l => l
  | _ => []
  end.

(** What the selector returns for the crate to fetch at B. *)
Definition far_selection : list Route :=
  Eval vm_compute in
    routes_of (find_k_shortest_routes table_distance (van 100 40) far_crate 3).

(* ------------------------------------------------------------------ *)
(** ** Location.distance_to over the reals

    The haversine formula of [Location.distance_to] with exact real
    numbers in place of floats.  [None] is the [ValueError] that
    [math.sqrt] raises on a negative argument and [math.asin] on an
    argument above 1. *)

(** [math.radians]. *)
Definition radians (x : R) : R := (x * (PI / 180))%R.

(** The variable [a] of the source. *)
Definition haversine_a (p q : Location) : R :=
  let lat1 := radians (Q2R (latitude p)) in
  let lon1 := radians (Q2R (longitude p)) in
  let lat2 := radians (Q2R (latitude q)) in
  let lon2 := radians (Q2R (longitude q)) in
  let dlat := (lat2 - lat1)%R in
  let dlon := (lon2 - lon1)%R in
  (sin (dlat / 2) ^ 2 + cos lat1 * cos lat2 * sin (dlon / 2) ^ 2)%R.

Definition haversine_km (p q : Location) : option R :=
  let a := haversine_a p q in
  if Rlt_dec a 0 then None
  else if Rlt_dec 1 (sqrt a) then None
  else
    let c := (2 * asin (sqrt a))%R in
    Some (6371 * c)%R.

(* ================================================================== *)
(** * Facts *)

(** ** Outcomes *)

Lemma bind_Returns {A B : Type} (m : outcome A) (k : A -> outcome B) (b : B) :
  bind m k = Returns b -> exists a, m = Returns a /\ k a = Returns b.
Proof.
  destruct m as [a | e | ]; simpl; intros H; try discriminate.
  exists a; split; [reflexivity | exact H].
Qed.

Lemma bind_not_OutOfFuel {A B : Type} (m : outcome A) (k : A -> outcome B) :
  m <> OutOfFuel -> (forall a, k a <> OutOfFuel) -> bind m k <> OutOfFuel.
Proof.
  intros Hm Hk. destruct m as [a | e | ]; simpl.
  - apply Hk.
  - discriminate.
  - exfalso. apply Hm. reflexivity.
Qed.

Lemma for_each_invariant {A S : Type} (P : S -> Prop) (Q : A -> Prop)
      (body : S -> A -> outcome S) :
  (forall s x s', P s -> Q x -> body s x = Returns s' -> P s') ->
  forall xs s s', Forall Q xs -> P s -> for_each body xs s = Returns s' -> P s'.
Proof.
  intros Hbody xs; induction xs as [| x xs IH]; simpl; intros s s' HQ HP H.
  - inversion H; subst; exact HP.
  - inversion HQ as [| ? ? Hx Hxs]; subst.
    apply bind_Returns in H. destruct H as [s1 [H1 H]].
    apply (IH s1 s' Hxs); [| exact H].
    exact (Hbody s x s1 HP Hx H1).
Qed.

Lemma for_each_not_OutOfFuel {A S : Type} (body : S -> A -> outcome S) :
  (forall s x, body s x <> OutOfFuel) ->
  forall xs s, for_each body xs s <> OutOfFuel.
Proof.
  intros Hbody xs; induction xs as [| x xs IH]; simpl; intros s.
  - discriminate.
  - apply bind_not_OutOfFuel; auto.
Qed.

(** ** Comparisons on [Q] *)

Lemma Qgt_bool_iff (a b : Q) : Qgt_bool a b = true <-> b < a.
Proof.
  unfold Qgt_bool. rewrite negb_true_iff.
  split; intros H.
  - apply Qnot_le_lt. intros Hle. apply Qle_bool_iff in Hle. congruence.
  - destruct (Qle_bool a b) eqn:E; [| reflexivity].
    apply Qle_bool_iff in E. exfalso. exact (Qlt_not_le _ _ H E).
Qed.

Lemma Qlt_bool_iff (a b : Q) : Qlt_bool a b = true <-> a < b.
Proof. exact (Qgt_bool_iff b a). Qed.

Lemma Qgt_bool_false_iff (a b : Q) : Qgt_bool a b = false <-> a <= b.
Proof.
  unfold Qgt_bool. rewrite negb_false_iff. apply Qle_bool_iff.
Qed.

(** ** Sets of ids *)

Lemma id_in_add_same (x : string) (s : id_set) : id_in x (id_add x s) = true.
Proof.
  unfold id_in, id_add. apply set_mem_correct2. apply set_add_intro2. reflexivity.
Qed.

Lemma id_in_add_mono (x y : string) (s : id_set) :
  id_in y s = true -> id_in y (id_add x s) = true.
Proof.
  unfold id_in, id_add. intros H. apply set_mem_correct2, set_add_intro1.
  apply set_mem_correct1 in H. exact H.
Qed.

Lemma id_in_add_inv (x y : string) (s : id_set) :
  id_in y (id_add x s) = true -> y = x \/ id_in y s = true.
Proof.
  unfold id_in, id_add. intros H. apply set_mem_correct1 in H.
  apply set_add_elim in H. destruct H as [H | H]; [left; exact H |].
  right. apply set_mem_correct2. exact H.
Qed.

Lemma count_out_add_le (gl : list PerishableGoods) (x : string) (s : id_set) :
  (count_out gl (id_add x s) <= count_out gl s)%nat.
Proof.
  unfold count_out. induction gl as [| g gl IH]; simpl; [lia |].
  destruct (id_in (goods_id g) s) eqn:E.
  - rewrite (id_in_add_mono _ _ _ E). simpl. exact IH.
  - simpl. destruct (id_in (goods_id g) (id_add x s)); simpl; lia.
Qed.

Lemma count_out_add_lt (gl : list PerishableGoods) (g : PerishableGoods)
      (s : id_set) :
  In g gl -> id_in (goods_id g) s = false ->
  (count_out gl (id_add (goods_id g) s) < count_out gl s)%nat.
Proof.
  unfold count_out. induction gl as [| h gl IH]; simpl; intros Hin Hout.
  - contradiction.
  - destruct Hin as [-> | Hin].
    + rewrite Hout, id_in_add_same. simpl.
      pose proof (count_out_add_le gl (goods_id g) s) as Hle.
      unfold count_out in Hle. lia.
    + specialize (IH Hin Hout).
      destruct (id_in (goods_id h) s) eqn:E.
      * rewrite (id_in_add_mono _ _ _ E). simpl. exact IH.
      * simpl. destruct (id_in (goods_id h) (id_add (goods_id g) s)); simpl; lia.
Qed.

Lemma count_out_le_length (gl : list PerishableGoods) (s : id_set) :
  (count_out gl s <= List.length gl)%nat.
Proof. unfold count_out. apply filter_length_le. Qed.

(** ** Stable sorting *)

Lemma insert_by_perm {A : Type} (before : A -> A -> bool) (x : A) (l : list A) :
  Permutation (x :: l) (insert_by before x l).
Proof.
  induction l as [| y l IH]; simpl.
  - apply Permutation_refl.
  - destruct (before x y).
    + apply Permutation_refl.
    + eapply perm_trans; [apply perm_swap |]. apply perm_skip. exact IH.
Qed.

Lemma sorted_by_perm {A : Type} (before : A -> A -> bool) (xs : list A) :
  Permutation xs (sorted_by before xs).
Proof.
  unfold sorted_by.
  assert (G : forall acc, Permutation (xs ++ acc)
                (fold_left (fun acc x => insert_by before x acc) xs acc)).
  { induction xs as [| x xs IH]; simpl; intros acc.
    - apply Permutation_refl.
    - eapply perm_trans; [| apply IH].
      eapply perm_trans; [apply Permutation_middle |].
      apply Permutation_app_head. apply insert_by_perm. }
  specialize (G []). rewrite app_nil_r in G. exact G.
Qed.

Lemma sorted_by_length {A : Type} (before : A -> A -> bool) (xs : list A) :
  List.length (sorted_by before xs) = List.length xs.
Proof. symmetry. apply Permutation_length, sorted_by_perm. Qed.

Lemma sorted_by_In {A : Type} (before : A -> A -> bool) (xs : list A) (x : A) :
  In x (sorted_by before xs) <-> In x xs.
Proof.
  split; intros H.
  - eapply Permutation_in; [apply Permutation_sym, sorted_by_perm | exact H].
  - eapply Permutation_in; [apply sorted_by_perm | exact H].
Qed.

(** ** Lists grown at the end *)

Lemma nth_error_snoc {A : Type} (l : list A) (a x : A) (i : nat) :
  nth_error (l ++ [a]) i = Some x ->
  ((i < List.length l)%nat /\ nth_error l i = Some x)
  \/ (i = List.length l /\ x = a).
Proof.
  intros H. destruct (Nat.lt_ge_cases i (List.length l)) as [Hlt | Hge].
  - left. split; [exact Hlt |]. rewrite nth_error_app1 in H by exact Hlt. exact H.
  - right. rewrite nth_error_app2 in H by exact Hge.
    destruct (i - List.length l)%nat as [| m] eqn:E; simpl in H.
    + split; [lia | congruence].
    + destruct m; discriminate.
Qed.

Lemma nth_error_snoc_old {A : Type} (l : list A) (a x : A) (i : nat) :
  nth_error l i = Some x -> nth_error (l ++ [a]) i = Some x.
Proof.
  intros H. rewrite nth_error_app1; [exact H |].
  apply nth_error_Some. congruence.
Qed.

Lemma recomputed_time_snoc (ss : list RouteStop) (s : RouteStop) :
  recomputed_time (ss ++ [s]) = arrival_time s + estimated_duration s.
Proof.
  unfold recomputed_time. rewrite map_app. simpl. rewrite last_last. reflexivity.
Qed.

Lemma recomputed_delivered_snoc (ss : list RouteStop) (s : RouteStop) :
  recomputed_delivered (ss ++ [s])
  = (recomputed_delivered ss ++ (if is_pickup s then [] else [goods s]))%list.
Proof.
  unfold recomputed_delivered. rewrite filter_app, map_app. simpl.
  destruct (is_pickup s); reflexivity.
Qed.

(** ** The planner's steps *)

Section PlannerFacts.

Variable distance_to : Location -> Location -> Q.
Variable v : Vehicle.
Variable gl : list PerishableGoods.

Lemma travel_time_Returns (a b : Location) (t : Q) :
  travel_time distance_to v a b = Returns t ->
  Qeq_bool (speed v) 0 = false /\ t = distance_to a b / speed v * 60.
Proof.
  unfold travel_time. destruct (Qeq_bool (speed v) 0); intros H.
  - discriminate.
  - inversion H. split; reflexivity.
Qed.

Lemma travel_time_not_OutOfFuel (a b : Location) :
  travel_time distance_to v a b <> OutOfFuel.
Proof. unfold travel_time. destruct (Qeq_bool (speed v) 0); discriminate. Qed.

Lemma travel_time_moving (a b : Location) :
  Qeq_bool (speed v) 0 = false ->
  travel_time distance_to v a b = Returns (distance_to a b / speed v * 60).
Proof. unfold travel_time. intros ->. reflexivity. Qed.

Lemma greedy_visit_eligible (st : plan_state) (best best' : option candidate)
      (g : PerishableGoods) :
  all_eligible distance_to v gl st best -> In g gl ->
  greedy_visit distance_to v st best g = Returns best' ->
  all_eligible distance_to v gl st best'.
Proof.
  unfold greedy_visit. intros Hbest Hin H.
  destruct (id_in (goods_id g) (delivered st)) eqn:Ed.
  { inversion H; subst; exact Hbest. }
  destruct (id_in (goods_id g) (picked_up st)) eqn:Ep; simpl in H;
    apply bind_Returns in H; destruct H as [t [Ht H]];
    apply travel_time_Returns in Ht; destruct Ht as [_ ->].
  - destruct (Qle_bool _ _) eqn:Ea in H.
    + destruct (match best with None => true | Some b => _ end) in H;
        inversion H; subst; [| exact Hbest].
      intros c Hc; inversion Hc; subst. unfold eligible; simpl.
      split; [exact Hin |]. split; [exact Ed |]. right. auto.
    + inversion H; subst; exact Hbest.
  - destruct (Qle_bool _ _) eqn:Ea in H.
    + destruct (match best with None => true | Some b => _ end) in H;
        inversion H; subst; [| exact Hbest].
      intros c Hc; inversion Hc; subst. unfold eligible; simpl.
      split; [exact Hin |]. split; [exact Ed |]. left. auto.
    + inversion H; subst; exact Hbest.
Qed.

Lemma distance_visit_eligible (st : plan_state) (best best' : option candidate)
      (g : PerishableGoods) :
  all_eligible distance_to v gl st best -> In g gl ->
  distance_visit distance_to v st best g = Returns best' ->
  all_eligible distance_to v gl st best'.
Proof.
  unfold distance_visit. intros Hbest Hin H.
  destruct (id_in (goods_id g) (delivered st)) eqn:Ed.
  { inversion H; subst; exact Hbest. }
  destruct (id_in (goods_id g) (picked_up st)) eqn:Ep; simpl in H;
    (destruct (Qeq_bool (speed v) 0); [discriminate |]).
  - destruct (Qle_bool _ _) eqn:Ea in H.
    + destruct (match best with None => true | Some b => _ end) in H;
        inversion H; subst; [| exact Hbest].
      intros c Hc; inversion Hc; subst. unfold eligible; simpl.
      split; [exact Hin |]. split; [exact Ed |]. right. auto.
    + inversion H; subst; exact Hbest.
  - destruct (Qle_bool _ _) eqn:Ea in H.
    + destruct (match best with None => true | Some b => _ end) in H;
        inversion H; subst; [| exact Hbest].
      intros c Hc; inversion Hc; subst. unfold eligible; simpl.
      split; [exact Hin |]. split; [exact Ed |]. left. auto.
    + inversion H; subst; exact Hbest.
Qed.

Lemma greedy_visit_not_OutOfFuel st best g :
  greedy_visit distance_to v st best g <> OutOfFuel.
Proof.
  unfold greedy_visit, travel_time.
  repeat match goal with
         | |- context [if ?b then _ else _] => destruct b; simpl
         end; discriminate.
Qed.

Lemma distance_visit_not_OutOfFuel st best g :
  distance_visit distance_to v st best g <> OutOfFuel.
Proof.
  unfold distance_visit.
  repeat match goal with
         | |- context [if ?b then _ else _] => destruct b; simpl
         end; discriminate.
Qed.

Lemma greedy_commit_committed (st st' : plan_state) (c : candidate) :
  greedy_commit distance_to v st c = Returns st' ->
  committed distance_to v st c st'.
Proof.
  unfold greedy_commit, committed, greedy_commit_pickup, commit_delivery.
  destruct (String.eqb (best_action c) "pickup"); intros H;
    apply bind_Returns in H; destruct H as [t [Ht H]];
    apply travel_time_Returns in Ht; destruct Ht as [_ ->];
    inversion H; subst; simpl; repeat split; reflexivity.
Qed.

Lemma distance_commit_committed (st st' : plan_state) (c : candidate) :
  distance_commit distance_to v st c = Returns st' ->
  committed distance_to v st c st'.
Proof.
  unfold distance_commit, committed, distance_commit_pickup, commit_delivery.
  destruct (String.eqb (best_action c) "pickup"); intros H;
    apply bind_Returns in H; destruct H as [t [Ht H]];
    apply travel_time_Returns in Ht; destruct Ht as [_ ->];
    inversion H; subst; simpl; repeat split; reflexivity.
Qed.

Lemma greedy_commit_not_OutOfFuel st c :
  greedy_commit distance_to v st c <> OutOfFuel.
Proof.
  unfold greedy_commit, greedy_commit_pickup, commit_delivery, travel_time.
  destruct (String.eqb _ _); destruct (Qeq_bool _ _); simpl; discriminate.
Qed.

Lemma distance_commit_not_OutOfFuel st c :
  distance_commit distance_to v st c <> OutOfFuel.
Proof.
  unfold distance_commit, distance_commit_pickup, commit_delivery, travel_time.
  destruct (String.eqb _ _); destruct (Qeq_bool _ _); simpl; discriminate.
Qed.

End PlannerFacts.

(** ** A commit keeps the loop invariant and lowers the measure *)

Section CommitFacts.

Variable distance_to : Location -> Location -> Q.
Variable v : Vehicle.
Variable gl : list PerishableGoods.

Lemma eligible_kind (st : plan_state) (c : candidate) :
  eligible distance_to v gl st c ->
  (String.eqb (best_action c) "pickup" = true /\ best_action c = "pickup"
   /\ id_in (goods_id (best_goods c)) (picked_up st) = false)
  \/ (String.eqb (best_action c) "pickup" = false /\ best_action c = "delivery"
      /\ id_in (goods_id (best_goods c)) (picked_up st) = true
      /\ Qle_bool (current_time st
                   + distance_to (cur_location st)
                                 (delivery_location (best_goods c)) / speed v * 60)
                  (inject_Z (time_to_expiry (best_goods c))) = true).
Proof.
  intros [_ [_ [[Ha Hp] | [Ha [Hp Ht]]]]].
  - left. rewrite Ha. auto.
  - right. rewrite Ha. auto.
Qed.

Lemma committed_remaining (st st' : plan_state) (c : candidate) :
  eligible distance_to v gl st c -> committed distance_to v st c st' ->
  (remaining gl st' < remaining gl st)%nat.
Proof.
  intros He Hc. pose proof He as [Hin [Hd _]].
  unfold committed in Hc. unfold remaining.
  destruct (eligible_kind _ _ He) as [[E [_ Hp]] | [E _]]; rewrite E in Hc;
    destruct Hc as [_ [_ [_ [_ [_ [Hpk Hdl]]]]]]; rewrite Hpk, Hdl.
  - pose proof (count_out_add_lt gl _ _ Hin Hp). lia.
  - pose proof (count_out_add_lt gl _ _ Hin Hd). lia.
Qed.

Lemma committed_stops (st st' : plan_state) (c : candidate) :
  committed distance_to v st c st' ->
  exists s, stops (route st') = (stops (route st) ++ [s])%list
            /\ goods s = best_goods c.
Proof.
  unfold committed. destruct (String.eqb _ _); intros [_ [Hs _]];
    eexists; (split; [exact Hs | reflexivity]).
Qed.

Lemma committed_well_formed (st st' : plan_state) (c : candidate) :
  well_formed gl st -> eligible distance_to v gl st c ->
  committed distance_to v st c st' -> well_formed gl st'.
Proof.
  intros W He Hc. pose proof He as [Hin [Hd _]].
  unfold committed in Hc.
  destruct (eligible_kind _ _ He) as [[E [Ha Hp]] | [E [Ha [Hp Ht]]]];
    rewrite E in Hc;
    destruct Hc as [Hv [Hs [Hg [Hl [Hc [Hpk Hdl]]]]]].
  - (* pickup *)
    set (s0 := new_stop (pickup_location (best_goods c)) "pickup" (best_goods c)
                        (current_time st
                         + distance_to (cur_location st)
                             (pickup_location (best_goods c)) / speed v * 60))
      in *.
    constructor; rewrite ?Hs, ?Hpk, ?Hdl, ?Hg, ?Hc.
    + intros s Hs'. apply in_app_or in Hs'. destruct Hs' as [Hs' | [<- | []]].
      * exact (wf_listed _ _ W s Hs').
      * exact Hin.
    + intros s Hs'. apply in_app_or in Hs'. destruct Hs' as [Hs' | [<- | []]].
      * exact (wf_kind _ _ W s Hs').
      * left; reflexivity.
    + intros s Hs' Hact. apply in_app_or in Hs'. destruct Hs' as [Hs' | [<- | []]].
      * apply id_in_add_mono. exact (wf_picked _ _ W s Hs' Hact).
      * apply id_in_add_same.
    + intros s Hs' Hact. apply in_app_or in Hs'. destruct Hs' as [Hs' | [<- | []]].
      * exact (wf_delivered _ _ W s Hs' Hact).
      * discriminate Hact.
    + intros x Hx. apply id_in_add_inv in Hx. destruct Hx as [-> | Hx].
      * exists s0. split; [apply in_or_app; right; left; reflexivity |].
        split; reflexivity.
      * destruct (wf_on_board _ _ W x Hx) as [s [Hs' [Hact Hid]]].
        exists s. split; [apply in_or_app; left; exact Hs' |]. auto.
    + intros i j si sj Hi Hj Hact Hid.
      apply nth_error_snoc in Hi; apply nth_error_snoc in Hj.
      destruct Hi as [[Hi1 Hi] | [Hi ->]]; destruct Hj as [[Hj1 Hj] | [Hj ->]].
      * exact (wf_once _ _ W i j si sj Hi Hj Hact Hid).
      * exfalso. apply nth_error_In in Hi.
        pose proof (wf_picked _ _ W si Hi Hact) as Hc'.
        rewrite Hid in Hc'. unfold stop_id in Hc'. simpl in Hc'. congruence.
      * exfalso. apply nth_error_In in Hj.
        pose proof (wf_picked _ _ W sj Hj (eq_sym Hact)) as Hc'.
        rewrite <- Hid in Hc'. unfold stop_id in Hc'. simpl in Hc'. congruence.
      * congruence.
    + intros j sj Hj Hact. apply nth_error_snoc in Hj.
      destruct Hj as [[Hj1 Hj] | [Hj ->]]; [| discriminate Hact].
      destruct (wf_order _ _ W j sj Hj Hact) as [i [si [Hlt [Hi Hrest]]]].
      exists i, si. split; [exact Hlt |].
      split; [apply nth_error_snoc_old; exact Hi | exact Hrest].
    + intros s Hs' Hact. apply in_app_or in Hs'. destruct Hs' as [Hs' | [<- | []]].
      * exact (wf_on_time _ _ W s Hs' Hact).
      * discriminate Hact.
    + rewrite filter_app, length_app. simpl.
      pose proof (count_out_add_lt gl _ _ Hin Hp).
      pose proof (wf_pickups _ _ W). lia.
    + rewrite filter_app, length_app. simpl. rewrite Nat.add_0_r.
      exact (wf_deliveries _ _ W).
    + rewrite recomputed_delivered_snoc. simpl. rewrite app_nil_r.
      exact (wf_cache _ _ W).
    + rewrite recomputed_time_snoc. reflexivity.
  - (* delivery *)
    set (s0 := new_stop (delivery_location (best_goods c)) "delivery"
                        (best_goods c)
                        (current_time st
                         + distance_to (cur_location st)
                             (delivery_location (best_goods c)) / speed v * 60))
      in *.
    constructor; rewrite ?Hs, ?Hpk, ?Hdl, ?Hg, ?Hc.
    + intros s Hs'. apply in_app_or in Hs'. destruct Hs' as [Hs' | [<- | []]].
      * exact (wf_listed _ _ W s Hs').
      * exact Hin.
    + intros s Hs'. apply in_app_or in Hs'. destruct Hs' as [Hs' | [<- | []]].
      * exact (wf_kind _ _ W s Hs').
      * right; reflexivity.
    + intros s Hs' Hact. apply in_app_or in Hs'. destruct Hs' as [Hs' | [<- | []]].
      * exact (wf_picked _ _ W s Hs' Hact).
      * discriminate Hact.
    + intros s Hs' Hact. apply in_app_or in Hs'. destruct Hs' as [Hs' | [<- | []]].
      * apply id_in_add_mono. exact (wf_delivered _ _ W s Hs' Hact).
      * apply id_in_add_same.
    + intros x Hx.
      destruct (wf_on_board _ _ W x Hx) as [s [Hs' [Hact Hid]]].
      exists s. split; [apply in_or_app; left; exact Hs' |]. auto.
    + intros i j si sj Hi Hj Hact Hid.
      apply nth_error_snoc in Hi; apply nth_error_snoc in Hj.
      destruct Hi as [[Hi1 Hi] | [Hi ->]]; destruct Hj as [[Hj1 Hj] | [Hj ->]].
      * exact (wf_once _ _ W i j si sj Hi Hj Hact Hid).
      * exfalso. apply nth_error_In in Hi.
        pose proof (wf_delivered _ _ W si Hi Hact) as Hc'.
        rewrite Hid in Hc'. unfold stop_id in Hc'. simpl in Hc'. congruence.
      * exfalso. apply nth_error_In in Hj.
        pose proof (wf_delivered _ _ W sj Hj (eq_sym Hact)) as Hc'.
        rewrite <- Hid in Hc'. unfold stop_id in Hc'. simpl in Hc'. congruence.
      * congruence.
    + intros j sj Hj Hact. apply nth_error_snoc in Hj.
      destruct Hj as [[Hj1 Hj] | [Hj ->]].
      * destruct (wf_order _ _ W j sj Hj Hact) as [i [si [Hlt [Hi Hrest]]]].
        exists i, si. split; [exact Hlt |].
        split; [apply nth_error_snoc_old; exact Hi | exact Hrest].
      * destruct (wf_on_board _ _ W _ Hp) as [s [Hs' [Hact' Hid]]].
        apply In_nth_error in Hs'. destruct Hs' as [i Hi].
        exists i, s. split; [rewrite Hj; apply nth_error_Some; congruence |].
        split; [apply nth_error_snoc_old; exact Hi |].
        split; [exact Hact' | exact Hid].
    + intros s Hs' Hact. apply in_app_or in Hs'. destruct Hs' as [Hs' | [<- | []]].
      * exact (wf_on_time _ _ W s Hs' Hact).
      * exact Ht.
    + rewrite filter_app, length_app. simpl. rewrite Nat.add_0_r.
      exact (wf_pickups _ _ W).
    + rewrite filter_app, length_app. simpl.
      pose proof (count_out_add_lt gl _ _ Hin Hd).
      pose proof (wf_deliveries _ _ W). lia.
    + rewrite recomputed_delivered_snoc. simpl.
      rewrite (wf_cache _ _ W). reflexivity.
    + rewrite recomputed_time_snoc. reflexivity.
Qed.

Lemma initial_state_well_formed : well_formed gl (initial_state v).
Proof.
  constructor; simpl; try (intros; contradiction); try reflexivity.
  - intros x Hx. discriminate Hx.
  - intros i j si sj Hi. destruct i; discriminate Hi.
  - intros j sj Hj. destruct j; discriminate Hj.
  - apply count_out_le_length.
  - apply count_out_le_length.
Qed.

End CommitFacts.

(** ** The [while] loop *)

Section WhileFacts.

Variable step : plan_state -> outcome (option plan_state).
Variable measure : plan_state -> nat.

Hypothesis step_lowers :
  forall st st', step st = Returns (Some st') -> (measure st' < measure st)%nat.
Hypothesis step_not_OutOfFuel : forall st, step st <> OutOfFuel.

Lemma while_loop_terminates (fuel : nat) :
  forall st, (measure st < fuel)%nat -> while_loop step fuel st <> OutOfFuel.
Proof.
  induction fuel as [| fuel IH]; intros st Hlt; [lia |].
  simpl. destruct (step st) as [[st' |] | e |] eqn:E; simpl.
  - apply IH. pose proof (step_lowers _ _ E). lia.
  - discriminate.
  - discriminate.
  - intros _. exact (step_not_OutOfFuel st E).
Qed.

Lemma while_loop_more_fuel (fuel : nat) :
  forall st fuel', (measure st < fuel)%nat -> (fuel <= fuel')%nat ->
                   while_loop step fuel' st = while_loop step fuel st.
Proof.
  induction fuel as [| fuel IH]; intros st fuel' Hlt Hle; [lia |].
  destruct fuel' as [| fuel']; [lia |].
  simpl. destruct (step st) as [[st' |] | e |] eqn:E; simpl; try reflexivity.
  apply IH; [| lia]. pose proof (step_lowers _ _ E). lia.
Qed.

Lemma while_loop_Returns (fuel : nat) :
  (forall st, exists x, step st = Returns x) ->
  forall st, (measure st < fuel)%nat -> exists r, while_loop step fuel st = Returns r.
Proof.
  intros Hret. induction fuel as [| fuel IH]; intros st Hlt; [lia |].
  simpl. destruct (Hret st) as [[st' |] E]; rewrite E; simpl.
  - apply IH. pose proof (step_lowers _ _ E). lia.
  - exists st. reflexivity.
Qed.

Lemma while_loop_invariant (P : plan_state -> Prop) :
  (forall st st', P st -> step st = Returns (Some st') -> P st') ->
  forall fuel st r, P st -> while_loop step fuel st = Returns r -> P r.
Proof.
  intros Hstep fuel. induction fuel as [| fuel IH]; intros st r HP H.
  - discriminate H.
  - simpl in H. apply bind_Returns in H. destruct H as [[st' |] [E H]].
    + exact (IH st' r (Hstep st st' HP E) H).
    + inversion H; subst. exact HP.
Qed.

End WhileFacts.

(** ** One iteration of a builder *)

Section IterationFacts.

Variable distance_to : Location -> Location -> Q.
Variable v : Vehicle.
Variable gl : list PerishableGoods.
Variable visit : plan_state -> option candidate -> PerishableGoods
                 -> outcome (option candidate).
Variable commit : plan_state -> candidate -> outcome plan_state.

Hypothesis visit_eligible :
  forall st best best' g,
    all_eligible distance_to v gl st best -> In g gl ->
    visit st best g = Returns best' -> all_eligible distance_to v gl st best'.
Hypothesis commit_committed :
  forall st st' c, commit st c = Returns st' -> committed distance_to v st c st'.
Hypothesis visit_not_OutOfFuel : forall st best g, visit st best g <> OutOfFuel.
Hypothesis commit_not_OutOfFuel : forall st c, commit st c <> OutOfFuel.

Lemma iteration_commits (st st' : plan_state) :
  iteration visit commit gl st = Returns (Some st') ->
  exists c, eligible distance_to v gl st c /\ committed distance_to v st c st'.
Proof.
  unfold iteration. destruct (Nat.ltb _ _); [| discriminate].
  intros H. apply bind_Returns in H. destruct H as [best [Hscan H]].
  destruct best as [c |]; [| discriminate].
  apply bind_Returns in H. destruct H as [st1 [Hcommit H]].
  inversion H; subst. exists c. split; [| apply commit_committed; exact Hcommit].
  assert (Hall : all_eligible distance_to v gl st (Some c)).
  { apply (for_each_invariant (all_eligible distance_to v gl st)
                              (fun g => In g gl) (visit st)
                              (fun s x s' Hs Hx => visit_eligible st s s' x Hs Hx)
                              gl None (Some c)).
    - apply Forall_forall. auto.
    - intros c' Hc'. discriminate Hc'.
    - exact Hscan. }
  apply Hall. reflexivity.
Qed.

Lemma iteration_not_OutOfFuel (st : plan_state) :
  iteration visit commit gl st <> OutOfFuel.
Proof.
  unfold iteration. destruct (Nat.ltb _ _); [| discriminate].
  apply bind_not_OutOfFuel.
  - apply for_each_not_OutOfFuel. apply visit_not_OutOfFuel.
  - intros [c |]; [| discriminate].
    apply bind_not_OutOfFuel; [apply commit_not_OutOfFuel | discriminate].
Qed.

Lemma iteration_lowers (st st' : plan_state) :
  iteration visit commit gl st = Returns (Some st') ->
  (remaining gl st' < remaining gl st)%nat.
Proof.
  intros H. destruct (iteration_commits _ _ H) as [c [He Hc]].
  exact (committed_remaining distance_to v gl st st' c He Hc).
Qed.

Lemma iteration_well_formed (st st' : plan_state) :
  well_formed gl st -> iteration visit commit gl st = Returns (Some st') ->
  well_formed gl st'.
Proof.
  intros W H. destruct (iteration_commits _ _ H) as [c [He Hc]].
  exact (committed_well_formed distance_to v gl st st' c W He Hc).
Qed.

Lemma iteration_one_stop (st st' : plan_state) :
  iteration visit commit gl st = Returns (Some st') ->
  exists s, stops (route st') = (stops (route st) ++ [s])%list.
Proof.
  intros H. destruct (iteration_commits _ _ H) as [c [_ Hc]].
  destruct (committed_stops distance_to v st st' c Hc) as [s [Hs _]].
  exists s. exact Hs.
Qed.

Lemma initial_remaining : (remaining gl (initial_state v) < enough_fuel gl)%nat.
Proof.
  unfold remaining, enough_fuel. simpl.
  pose proof (count_out_le_length gl []). lia.
Qed.

Lemma loop_never_cut_short :
  while_loop (iteration visit commit gl) (enough_fuel gl) (initial_state v)
  <> OutOfFuel.
Proof.
  apply (while_loop_terminates _ (remaining gl)).
  - apply iteration_lowers.
  - apply iteration_not_OutOfFuel.
  - apply initial_remaining.
Qed.

Lemma loop_more_fuel (fuel : nat) :
  (enough_fuel gl <= fuel)%nat ->
  while_loop (iteration visit commit gl) fuel (initial_state v)
  = while_loop (iteration visit commit gl) (enough_fuel gl) (initial_state v).
Proof.
  intros Hle. apply (while_loop_more_fuel _ (remaining gl)).
  - apply iteration_lowers.
  - apply initial_remaining.
  - exact Hle.
Qed.

Lemma loop_well_formed (fuel : nat) (st : plan_state) :
  while_loop (iteration visit commit gl) fuel (initial_state v) = Returns st ->
  well_formed gl st.
Proof.
  apply (while_loop_invariant _ (well_formed gl)).
  - apply iteration_well_formed.
  - apply initial_state_well_formed.
Qed.

End IterationFacts.

(** ** From the loop invariant to the returned route *)

Lemma well_formed_sound (gl : list PerishableGoods) (st : plan_state) :
  well_formed gl st -> sound_route gl (finish st).
Proof.
  intros W. constructor; simpl.
  - exact (wf_listed _ _ W).
  - exact (wf_kind _ _ W).
  - exact (wf_once _ _ W).
  - exact (wf_order _ _ W).
  - exact (wf_on_time _ _ W).
  - pose proof (wf_pickups _ _ W). lia.
  - pose proof (wf_deliveries _ _ W). lia.
  - exact (wf_cache _ _ W).
  - exact (wf_clock _ _ W).
Qed.

Lemma new_route_sound (gl : list PerishableGoods) (v : Vehicle) :
  sound_route gl (new_route v).
Proof.
  constructor; simpl; try (intros; contradiction); try reflexivity; try lia.
  - intros i j si sj Hi. destruct i; discriminate Hi.
  - intros j sj Hj. destruct j; discriminate Hj.
Qed.

Lemma sound_route_perm (gl gl' : list PerishableGoods) (r : Route) :
  Permutation gl gl' -> sound_route gl r -> sound_route gl' r.
Proof.
  intros Hp S. constructor.
  - intros s Hs. eapply Permutation_in; [exact Hp |]. exact (sr_listed _ _ S s Hs).
  - exact (sr_kind _ _ S).
  - exact (sr_once _ _ S).
  - exact (sr_order _ _ S).
  - exact (sr_on_time _ _ S).
  - rewrite <- (Permutation_length Hp). exact (sr_pickups _ _ S).
  - rewrite <- (Permutation_length Hp). exact (sr_deliveries _ _ S).
  - exact (sr_cache _ _ S).
  - exact (sr_time _ _ S).
Qed.

(** ** The three builders *)

Section BuilderFacts.

Variable distance_to : Location -> Location -> Q.
Variable v : Vehicle.

Lemma greedy_loop_sound (gl : list PerishableGoods) (fuel : nat) (st : plan_state) :
  while_loop (greedy_step distance_to v gl) fuel (initial_state v) = Returns st ->
  sound_route gl (finish st).
Proof.
  intros H. apply well_formed_sound.
  apply (loop_well_formed distance_to v gl (greedy_visit distance_to v)
                          (greedy_commit distance_to v)
                          (greedy_visit_eligible distance_to v gl)
                          (greedy_commit_committed distance_to v) fuel st H).
Qed.

Lemma distance_loop_sound (gl : list PerishableGoods) (fuel : nat) (st : plan_state) :
  while_loop (distance_step distance_to v gl) fuel (initial_state v) = Returns st ->
  sound_route gl (finish st).
Proof.
  intros H. apply well_formed_sound.
  apply (loop_well_formed distance_to v gl (distance_visit distance_to v)
                          (distance_commit distance_to v)
                          (distance_visit_eligible distance_to v gl)
                          (distance_commit_committed distance_to v) fuel st H).
Qed.

Lemma optimize_route_fuel_sound (fuel : nat) (gl : list PerishableGoods) (r : Route) :
  optimize_route_fuel distance_to fuel v gl = Returns r -> sound_route gl r.
Proof.
  unfold optimize_route_fuel. destruct gl as [| g gl'].
  - intros H; inversion H; subst. apply new_route_sound.
  - intros H. apply bind_Returns in H. destruct H as [st [Hloop H]].
    inversion H; subst.
    eapply sound_route_perm; [apply Permutation_sym, sorted_by_perm |].
    eapply greedy_loop_sound. exact Hloop.
Qed.

Lemma optimize_route_sound (gl : list PerishableGoods) (r : Route) :
  optimize_route distance_to v gl = Returns r -> sound_route gl r.
Proof. apply optimize_route_fuel_sound. Qed.

Lemma _optimize_by_distance_fuel_sound (fuel : nat) (gl : list PerishableGoods)
      (r : Route) :
  _optimize_by_distance_fuel distance_to fuel v gl = Returns r -> sound_route gl r.
Proof.
  unfold _optimize_by_distance_fuel. intros H.
  apply bind_Returns in H. destruct H as [st [Hloop H]]. inversion H; subst.
  eapply distance_loop_sound. exact Hloop.
Qed.

Lemma _optimize_by_distance_sound (gl : list PerishableGoods) (r : Route) :
  _optimize_by_distance distance_to v gl = Returns r -> sound_route gl r.
Proof. apply _optimize_by_distance_fuel_sound. Qed.

Lemma _optimize_by_time_window_sound (gl : list PerishableGoods) (r : Route) :
  _optimize_by_time_window distance_to v gl = Returns r -> sound_route gl r.
Proof.
  unfold _optimize_by_time_window. intros H.
  eapply sound_route_perm; [apply Permutation_sym, sorted_by_perm |].
  apply optimize_route_sound. exact H.
Qed.

(** *** Fuel *)

Lemma enough_fuel_sorted {before} (gl : list PerishableGoods) :
  enough_fuel (sorted_by before gl) = enough_fuel gl.
Proof. unfold enough_fuel. rewrite sorted_by_length. reflexivity. Qed.

Lemma greedy_loop_never_cut_short (gl : list PerishableGoods) :
  while_loop (greedy_step distance_to v gl) (enough_fuel gl) (initial_state v)
  <> OutOfFuel.
Proof.
  apply (loop_never_cut_short distance_to v gl (greedy_visit distance_to v)
           (greedy_commit distance_to v)
           (greedy_visit_eligible distance_to v gl)
           (greedy_commit_committed distance_to v)
           (greedy_visit_not_OutOfFuel distance_to v)
           (greedy_commit_not_OutOfFuel distance_to v)).
Qed.

Lemma distance_loop_never_cut_short (gl : list PerishableGoods) :
  while_loop (distance_step distance_to v gl) (enough_fuel gl) (initial_state v)
  <> OutOfFuel.
Proof.
  apply (loop_never_cut_short distance_to v gl (distance_visit distance_to v)
           (distance_commit distance_to v)
           (distance_visit_eligible distance_to v gl)
           (distance_commit_committed distance_to v)
           (distance_visit_not_OutOfFuel distance_to v)
           (distance_commit_not_OutOfFuel distance_to v)).
Qed.

Lemma greedy_loop_more_fuel (gl : list PerishableGoods) (fuel : nat) :
  (enough_fuel gl <= fuel)%nat ->
  while_loop (greedy_step distance_to v gl) fuel (initial_state v)
  = while_loop (greedy_step distance_to v gl) (enough_fuel gl) (initial_state v).
Proof.
  apply (loop_more_fuel distance_to v gl (greedy_visit distance_to v)
           (greedy_commit distance_to v)
           (greedy_visit_eligible distance_to v gl)
           (greedy_commit_committed distance_to v)).
Qed.

Lemma distance_loop_more_fuel (gl : list PerishableGoods) (fuel : nat) :
  (enough_fuel gl <= fuel)%nat ->
  while_loop (distance_step distance_to v gl) fuel (initial_state v)
  = while_loop (distance_step distance_to v gl) (enough_fuel gl) (initial_state v).
Proof.
  apply (loop_more_fuel distance_to v gl (distance_visit distance_to v)
           (distance_commit distance_to v)
           (distance_visit_eligible distance_to v gl)
           (distance_commit_committed distance_to v)).
Qed.

Lemma optimize_route_never_cut_short (gl : list PerishableGoods) :
  optimize_route distance_to v gl <> OutOfFuel.
Proof.
  unfold optimize_route, optimize_route_fuel. destruct gl as [| g gl'].
  - discriminate.
  - apply bind_not_OutOfFuel; [| discriminate].
    rewrite <- (@enough_fuel_sorted urgency_before).
    apply greedy_loop_never_cut_short.
Qed.

Lemma optimize_route_more_fuel (gl : list PerishableGoods) (fuel : nat) :
  (enough_fuel gl <= fuel)%nat ->
  optimize_route_fuel distance_to fuel v gl = optimize_route distance_to v gl.
Proof.
  intros Hle. unfold optimize_route, optimize_route_fuel.
  destruct gl as [| g gl']; [reflexivity |].
  rewrite <- (@enough_fuel_sorted urgency_before) in *.
  rewrite (greedy_loop_more_fuel _ fuel Hle). reflexivity.
Qed.

Lemma _optimize_by_distance_never_cut_short (gl : list PerishableGoods) :
  _optimize_by_distance distance_to v gl <> OutOfFuel.
Proof.
  unfold _optimize_by_distance, _optimize_by_distance_fuel.
  apply bind_not_OutOfFuel; [| discriminate].
  apply distance_loop_never_cut_short.
Qed.

Lemma _optimize_by_distance_more_fuel (gl : list PerishableGoods) (fuel : nat) :
  (enough_fuel gl <= fuel)%nat ->
  _optimize_by_distance_fuel distance_to fuel v gl
  = _optimize_by_distance distance_to v gl.
Proof.
  intros Hle. unfold _optimize_by_distance, _optimize_by_distance_fuel.
  rewrite (distance_loop_more_fuel _ fuel Hle). reflexivity.
Qed.

Lemma _optimize_by_time_window_never_cut_short (gl : list PerishableGoods) :
  _optimize_by_time_window distance_to v gl <> OutOfFuel.
Proof. apply optimize_route_never_cut_short. Qed.

End BuilderFacts.

(* ================================================================== *)
(** * The claims *)

Lemma built_by_sound (distance_to : Location -> Location -> Q) (v : Vehicle)
      (gl : list PerishableGoods) (r : Route) :
  built_by distance_to v gl r -> sound_route gl r.
Proof.
  intros [H | [H | H]].
  - exact (optimize_route_sound distance_to v gl r H).
  - exact (_optimize_by_distance_sound distance_to v gl r H).
  - exact (_optimize_by_time_window_sound distance_to v gl r H).
Qed.

Lemma NoDup_ids_same (gl : list PerishableGoods) (g h : PerishableGoods) :
  NoDup (map goods_id gl) -> In g gl -> In h gl -> goods_id g = goods_id h ->
  g = h.
Proof.
  induction gl as [| x gl IH]; simpl; intros Hnd Hg Hh Hid; [contradiction |].
  inversion Hnd as [| ? ? Hx Hnd']; subst.
  destruct Hg as [-> | Hg]; destruct Hh as [-> | Hh].
  - reflexivity.
  - exfalso. apply Hx. rewrite Hid. apply in_map. exact Hh.
  - exfalso. apply Hx. rewrite <- Hid. apply in_map. exact Hg.
  - exact (IH Hnd' Hg Hh Hid).
Qed.

Lemma sound_route_items (gl : list PerishableGoods) (r : Route) :
  NoDup (map goods_id gl) -> sound_route gl r ->
  (forall i j si sj,
      nth_error (stops r) i = Some si -> nth_error (stops r) j = Some sj ->
      action si = action sj -> goods si = goods sj -> i = j)
  /\ (forall j sj,
         nth_error (stops r) j = Some sj -> action sj = "delivery" ->
         exists i si, (i < j)%nat /\ nth_error (stops r) i = Some si
                      /\ action si = "pickup" /\ goods si = goods sj).
Proof.
  intros Hnd S. split.
  - intros i j si sj Hi Hj Hact Hg.
    apply (sr_once _ _ S i j si sj Hi Hj Hact). unfold stop_id. congruence.
  - intros j sj Hj Hact.
    destruct (sr_order _ _ S j sj Hj Hact) as [i [si [Hlt [Hi [Ha Hid]]]]].
    exists i, si. repeat split; try assumption.
    apply (NoDup_ids_same gl); try assumption.
    + apply (sr_listed _ _ S). eapply nth_error_In; exact Hi.
    + apply (sr_listed _ _ S). eapply nth_error_In; exact Hj.
Qed.

(** C5.  For a goods list with pairwise-distinct ids, in every route
    returned by the greedy, the nearest-action or the deadline-ordered
    builder: every stop is a pickup or a delivery of a listed item; two
    stops of the same kind for the same item are the same stop (an item is
    picked up at most once and delivered at most once); and every delivery
    stop has a pickup stop of the same item strictly earlier. *)
Theorem pickup_once_delivery_once_in_order
        (distance_to : Location -> Location -> Q) (v : Vehicle)
        (gl : list PerishableGoods) (r : Route) :
  NoDup (map goods_id gl) ->
  built_by distance_to v gl r ->
  (forall s, In s (stops r) ->
             In (goods s) gl /\ (action s = "pickup" \/ action s = "delivery"))
  /\ (forall i j si sj,
         nth_error (stops r) i = Some si -> nth_error (stops r) j = Some sj ->
         action si = action sj -> goods si = goods sj -> i = j)
  /\ (forall j sj,
         nth_error (stops r) j = Some sj -> action sj = "delivery" ->
         exists i si, (i < j)%nat /\ nth_error (stops r) i = Some si
                      /\ action si = "pickup" /\ goods si = goods sj).
Proof.
  intros Hnd Hb. pose proof (built_by_sound _ _ _ _ Hb) as S.
  split.
  - intros s Hs. split; [exact (sr_listed _ _ S s Hs) | exact (sr_kind _ _ S s Hs)].
  - exact (sound_route_items gl r Hnd S).
Qed.

Lemma pickup_once_delivery_once_in_order_witness :
  (forall s, In s (stops one_crate_route) ->
             In (goods s) one_crate
             /\ (action s = "pickup" \/ action s = "delivery"))
  /\ (forall i j si sj,
         nth_error (stops one_crate_route) i = Some si ->
         nth_error (stops one_crate_route) j = Some sj ->
         action si = action sj -> goods si = goods sj -> i = j)
  /\ (forall j sj,
         nth_error (stops one_crate_route) j = Some sj -> action sj = "delivery" ->
         exists i si, (i < j)%nat /\ nth_error (stops one_crate_route) i = Some si
                      /\ action si = "pickup" /\ goods si = goods sj).
Proof.
  apply (pickup_once_delivery_once_in_order
           table_distance (van 100 40) one_crate one_crate_route).
  - simpl. constructor; [simpl; tauto | constructor].
  - left. vm_compute. reflexivity.
Defined.

Lemma sound_route_length (gl : list PerishableGoods) (r : Route) :
  sound_route gl r -> (List.length (stops r) <= 2 * List.length gl)%nat.
Proof.
  intros S. pose proof (sr_pickups _ _ S). pose proof (sr_deliveries _ _ S).
  rewrite <- (filter_length is_pickup (stops r)). lia.
Qed.

(** C7.  For a goods list of N items with pairwise-distinct ids the main
    loop of each builder terminates: the builders are never cut short and
    any larger iteration budget gives the same outcome; an iteration either
    leaves the loop or appends exactly one stop; and a returned route holds
    at most one pickup stop and at most one delivery stop per item, at most
    N pickup stops and N delivery stops, so at most 2N stops. *)
Theorem builders_terminate_within_2N
        (distance_to : Location -> Location -> Q) (v : Vehicle)
        (gl : list PerishableGoods) :
  NoDup (map goods_id gl) ->
  (optimize_route distance_to v gl <> OutOfFuel
   /\ _optimize_by_distance distance_to v gl <> OutOfFuel
   /\ _optimize_by_time_window distance_to v gl <> OutOfFuel)
  /\ (forall fuel, (enough_fuel gl <= fuel)%nat ->
        optimize_route_fuel distance_to fuel v gl = optimize_route distance_to v gl
        /\ _optimize_by_distance_fuel distance_to fuel v gl
           = _optimize_by_distance distance_to v gl)
  /\ (forall l st next,
         greedy_step distance_to v l st = Returns next
         \/ distance_step distance_to v l st = Returns next ->
         next = None
         \/ exists st' s, next = Some st'
                          /\ stops (route st') = (stops (route st) ++ [s])%list)
  /\ (forall r, built_by distance_to v gl r ->
        (forall i j si sj,
            nth_error (stops r) i = Some si -> nth_error (stops r) j = Some sj ->
            action si = action sj -> goods si = goods sj -> i = j)
        /\ (List.length (filter is_pickup (stops r)) <= List.length gl)%nat
        /\ (List.length (filter (fun s => negb (is_pickup s)) (stops r))
            <= List.length gl)%nat
        /\ (List.length (stops r) <= 2 * List.length gl)%nat).
Proof.
  intros Hnd. split; [| split; [| split]].
  - split; [apply optimize_route_never_cut_short |].
    split; [apply _optimize_by_distance_never_cut_short |].
    apply _optimize_by_time_window_never_cut_short.
  - intros fuel Hle. split.
    + apply optimize_route_more_fuel; exact Hle.
    + apply _optimize_by_distance_more_fuel; exact Hle.
  - intros l st [st' |] H; [right | left; reflexivity].
    destruct H as [H | H].
    + destruct (iteration_one_stop distance_to v l _ _
                  (greedy_visit_eligible distance_to v l)
                  (greedy_commit_committed distance_to v) st st' H) as [s Hs].
      exists st', s. split; [reflexivity | exact Hs].
    + destruct (iteration_one_stop distance_to v l _ _
                  (distance_visit_eligible distance_to v l)
                  (distance_commit_committed distance_to v) st st' H) as [s Hs].
      exists st', s. split; [reflexivity | exact Hs].
  - intros r Hb. pose proof (built_by_sound _ _ _ _ Hb) as S.
    split; [exact (proj1 (sound_route_items gl r Hnd S)) |].
    split; [exact (sr_pickups _ _ S) |].
    split; [exact (sr_deliveries _ _ S) | exact (sound_route_length gl r S)].
Qed.

Lemma builders_terminate_within_2N_witness :
  (List.length (stops one_crate_route) <= 2 * List.length one_crate)%nat.
Proof.
  assert (Hnd : NoDup (map goods_id one_crate)).
  { simpl. constructor; [simpl; tauto | constructor]. }
  apply (proj2 (proj2 (proj2
           (builders_terminate_within_2N table_distance (van 100 40) one_crate Hnd)))).
  left. vm_compute. reflexivity.
Defined.

(** ** C1: feasibility of the built routes *)

Lemma is_feasible_from_verdict (cap : Q) (ss : list RouteStop) :
  (forall s, In s ss -> action s = "pickup" \/ action s = "delivery") ->
  (forall s, In s ss -> action s = "delivery" -> on_time s) ->
  forall load,
    is_feasible_from cap load ss = (true, "Route is feasible")
    \/ exists s, In s ss /\ action s = "pickup"
                 /\ is_feasible_from cap load ss
                    = (false, "Capacity exceeded at " ++ loc_name (location s)).
Proof.
  induction ss as [| s ss IH]; intros Hkind Htime load; simpl.
  - left. reflexivity.
  - assert (IH' : forall load',
               is_feasible_from cap load' ss = (true, "Route is feasible")
               \/ exists s', In s' (s :: ss) /\ action s' = "pickup"
                     /\ is_feasible_from cap load' ss
                        = (false, "Capacity exceeded at " ++ loc_name (location s'))).
    { intros load'.
      destruct (IH (fun s' H => Hkind s' (or_intror H))
                   (fun s' H => Htime s' (or_intror H)) load')
        as [H | [s' [Hin [Ha H]]]]; [left; exact H |].
      right. exists s'. split; [right; exact Hin | split; assumption]. }
    destruct (String.eqb (action s) "pickup") eqn:E.
    + destruct (Qgt_bool _ cap).
      * right. exists s. split; [left; reflexivity |].
        split; [apply String.eqb_eq; exact E | reflexivity].
      * apply IH'.
    + assert (Ha : action s = "delivery").
      { destruct (Hkind s (or_introl eq_refl)) as [Ha | Ha]; [| exact Ha].
        rewrite Ha in E. discriminate E. }
      pose proof (Htime s (or_introl eq_refl) Ha) as Hon.
      unfold on_time in Hon. unfold Qgt_bool. rewrite Hon. simpl.
      apply IH'.
Qed.

(** C1 (amended).  In every route returned by one of the three builders no
    delivery stop is reached after its item's time-to-expiry, so the
    feasibility checker never reports an expired item: its verdict is
    either feasible or "Capacity exceeded" at one of the route's pickup
    stops (the builders do not look at the vehicle's capacity). *)
Theorem built_routes_deliver_on_time
        (distance_to : Location -> Location -> Q) (v : Vehicle)
        (gl : list PerishableGoods) (r : Route) :
  built_by distance_to v gl r ->
  (forall s, In s (stops r) -> action s = "delivery" ->
             arrival_time s <= inject_Z (time_to_expiry (goods s)))
  /\ (is_feasible r = (true, "Route is feasible")
      \/ exists s, In s (stops r) /\ action s = "pickup"
                   /\ is_feasible r
                      = (false, "Capacity exceeded at " ++ loc_name (location s))).
Proof.
  intros Hb. pose proof (built_by_sound _ _ _ _ Hb) as S. split.
  - intros s Hs Ha. apply Qle_bool_iff. exact (sr_on_time _ _ S s Hs Ha).
  - unfold is_feasible. apply is_feasible_from_verdict.
    + exact (sr_kind _ _ S).
    + exact (sr_on_time _ _ S).
Qed.

Lemma built_routes_deliver_on_time_witness :
  (forall s, In s (stops one_crate_route) -> action s = "delivery" ->
             arrival_time s <= inject_Z (time_to_expiry (goods s)))
  /\ (is_feasible one_crate_route = (true, "Route is feasible")
      \/ exists s, In s (stops one_crate_route) /\ action s = "pickup"
                   /\ is_feasible one_crate_route
                      = (false, "Capacity exceeded at " ++ loc_name (location s))).
Proof.
  apply (built_routes_deliver_on_time table_distance (van 100 40) one_crate
                                      one_crate_route).
  left. vm_compute. reflexivity.
Defined.

(** C1 as stated fails: with two crates of 60 units and a van of capacity
    100, each builder picks up both crates before any delivery, and the
    checker rejects the route. *)
Lemma built_route_over_capacity :
  exists r1 r2 r3,
    optimize_route table_distance (van 100 40) two_crates = Returns r1
    /\ _optimize_by_distance table_distance (van 100 40) two_crates = Returns r2
    /\ _optimize_by_time_window table_distance (van 100 40) two_crates = Returns r3
    /\ is_feasible r1 = (false, "Capacity exceeded at Depot A")
    /\ is_feasible r2 = (false, "Capacity exceeded at Depot A")
    /\ is_feasible r3 = (false, "Capacity exceeded at Depot A").
Proof.
  do 3 eexists.
  split; [vm_compute; reflexivity |].
  split; [vm_compute; reflexivity |].
  split; [vm_compute; reflexivity |].
  split; [vm_compute; reflexivity |].
  split; vm_compute; reflexivity.
Qed.

(** ** C2: the cached fields *)

Lemma built_routes_cache_delivered_and_time
      (distance_to : Location -> Location -> Q) (v : Vehicle)
      (gl : list PerishableGoods) (r : Route) :
  built_by distance_to v gl r ->
  goods_delivered r = recomputed_delivered (stops r)
  /\ total_time r = recomputed_time (stops r).
Proof.
  intros Hb. pose proof (built_by_sound _ _ _ _ Hb) as S.
  split; [exact (sr_cache _ _ S) | exact (sr_time _ _ S)].
Qed.

(** C2 (the code departs from it).  On the one-crate scenario (van at A,
    pickup at A, delivery at B, 20 km away) the greedy and the
    nearest-action builder both return the route pickup, delivery with
    [total_distance] 0, while the legs of that stop sequence add up to
    20 km. *)
Theorem total_distance_cache_is_stale :
  exists r1 r2,
    optimize_route table_distance (van 100 40) one_crate = Returns r1
    /\ _optimize_by_distance table_distance (van 100 40) one_crate = Returns r2
    /\ map action (stops r1) = ["pickup"; "delivery"]
    /\ map action (stops r2) = ["pickup"; "delivery"]
    /\ total_distance r1 == 0 /\ recomputed_distance table_distance r1 == 20
    /\ total_distance r2 == 0 /\ recomputed_distance table_distance r2 == 20.
Proof.
  do 2 eexists.
  split; [vm_compute; reflexivity |].
  split; [vm_compute; reflexivity |].
  repeat split; vm_compute; reflexivity.
Qed.

(** ** C4: the one-crate scenario *)

Lemma id_in_singleton (x : string) : id_in x [x] = true.
Proof.
  unfold id_in. simpl. destruct (string_dec x x); [reflexivity | contradiction].
Qed.

(** The greedy route for a single item that can be picked up and delivered
    in time: pickup, 15 minutes of service, delivery. *)
Lemma optimize_route_single (distance_to : Location -> Location -> Q)
      (v : Vehicle) (g : PerishableGoods) :
  let t1 := 0 + distance_to (current_location v) (pickup_location g) / speed v * 60 in
  let t2 := t1 + 15
            + distance_to (pickup_location g) (delivery_location g) / speed v * 60 in
  Qeq_bool (speed v) 0 = false ->
  Qle_bool t1 (inject_Z (snd (pickup_time_window g))) = true ->
  Qle_bool t2 (inject_Z (time_to_expiry g)) = true ->
  optimize_route distance_to v [g]
  = Returns (mkRoute v
               [new_stop (pickup_location g) "pickup" g t1;
                new_stop (delivery_location g) "delivery" g t2]
               (0 + distance_to (current_location v) (pickup_location g))
               (t2 + 15) [g]).
Proof.
  intros t1 t2 Hm H1 H2. subst t1 t2.
  unfold optimize_route, optimize_route_fuel, enough_fuel.
  change (sorted_by urgency_before [g]) with [g].
  change (2 * List.length [g] + 1)%nat with 3%nat.
  cbn [while_loop].
  assert (E1 : exists st1,
             greedy_step distance_to v [g] (initial_state v) = Returns (Some st1)
             /\ st1 = mkState
                  (add_distance
                     (add_stop (new_route v)
                        (new_stop (pickup_location g) "pickup" g
                           (0 + distance_to (current_location v) (pickup_location g)
                                / speed v * 60)))
                     (distance_to (current_location v) (pickup_location g)))
                  (pickup_location g)
                  (0 + distance_to (current_location v) (pickup_location g)
                       / speed v * 60 + 15)
                  [goods_id g] []).
  { eexists. split; [| reflexivity].
    unfold greedy_step, iteration. simpl.
    unfold greedy_visit. simpl. unfold travel_time. rewrite Hm. simpl. rewrite H1.
    unfold greedy_commit. simpl. unfold greedy_commit_pickup, travel_time.
    simpl. rewrite Hm. reflexivity. }
  destruct E1 as [st1 [E1 Hst1]]. rewrite E1. cbn [bind].
  assert (E2 : exists st2,
             greedy_step distance_to v [g] st1 = Returns (Some st2)
             /\ st2 = mkState
                  (add_delivered
                     (add_stop (route st1)
                        (new_stop (delivery_location g) "delivery" g
                           (current_time st1
                            + distance_to (pickup_location g) (delivery_location g)
                              / speed v * 60)))
                     g)
                  (delivery_location g)
                  (current_time st1
                   + distance_to (pickup_location g) (delivery_location g)
                     / speed v * 60 + 15)
                  [goods_id g] [goods_id g]).
  { eexists. split; [| reflexivity]. subst st1.
    unfold greedy_step, iteration. simpl.
    unfold greedy_visit. cbn [delivered picked_up].
    change (id_in (goods_id g) []) with false. rewrite id_in_singleton.
    cbn [negb cur_location current_time]. unfold travel_time. rewrite Hm.
    cbn [bind]. rewrite H2.
    unfold greedy_commit. simpl. unfold commit_delivery, travel_time.
    simpl. rewrite Hm. reflexivity. }
  destruct E2 as [st2 [E2 Hst2]]. rewrite E2. cbn [bind].
  assert (E3 : greedy_step distance_to v [g] st2 = Returns None).
  { subst st2. unfold greedy_step, iteration. reflexivity. }
  rewrite E3. cbn [bind]. subst st2 st1. reflexivity.
Qed.

(** C4 (amended).  Van of capacity 100 and speed 40 km/h at A; one item of
    quantity 30, pickup at A, delivery at B 20 km away, time-to-expiry 60,
    pickup window [0, 120].  The greedy builder returns a 2-stop route: the
    pickup at time 0, then - after the 15 minutes of pickup service and 30
    minutes of travel - the delivery at time 45; the route is feasible and
    the quantity delivered is 30. *)
Theorem one_crate_scenario
        (distance_to : Location -> Location -> Q) (A B : Location)
        (vid vname gid gname : string) (ty : GoodsType) (p : Z) :
  distance_to A A == 0 -> distance_to A B == 20 ->
  let v := mkVehicle vid vname 100 A 40 in
  let g := mkGoods gid gname ty 30 A B 60 p (0, 120)%Z in
  exists r s1 s2,
    optimize_route distance_to v [g] = Returns r
    /\ stops r = [s1; s2]
    /\ action s1 = "pickup" /\ goods s1 = g /\ location s1 = A
    /\ arrival_time s1 == 0
    /\ action s2 = "delivery" /\ goods s2 = g /\ location s2 = B
    /\ arrival_time s2 == 45
    /\ is_feasible r = (true, "Route is feasible")
    /\ total_goods_saved r == 30.
Proof.
  intros HAA HAB v g.
  assert (H1 : Qle_bool (0 + distance_to A A / 40 * 60) (inject_Z 120) = true).
  { apply Qle_bool_iff. rewrite HAA. vm_compute. discriminate. }
  assert (H2 : Qle_bool (0 + distance_to A A / 40 * 60 + 15
                         + distance_to A B / 40 * 60) (inject_Z 60) = true).
  { apply Qle_bool_iff. rewrite HAA, HAB. vm_compute. discriminate. }
  pose proof (optimize_route_single distance_to v g eq_refl H1 H2) as Hr.
  cbn [v g current_location pickup_location delivery_location speed] in Hr.
  eexists; eexists; eexists. split; [exact Hr |].
  split; [reflexivity |].
  cbn [stops action goods location arrival_time new_stop].
  split; [reflexivity |]. split; [reflexivity |]. split; [reflexivity |].
  split; [rewrite HAA; reflexivity |].
  split; [reflexivity |]. split; [reflexivity |]. split; [reflexivity |].
  split; [rewrite HAA, HAB; reflexivity |].
  split.
  - unfold is_feasible. cbn [stops vehicle capacity v is_feasible_from].
    cbn [action new_stop String.eqb Ascii.eqb Bool.eqb goods quantity g
         arrival_time time_to_expiry].
    change (Qgt_bool (0 + 30) 100) with false. cbn iota.
    unfold Qgt_bool. rewrite H2. reflexivity.
  - reflexivity.
Qed.

Lemma one_crate_scenario_witness :
  exists r s1 s2,
    optimize_route table_distance (van 100 40) one_crate = Returns r
    /\ stops r = [s1; s2]
    /\ action s1 = "pickup" /\ goods s1 = crate "g" 30 place_A place_B 60 (0, 120)%Z
    /\ location s1 = place_A
    /\ arrival_time s1 == 0
    /\ action s2 = "delivery"
    /\ goods s2 = crate "g" 30 place_A place_B 60 (0, 120)%Z
    /\ location s2 = place_B
    /\ arrival_time s2 == 45
    /\ is_feasible r = (true, "Route is feasible")
    /\ total_goods_saved r == 30.
Proof.
  apply (one_crate_scenario table_distance place_A place_B "V1" "Van" "g" "g"
                            FOOD 1).
  - vm_compute. reflexivity.
  - vm_compute. reflexivity.
Defined.

(** C4 as stated fails: on the scenario the delivery stop is reached at
    minute 45, a quarter of an hour after the minute 30 of the claim. *)
Lemma one_crate_delivery_at_45 :
  exists r s1 s2,
    optimize_route table_distance (van 100 40) one_crate = Returns r
    /\ stops r = [s1; s2]
    /\ action s2 = "delivery"
    /\ arrival_time s2 == 45
    /\ ~ (Qabs (arrival_time s2 - 30) < 15).
Proof.
  do 3 eexists.
  split; [vm_compute; reflexivity |].
  split; [reflexivity |].
  split; [reflexivity |].
  split; [vm_compute; reflexivity |].
  vm_compute. intros H. discriminate H.
Qed.

(** ** C9: the urgency score *)

Lemma time_factor_antitone (t t' : Z) :
  (t <= t')%Z ->
  1000 / inject_Z (Z.max t' 1) <= 1000 / inject_Z (Z.max t 1).
Proof.
  intros Hle.
  assert (Hx : 0 < inject_Z (Z.max t 1)).
  { change 0 with (inject_Z 0). rewrite <- Zlt_Qlt. lia. }
  assert (Hx' : 0 < inject_Z (Z.max t' 1)).
  { change 0 with (inject_Z 0). rewrite <- Zlt_Qlt. lia. }
  assert (Hxx : inject_Z (Z.max t 1) <= inject_Z (Z.max t' 1)).
  { rewrite <- Zle_Qle. lia. }
  apply Qle_shift_div_r; [exact Hx' |].
  apply Qle_trans with (1000 / inject_Z (Z.max t 1) * inject_Z (Z.max t 1)).
  - rewrite Qmult_comm, Qmult_div_r; [apply Qle_refl |].
    intros H0. rewrite H0 in Hx. exact (Qlt_irrefl 0 Hx).
  - apply Qmult_le_l; [| exact Hxx].
    apply Qlt_shift_div_l; [exact Hx |]. reflexivity.
Qed.

(** C9.  The urgency score is 1000 / max(time_to_expiry, 1) +
    (6 - priority) * 10; with the time-to-expiry fixed, a larger priority
    value never gives a larger score, and with the priority fixed a larger
    time-to-expiry never gives a larger score. *)
Theorem urgency_score_antitone (g g' : PerishableGoods) :
  urgency_score g
  == 1000 / inject_Z (Z.max (time_to_expiry g) 1)
     + (6 - inject_Z (priority g)) * 10
  /\ (time_to_expiry g = time_to_expiry g' -> (priority g <= priority g')%Z ->
      urgency_score g' <= urgency_score g)
  /\ (priority g = priority g' -> (time_to_expiry g <= time_to_expiry g')%Z ->
      urgency_score g' <= urgency_score g).
Proof.
  unfold urgency_score. split; [| split].
  - rewrite inject_Z_mult. unfold Z.sub.
    rewrite inject_Z_plus, inject_Z_opp. reflexivity.
  - intros Ht Hp. rewrite Ht. apply Qplus_le_r.
    rewrite <- Zle_Qle. lia.
  - intros Hp Ht. rewrite Hp. apply Qplus_le_l.
    apply time_factor_antitone. exact Ht.
Qed.

Lemma urgency_score_antitone_witness :
  urgency_score (mkGoods "x" "x" FOOD 1 place_A place_B 30 5 (0, 120)%Z)
  <= urgency_score (mkGoods "x" "x" FOOD 1 place_A place_B 30 1 (0, 120)%Z)
  /\ urgency_score (mkGoods "x" "x" FOOD 1 place_A place_B 90 1 (0, 120)%Z)
     <= urgency_score (mkGoods "x" "x" FOOD 1 place_A place_B 30 1 (0, 120)%Z).
Proof.
  split.
  - apply (proj1 (proj2 (urgency_score_antitone
             (mkGoods "x" "x" FOOD 1 place_A place_B 30 1 (0, 120)%Z)
             (mkGoods "x" "x" FOOD 1 place_A place_B 30 5 (0, 120)%Z)))).
    + reflexivity.
    + simpl. lia.
  - apply (proj2 (proj2 (urgency_score_antitone
             (mkGoods "x" "x" FOOD 1 place_A place_B 30 1 (0, 120)%Z)
             (mkGoods "x" "x" FOOD 1 place_A place_B 90 1 (0, 120)%Z)))).
    + reflexivity.
    + simpl. lia.
Defined.

(** ** C8: the replacement rule of the nearest-action builder *)

(** C8.  In a scan of the nearest-action builder, an item that is not yet
    delivered is a candidate under the same conditions as in the greedy
    builder, whatever the current best: a pickup whose arrival is after
    the close of its window, and a delivery whose arrival is after its
    time to expiry, leave the current best of either scan as it is.  An
    eligible pickup candidate replaces a current best [b] of the
    nearest-action scan exactly when its distance is strictly below the
    current minimum; an eligible delivery candidate replaces it exactly
    when its distance is below the current minimum minus 1 km.  In the
    greedy scan an eligible candidate replaces [b] exactly when its score
    is strictly above the best score.  Without a current best an eligible
    candidate is taken by both scans. *)
Theorem nearest_action_replacement_rule
        (distance_to : Location -> Location -> Q) (v : Vehicle)
        (st : plan_state) (b : candidate) (g : PerishableGoods) :
  Qeq_bool (speed v) 0 = false ->
  id_in (goods_id g) (delivered st) = false ->
  let to_pickup := distance_to (cur_location st) (pickup_location g) in
  let to_delivery := distance_to (cur_location st) (delivery_location g) in
  let pickup_score := urgency_score g - to_pickup / speed v * 60 * (1 # 2) in
  let delivery_score :=
    urgency_score g + 50 - to_delivery / speed v * 60 * (3 # 10) in
  (id_in (goods_id g) (picked_up st) = false ->
   current_time st + to_pickup / speed v * 60
   <= inject_Z (snd (pickup_time_window g)) ->
   (to_pickup < best_score b ->
    distance_visit distance_to v st (Some b) g
    = Returns (Some (mkCandidate to_pickup "pickup" g)))
   /\ (~ to_pickup < best_score b ->
       distance_visit distance_to v st (Some b) g = Returns (Some b)))
  /\ (id_in (goods_id g) (picked_up st) = true ->
      current_time st + to_delivery / speed v * 60
      <= inject_Z (time_to_expiry g) ->
      (to_delivery < best_score b - 1 ->
       distance_visit distance_to v st (Some b) g
       = Returns (Some (mkCandidate to_delivery "delivery" g)))
      /\ (~ to_delivery < best_score b - 1 ->
          distance_visit distance_to v st (Some b) g = Returns (Some b)))
  /\ outcome_map (option_map decision) (distance_visit distance_to v st None g)
     = outcome_map (option_map decision) (greedy_visit distance_to v st None g)
  /\ (id_in (goods_id g) (picked_up st) = false ->
      ~ current_time st + to_pickup / speed v * 60
        <= inject_Z (snd (pickup_time_window g)) ->
      forall best : option candidate,
        distance_visit distance_to v st best g = Returns best
        /\ greedy_visit distance_to v st best g = Returns best)
  /\ (id_in (goods_id g) (picked_up st) = true ->
      ~ current_time st + to_delivery / speed v * 60
        <= inject_Z (time_to_expiry g) ->
      forall best : option candidate,
        distance_visit distance_to v st best g = Returns best
        /\ greedy_visit distance_to v st best g = Returns best)
  /\ (id_in (goods_id g) (picked_up st) = false ->
      current_time st + to_pickup / speed v * 60
      <= inject_Z (snd (pickup_time_window g)) ->
      distance_visit distance_to v st None g
      = Returns (Some (mkCandidate to_pickup "pickup" g))
      /\ greedy_visit distance_to v st None g
         = Returns (Some (mkCandidate pickup_score "pickup" g))
      /\ (best_score b < pickup_score ->
          greedy_visit distance_to v st (Some b) g
          = Returns (Some (mkCandidate pickup_score "pickup" g)))
      /\ (~ best_score b < pickup_score ->
          greedy_visit distance_to v st (Some b) g = Returns (Some b)))
  /\ (id_in (goods_id g) (picked_up st) = true ->
      current_time st + to_delivery / speed v * 60
      <= inject_Z (time_to_expiry g) ->
      distance_visit distance_to v st None g
      = Returns (Some (mkCandidate to_delivery "delivery" g))
      /\ greedy_visit distance_to v st None g
         = Returns (Some (mkCandidate delivery_score "delivery" g))
      /\ (best_score b < delivery_score ->
          greedy_visit distance_to v st (Some b) g
          = Returns (Some (mkCandidate delivery_score "delivery" g)))
      /\ (~ best_score b < delivery_score ->
          greedy_visit distance_to v st (Some b) g = Returns (Some b))).
Proof.
  intros Hm Hd to_pickup to_delivery pickup_score delivery_score.
  split; [| split; [| split; [| split; [| split; [| split]]]]].
  - intros Hp Hw. apply Qle_bool_iff in Hw.
    unfold distance_visit. rewrite Hd, Hp, Hm. cbn [negb].
    fold to_pickup. rewrite Hw. split; intros Hlt.
    + apply Qlt_bool_iff in Hlt. rewrite Hlt. reflexivity.
    + destruct (Qlt_bool to_pickup (best_score b)) eqn:E; [| reflexivity].
      apply Qlt_bool_iff in E. contradiction.
  - intros Hp Hw. apply Qle_bool_iff in Hw.
    unfold distance_visit. rewrite Hd, Hp, Hm. cbn [negb].
    fold to_delivery. rewrite Hw. split; intros Hlt.
    + apply Qlt_bool_iff in Hlt. rewrite Hlt. reflexivity.
    + destruct (Qlt_bool to_delivery (best_score b - 1)) eqn:E; [| reflexivity].
      apply Qlt_bool_iff in E. contradiction.
  - unfold distance_visit, greedy_visit, travel_time. rewrite Hd, Hm.
    destruct (id_in (goods_id g) (picked_up st)); cbn [negb bind];
      match goal with
      | |- context [if ?c then _ else _] => destruct c
      end; reflexivity.
  - intros Hp Hw best.
    assert (E : Qle_bool (current_time st + to_pickup / speed v * 60)
                         (inject_Z (snd (pickup_time_window g))) = false).
    { destruct (Qle_bool _ _) eqn:E; [| reflexivity].
      apply Qle_bool_iff in E. contradiction. }
    unfold distance_visit, greedy_visit, travel_time.
    rewrite Hd, Hp, Hm. cbn [negb bind]. fold to_pickup. rewrite E.
    split; reflexivity.
  - intros Hp Hw best.
    assert (E : Qle_bool (current_time st + to_delivery / speed v * 60)
                         (inject_Z (time_to_expiry g)) = false).
    { destruct (Qle_bool _ _) eqn:E; [| reflexivity].
      apply Qle_bool_iff in E. contradiction. }
    unfold distance_visit, greedy_visit, travel_time.
    rewrite Hd, Hp, Hm. cbn [negb bind]. fold to_delivery. rewrite E.
    split; reflexivity.
  - intros Hp Hw. apply Qle_bool_iff in Hw.
    unfold distance_visit, greedy_visit, travel_time.
    rewrite Hd, Hp, Hm. cbn [negb bind]. fold to_pickup. rewrite Hw.
    fold pickup_score.
    split; [reflexivity |]. split; [reflexivity |]. split; intros Hlt.
    + apply Qgt_bool_iff in Hlt. rewrite Hlt. reflexivity.
    + destruct (Qgt_bool pickup_score (best_score b)) eqn:E; [| reflexivity].
      apply Qgt_bool_iff in E. contradiction.
  - intros Hp Hw. apply Qle_bool_iff in Hw.
    unfold distance_visit, greedy_visit, travel_time.
    rewrite Hd, Hp, Hm. cbn [negb bind]. fold to_delivery. rewrite Hw.
    fold delivery_score.
    split; [reflexivity |]. split; [reflexivity |]. split; intros Hlt.
    + apply Qgt_bool_iff in Hlt. rewrite Hlt. reflexivity.
    + destruct (Qgt_bool delivery_score (best_score b)) eqn:E; [| reflexivity].
      apply Qgt_bool_iff in E. contradiction.
Qed.

Lemma nearest_action_replacement_rule_witness :
  distance_visit table_distance (van 100 40)
                 (mkState (new_route (van 100 40)) place_A 0 ["g"] [])
                 (Some (mkCandidate (41 # 2) "pickup"
                                    (crate "h" 1 place_B place_A 600 (0, 120)%Z)))
                 (crate "g" 30 place_A place_B 600 (0, 120)%Z)
  = Returns (Some (mkCandidate (41 # 2) "pickup"
                               (crate "h" 1 place_B place_A 600 (0, 120)%Z))).
Proof.
  refine (proj2 (proj1 (proj2 (nearest_action_replacement_rule
            table_distance (van 100 40)
            (mkState (new_route (van 100 40)) place_A 0 ["g"] [])
            (mkCandidate (41 # 2) "pickup"
                         (crate "h" 1 place_B place_A 600 (0, 120)%Z))
            (crate "g" 30 place_A place_B 600 (0, 120)%Z)
            eq_refl eq_refl)) eq_refl _) _).
  - vm_compute. discriminate.
  - vm_compute. intros H. discriminate H.
Defined.

(** ** C10: the open bound of the pickup window *)

Lemma insert_by_map {A : Type} (f : A -> A) (before : A -> A -> bool) :
  (forall x y, before (f x) (f y) = before x y) ->
  forall x l, insert_by before (f x) (map f l) = map f (insert_by before x l).
Proof.
  intros Hf x l. induction l as [| y l IH]; simpl; [reflexivity |].
  rewrite Hf. destruct (before x y); simpl; [reflexivity |].
  rewrite IH. reflexivity.
Qed.

Lemma sorted_by_map {A : Type} (f : A -> A) (before : A -> A -> bool) :
  (forall x y, before (f x) (f y) = before x y) ->
  forall l, sorted_by before (map f l) = map f (sorted_by before l).
Proof.
  intros Hf l. unfold sorted_by.
  change (@nil A) with (map f []) at 1. generalize (@nil A) as acc.
  induction l as [| x l IH]; simpl; intros acc; [reflexivity |].
  rewrite (insert_by_map f before Hf). apply IH.
Qed.

Lemma for_each_map {A S : Type} (f : A -> A) (h : S -> S)
      (body body' : S -> A -> outcome S) :
  (forall s x, body' (h s) (f x) = outcome_map h (body s x)) ->
  forall xs s, for_each body' (map f xs) (h s) = outcome_map h (for_each body xs s).
Proof.
  intros Hb xs. induction xs as [| x xs IH]; simpl; intros s; [reflexivity |].
  rewrite Hb. destruct (body s x) as [s1 | e |]; simpl; [apply IH | | ]; reflexivity.
Qed.

Section Reopen.

Variable distance_to : Location -> Location -> Q.
Variable v : Vehicle.
Variable o : PerishableGoods -> Z.

Lemma greedy_visit_reopen st best g :
  greedy_visit distance_to v (reopen_state o st)
               (option_map (reopen_candidate o) best) (reopen o g)
  = outcome_map (option_map (reopen_candidate o))
                (greedy_visit distance_to v st best g).
Proof.
  unfold greedy_visit, travel_time. cbn [reopen_state reopen delivered picked_up
    cur_location current_time goods_id pickup_location delivery_location
    pickup_time_window time_to_expiry snd].
  change (urgency_score (reopen o g)) with (urgency_score g).
  destruct (id_in (goods_id g) (delivered st)); [reflexivity |].
  destruct (id_in (goods_id g) (picked_up st)); cbn [negb];
    (destruct (Qeq_bool (speed v) 0); [reflexivity |]); cbn [bind];
    match goal with
    | |- context [if Qle_bool ?a ?b then _ else _] => destruct (Qle_bool a b)
    end; try reflexivity;
    destruct best as [b |]; cbn [option_map reopen_candidate best_score];
    try reflexivity;
    match goal with
    | |- context [if Qgt_bool ?a ?b then _ else _] => destruct (Qgt_bool a b)
    end; reflexivity.
Qed.

Lemma distance_visit_reopen st best g :
  distance_visit distance_to v (reopen_state o st)
                 (option_map (reopen_candidate o) best) (reopen o g)
  = outcome_map (option_map (reopen_candidate o))
                (distance_visit distance_to v st best g).
Proof.
  unfold distance_visit. cbn [reopen_state reopen delivered picked_up
    cur_location current_time goods_id pickup_location delivery_location
    pickup_time_window time_to_expiry snd].
  destruct (id_in (goods_id g) (delivered st)); [reflexivity |].
  destruct (id_in (goods_id g) (picked_up st)); cbn [negb];
    (destruct (Qeq_bool (speed v) 0); [reflexivity |]);
    match goal with
    | |- context [if Qle_bool ?a ?b then _ else _] => destruct (Qle_bool a b)
    end; try reflexivity;
    destruct best as [b |]; cbn [option_map reopen_candidate best_score];
    try reflexivity;
    match goal with
    | |- context [if Qlt_bool ?a ?b then _ else _] => destruct (Qlt_bool a b)
    end; reflexivity.
Qed.

Lemma greedy_commit_reopen st c :
  greedy_commit distance_to v (reopen_state o st) (reopen_candidate o c)
  = outcome_map (reopen_state o) (greedy_commit distance_to v st c).
Proof.
  unfold greedy_commit, greedy_commit_pickup, commit_delivery, travel_time.
  cbn [reopen_candidate best_action best_goods reopen_state cur_location
       reopen pickup_location delivery_location].
  destruct (String.eqb (best_action c) "pickup");
    (destruct (Qeq_bool (speed v) 0); [reflexivity |]); cbn [bind outcome_map];
    unfold reopen_state, reopen_route, add_stop, add_distance, add_delivered;
    simpl; rewrite ?map_app, ?length_app, ?length_map; reflexivity.
Qed.

Lemma distance_commit_reopen st c :
  distance_commit distance_to v (reopen_state o st) (reopen_candidate o c)
  = outcome_map (reopen_state o) (distance_commit distance_to v st c).
Proof.
  unfold distance_commit, distance_commit_pickup, commit_delivery, travel_time.
  cbn [reopen_candidate best_action best_goods reopen_state cur_location
       reopen pickup_location delivery_location].
  destruct (String.eqb (best_action c) "pickup");
    (destruct (Qeq_bool (speed v) 0); [reflexivity |]); cbn [bind outcome_map];
    unfold reopen_state, reopen_route, add_stop, add_distance, add_delivered;
    simpl; rewrite ?map_app; reflexivity.
Qed.

Lemma iteration_reopen visit commit gl st :
  (forall st best g,
      visit (reopen_state o st) (option_map (reopen_candidate o) best) (reopen o g)
      = outcome_map (option_map (reopen_candidate o)) (visit st best g)) ->
  (forall st c,
      commit (reopen_state o st) (reopen_candidate o c)
      = outcome_map (reopen_state o) (commit st c)) ->
  iteration visit commit (map (reopen o) gl) (reopen_state o st)
  = outcome_map (option_map (reopen_state o)) (iteration visit commit gl st).
Proof.
  intros Hv Hc. unfold iteration. rewrite length_map.
  cbn [reopen_state delivered].
  destruct (Nat.ltb _ _); [| reflexivity].
  change (@None candidate) with (option_map (reopen_candidate o) None) at 1.
  rewrite (for_each_map (reopen o) (option_map (reopen_candidate o))
                        (visit st) (visit (reopen_state o st)) (Hv st)).
  destruct (for_each (visit st) gl None) as [[c |] | e |]; simpl; try reflexivity.
  rewrite Hc. destruct (commit st c); reflexivity.
Qed.

Lemma while_loop_reopen step step' :
  (forall st, step' (reopen_state o st)
              = outcome_map (option_map (reopen_state o)) (step st)) ->
  forall fuel st,
    while_loop step' fuel (reopen_state o st)
    = outcome_map (reopen_state o) (while_loop step fuel st).
Proof.
  intros Hs fuel. induction fuel as [| fuel IH]; intros st; [reflexivity |].
  simpl. rewrite Hs. destruct (step st) as [[st' |] | e |]; simpl; try reflexivity.
  apply IH.
Qed.

Lemma optimize_route_reopen gl :
  optimize_route distance_to v (map (reopen o) gl)
  = outcome_map (reopen_route o) (optimize_route distance_to v gl).
Proof.
  unfold optimize_route, optimize_route_fuel, enough_fuel. rewrite length_map.
  destruct gl as [| g gl']; [reflexivity |].
  change (map (reopen o) (g :: gl')) with (reopen o g :: map (reopen o) gl').
  change (reopen o g :: map (reopen o) gl') with (map (reopen o) (g :: gl')).
  rewrite (sorted_by_map (reopen o) urgency_before (fun x y => eq_refl)).
  change (initial_state v) with (reopen_state o (initial_state v)) at 1.
  unfold greedy_step.
  rewrite (while_loop_reopen
             (iteration (greedy_visit distance_to v) (greedy_commit distance_to v)
                        (sorted_by urgency_before (g :: gl')))
             (iteration (greedy_visit distance_to v) (greedy_commit distance_to v)
                        (map (reopen o) (sorted_by urgency_before (g :: gl'))))).
  - destruct (while_loop _ _ _); reflexivity.
  - intros st. apply iteration_reopen;
      [apply greedy_visit_reopen | apply greedy_commit_reopen].
Qed.

Lemma _optimize_by_distance_reopen gl :
  _optimize_by_distance distance_to v (map (reopen o) gl)
  = outcome_map (reopen_route o) (_optimize_by_distance distance_to v gl).
Proof.
  unfold _optimize_by_distance, _optimize_by_distance_fuel, enough_fuel.
  rewrite length_map.
  change (initial_state v) with (reopen_state o (initial_state v)) at 1.
  unfold distance_step.
  rewrite (while_loop_reopen
             (iteration (distance_visit distance_to v)
                        (distance_commit distance_to v) gl)
             (iteration (distance_visit distance_to v)
                        (distance_commit distance_to v) (map (reopen o) gl))).
  - destruct (while_loop _ _ _); reflexivity.
  - intros st. apply iteration_reopen;
      [apply distance_visit_reopen | apply distance_commit_reopen].
Qed.

End Reopen.

(** C10.  The greedy and the nearest-action builder never read the open
    bound of a pickup window: giving the items any other open bounds leaves
    the outcome the same, stop for stop, up to those bounds.  So a pickup
    can be committed before its window opens: for a crate at the van's
    place with window [60, 120], both builders commit the pickup at
    minute 0. *)
Theorem pickup_window_open_bound_ignored :
  (forall distance_to v (o : PerishableGoods -> Z) gl,
      optimize_route distance_to v (map (reopen o) gl)
      = outcome_map (reopen_route o) (optimize_route distance_to v gl)
      /\ _optimize_by_distance distance_to v (map (reopen o) gl)
         = outcome_map (reopen_route o) (_optimize_by_distance distance_to v gl))
  /\ exists r1 r2 s1 s2,
      optimize_route table_distance (van 100 40) late_window_crate = Returns r1
      /\ _optimize_by_distance table_distance (van 100 40) late_window_crate
         = Returns r2
      /\ nth_error (stops r1) 0 = Some s1 /\ nth_error (stops r2) 0 = Some s2
      /\ action s1 = "pickup" /\ action s2 = "pickup"
      /\ arrival_time s1 < inject_Z (fst (pickup_time_window (goods s1)))
      /\ arrival_time s2 < inject_Z (fst (pickup_time_window (goods s2))).
Proof.
  split.
  - intros distance_to v o gl. split.
    + apply optimize_route_reopen.
    + apply _optimize_by_distance_reopen.
  - do 4 eexists.
    split; [vm_compute; reflexivity |].
    split; [vm_compute; reflexivity |].
    split; [reflexivity |]. split; [reflexivity |].
    split; [reflexivity |]. split; [reflexivity |].
    split; vm_compute; reflexivity.
Qed.

(** ** C3: the fields that make an input malformed *)

Section Unread.

Variable distance_to : Location -> Location -> Q.
Variable v : Vehicle.
Variable c : Q.
Variable q : PerishableGoods -> Q.
Variable o : PerishableGoods -> Z.

Lemma greedy_visit_relabel st best g :
  greedy_visit distance_to (with_capacity c v) (relabel_state c q o st)
               (option_map (relabel_candidate q o) best) (relabel q o g)
  = outcome_map (option_map (relabel_candidate q o))
                (greedy_visit distance_to v st best g).
Proof.
  unfold greedy_visit, travel_time.
  cbn [relabel_state relabel with_capacity speed delivered picked_up
       cur_location current_time goods_id pickup_location delivery_location
       pickup_time_window time_to_expiry snd].
  change (urgency_score (relabel q o g)) with (urgency_score g).
  destruct (id_in (goods_id g) (delivered st)); [reflexivity |].
  destruct (id_in (goods_id g) (picked_up st)); cbn [negb];
    (destruct (Qeq_bool (speed v) 0); [reflexivity |]); cbn [bind];
    match goal with
    | |- context [if Qle_bool ?a ?b then _ else _] => destruct (Qle_bool a b)
    end; try reflexivity;
    destruct best as [b |]; cbn [option_map relabel_candidate best_score];
    try reflexivity;
    match goal with
    | |- context [if Qgt_bool ?a ?b then _ else _] => destruct (Qgt_bool a b)
    end; reflexivity.
Qed.

Lemma distance_visit_relabel st best g :
  distance_visit distance_to (with_capacity c v) (relabel_state c q o st)
                 (option_map (relabel_candidate q o) best) (relabel q o g)
  = outcome_map (option_map (relabel_candidate q o))
                (distance_visit distance_to v st best g).
Proof.
  unfold distance_visit.
  cbn [relabel_state relabel with_capacity speed delivered picked_up
       cur_location current_time goods_id pickup_location delivery_location
       pickup_time_window time_to_expiry snd].
  destruct (id_in (goods_id g) (delivered st)); [reflexivity |].
  destruct (id_in (goods_id g) (picked_up st)); cbn [negb];
    (destruct (Qeq_bool (speed v) 0); [reflexivity |]);
    match goal with
    | |- context [if Qle_bool ?a ?b then _ else _] => destruct (Qle_bool a b)
    end; try reflexivity;
    destruct best as [b |]; cbn [option_map relabel_candidate best_score];
    try reflexivity;
    match goal with
    | |- context [if Qlt_bool ?a ?b then _ else _] => destruct (Qlt_bool a b)
    end; reflexivity.
Qed.

Lemma greedy_commit_relabel st c0 :
  greedy_commit distance_to (with_capacity c v) (relabel_state c q o st)
                (relabel_candidate q o c0)
  = outcome_map (relabel_state c q o) (greedy_commit distance_to v st c0).
Proof.
  unfold greedy_commit, greedy_commit_pickup, commit_delivery, travel_time.
  cbn [relabel_candidate best_action best_goods relabel_state cur_location
       relabel pickup_location delivery_location with_capacity speed
       current_location].
  destruct (String.eqb (best_action c0) "pickup");
    (destruct (Qeq_bool (speed v) 0); [reflexivity |]); cbn [bind outcome_map];
    unfold relabel_state, relabel_route, add_stop, add_distance, add_delivered;
    simpl; rewrite ?map_app, ?length_app, ?length_map; reflexivity.
Qed.

Lemma distance_commit_relabel st c0 :
  distance_commit distance_to (with_capacity c v) (relabel_state c q o st)
                  (relabel_candidate q o c0)
  = outcome_map (relabel_state c q o) (distance_commit distance_to v st c0).
Proof.
  unfold distance_commit, distance_commit_pickup, commit_delivery, travel_time.
  cbn [relabel_candidate best_action best_goods relabel_state cur_location
       relabel pickup_location delivery_location with_capacity speed
       current_location].
  destruct (String.eqb (best_action c0) "pickup");
    (destruct (Qeq_bool (speed v) 0); [reflexivity |]); cbn [bind outcome_map];
    unfold relabel_state, relabel_route, add_stop, add_distance, add_delivered;
    simpl; rewrite ?map_app; reflexivity.
Qed.

Lemma iteration_relabel visit visit' commit commit' gl st :
  (forall st best g,
      visit' (relabel_state c q o st) (option_map (relabel_candidate q o) best)
             (relabel q o g)
      = outcome_map (option_map (relabel_candidate q o)) (visit st best g)) ->
  (forall st c0,
      commit' (relabel_state c q o st) (relabel_candidate q o c0)
      = outcome_map (relabel_state c q o) (commit st c0)) ->
  iteration visit' commit' (map (relabel q o) gl) (relabel_state c q o st)
  = outcome_map (option_map (relabel_state c q o)) (iteration visit commit gl st).
Proof.
  intros Hv Hc. unfold iteration. rewrite length_map.
  cbn [relabel_state delivered].
  destruct (Nat.ltb _ _); [| reflexivity].
  change (@None candidate) with (option_map (relabel_candidate q o) None) at 1.
  rewrite (for_each_map (relabel q o) (option_map (relabel_candidate q o))
                        (visit st) (visit' (relabel_state c q o st)) (Hv st)).
  destruct (for_each (visit st) gl None) as [[c0 |] | e |]; simpl; try reflexivity.
  rewrite Hc. destruct (commit st c0); reflexivity.
Qed.

Lemma while_loop_relabel step step' :
  (forall st, step' (relabel_state c q o st)
              = outcome_map (option_map (relabel_state c q o)) (step st)) ->
  forall fuel st,
    while_loop step' fuel (relabel_state c q o st)
    = outcome_map (relabel_state c q o) (while_loop step fuel st).
Proof.
  intros Hs fuel. induction fuel as [| fuel IH]; intros st; [reflexivity |].
  simpl. rewrite Hs. destruct (step st) as [[st' |] | e |]; simpl; try reflexivity.
  apply IH.
Qed.

Lemma optimize_route_relabel gl :
  optimize_route distance_to (with_capacity c v) (map (relabel q o) gl)
  = outcome_map (relabel_route c q o) (optimize_route distance_to v gl).
Proof.
  unfold optimize_route, optimize_route_fuel, enough_fuel. rewrite length_map.
  destruct gl as [| g gl']; [reflexivity |].
  change (map (relabel q o) (g :: gl'))
    with (relabel q o g :: map (relabel q o) gl').
  change (relabel q o g :: map (relabel q o) gl')
    with (map (relabel q o) (g :: gl')).
  rewrite (sorted_by_map (relabel q o) urgency_before (fun x y => eq_refl)).
  change (initial_state (with_capacity c v))
    with (relabel_state c q o (initial_state v)).
  unfold greedy_step.
  rewrite (while_loop_relabel
             (iteration (greedy_visit distance_to v) (greedy_commit distance_to v)
                        (sorted_by urgency_before (g :: gl')))
             (iteration (greedy_visit distance_to (with_capacity c v))
                        (greedy_commit distance_to (with_capacity c v))
                        (map (relabel q o) (sorted_by urgency_before (g :: gl'))))).
  - destruct (while_loop _ _ _); reflexivity.
  - intros st. apply iteration_relabel;
      [apply greedy_visit_relabel | apply greedy_commit_relabel].
Qed.

Lemma _optimize_by_distance_relabel gl :
  _optimize_by_distance distance_to (with_capacity c v) (map (relabel q o) gl)
  = outcome_map (relabel_route c q o) (_optimize_by_distance distance_to v gl).
Proof.
  unfold _optimize_by_distance, _optimize_by_distance_fuel, enough_fuel.
  rewrite length_map.
  change (initial_state (with_capacity c v))
    with (relabel_state c q o (initial_state v)).
  unfold distance_step.
  rewrite (while_loop_relabel
             (iteration (distance_visit distance_to v)
                        (distance_commit distance_to v) gl)
             (iteration (distance_visit distance_to (with_capacity c v))
                        (distance_commit distance_to (with_capacity c v))
                        (map (relabel q o) gl))).
  - destruct (while_loop _ _ _); reflexivity.
  - intros st. apply iteration_relabel;
      [apply distance_visit_relabel | apply distance_commit_relabel].
Qed.

Lemma _optimize_by_time_window_relabel gl :
  _optimize_by_time_window distance_to (with_capacity c v) (map (relabel q o) gl)
  = outcome_map (relabel_route c q o) (_optimize_by_time_window distance_to v gl).
Proof.
  unfold _optimize_by_time_window.
  rewrite (sorted_by_map (relabel q o) deadline_before (fun x y => eq_refl)).
  apply optimize_route_relabel.
Qed.

End Unread.

(** C3 (amended).  The planner has no input validation.  No builder reads
    the vehicle's capacity, an item's quantity or the open bound of its
    pickup window: giving the vehicle any other capacity and the items any
    other quantities and open bounds leaves the outcome of each builder the
    same, stop for stop, up to those fields - so an input that is
    malformed in them is planned exactly as its well-formed counterpart.
    The vehicle is not examined before planning either: for an empty goods
    list every vehicle, whatever its capacity and speed, gets the empty
    route, and the selector returns no route. *)
Theorem malformed_fields_are_never_read
        (distance_to : Location -> Location -> Q) (v : Vehicle)
        (gl : list PerishableGoods) (c : Q) (q : PerishableGoods -> Q)
        (o : PerishableGoods -> Z) (k : Z) :
  optimize_route distance_to (with_capacity c v) (map (relabel q o) gl)
  = outcome_map (relabel_route c q o) (optimize_route distance_to v gl)
  /\ _optimize_by_distance distance_to (with_capacity c v) (map (relabel q o) gl)
     = outcome_map (relabel_route c q o) (_optimize_by_distance distance_to v gl)
  /\ _optimize_by_time_window distance_to (with_capacity c v)
                              (map (relabel q o) gl)
     = outcome_map (relabel_route c q o)
                   (_optimize_by_time_window distance_to v gl)
  /\ optimize_route distance_to v [] = Returns (new_route v)
  /\ _optimize_by_distance distance_to v [] = Returns (new_route v)
  /\ _optimize_by_time_window distance_to v [] = Returns (new_route v)
  /\ find_k_shortest_routes distance_to v [] k = Returns [].
Proof.
  split; [apply optimize_route_relabel |].
  split; [apply _optimize_by_distance_relabel |].
  split; [apply _optimize_by_time_window_relabel |].
  split; [reflexivity |]. split; [reflexivity |]. split; [reflexivity |].
  unfold find_k_shortest_routes.
  change (optimize_route distance_to v []) with (Returns (new_route v)).
  change (_optimize_by_distance distance_to v []) with (Returns (new_route v)).
  change (_optimize_by_time_window distance_to v []) with (Returns (new_route v)).
  cbn [bind new_route stops is_empty negb andb sorted_by fold_left].
  unfold slice_to. destruct (0 <=? k)%Z; [rewrite firstn_nil |]; reflexivity.
Qed.

(** C3 as stated fails: a van of capacity 0 and negative speed and a crate
    of quantity 0 whose window closes before it opens are planned like any
    other input, by each builder and by the selector. *)
Lemma malformed_input_is_planned :
  malformed_vehicle (van 0 (-40)) /\ Forall malformed_goods odd_crate
  /\ exists r1 r2 r3 rs,
      optimize_route table_distance (van 0 (-40)) odd_crate = Returns r1
      /\ _optimize_by_distance table_distance (van 0 (-40)) odd_crate = Returns r2
      /\ _optimize_by_time_window table_distance (van 0 (-40)) odd_crate
         = Returns r3
      /\ find_k_shortest_routes table_distance (van 0 (-40)) odd_crate 3
         = Returns rs
      /\ map action (stops r1) = ["pickup"; "delivery"]
      /\ map action (stops r2) = ["pickup"; "delivery"]
      /\ map action (stops r3) = ["pickup"; "delivery"]
      /\ List.length rs = 1%nat.
Proof.
  split; [left; vm_compute; discriminate |].
  split; [repeat constructor; vm_compute; discriminate |].
  do 4 eexists.
  split; [vm_compute; reflexivity |].
  split; [vm_compute; reflexivity |].
  split; [vm_compute; reflexivity |].
  split; [vm_compute; reflexivity |].
  repeat split; vm_compute; reflexivity.
Qed.

(** ** C6: the ensemble selector *)

Lemma rank_before_iff (y x : Route) :
  rank_before y x = true
  <-> total_goods_saved x < total_goods_saved y
      \/ (total_goods_saved y == total_goods_saved x /\ total_time y < total_time x).
Proof.
  unfold rank_before. rewrite orb_true_iff, andb_true_iff.
  rewrite !Qgt_bool_iff, Qeq_bool_iff.
  split; intros [H | [H1 H2]]; [left; exact H | right | left; exact H | right];
    (split; [exact H1 | lra]).
Qed.

Lemma rank_before_asym (x y : Route) :
  rank_before x y = true -> rank_before y x = false.
Proof.
  intros H. destruct (rank_before y x) eqn:E; [| reflexivity].
  apply rank_before_iff in H. apply rank_before_iff in E. exfalso.
  destruct H as [H | [H1 H2]]; destruct E as [E | [E1 E2]]; lra.
Qed.

Lemma rank_before_trans (x y z : Route) :
  rank_before x y = true -> rank_before y z = true -> rank_before x z = true.
Proof.
  intros H1 H2. apply rank_before_iff in H1. apply rank_before_iff in H2.
  apply rank_before_iff.
  destruct H1 as [H1 | [H1 H1']]; destruct H2 as [H2 | [H2 H2']];
    [left | left | left | right; split]; lra.
Qed.

Lemma rank_before_false (y x : Route) :
  rank_before y x = false -> ranks_no_lower x y.
Proof.
  intros H. unfold ranks_no_lower.
  assert (Hn : ~ (total_goods_saved x < total_goods_saved y
                  \/ (total_goods_saved y == total_goods_saved x
                      /\ total_time y < total_time x))).
  { intros Hc. apply rank_before_iff in Hc. congruence. }
  split.
  - apply Qnot_lt_le. intros Hlt. apply Hn. left. exact Hlt.
  - intros Heq. apply Qnot_lt_le. intros Hlt. apply Hn. right.
    split; [symmetry; exact Heq | exact Hlt].
Qed.

Lemma insert_by_rank_sorted (x : Route) (l : list Route) :
  StronglySorted (fun a b => rank_before b a = false) l ->
  StronglySorted (fun a b => rank_before b a = false) (insert_by rank_before x l).
Proof.
  induction l as [| y l IH]; simpl; intros Hs.
  - constructor; [constructor | constructor].
  - inversion Hs as [| ? ? Hs' Hall]; subst.
    destruct (rank_before x y) eqn:E.
    + constructor; [exact Hs |]. constructor.
      * apply rank_before_asym. exact E.
      * rewrite Forall_forall in *. intros z Hz.
        destruct (rank_before z x) eqn:Ez; [| reflexivity].
        pose proof (rank_before_trans z x y Ez E) as Hzy.
        rewrite (Hall z Hz) in Hzy. discriminate Hzy.
    + constructor; [apply IH; exact Hs' |].
      rewrite Forall_forall in *. intros z Hz.
      apply (Permutation_in _ (Permutation_sym (insert_by_perm rank_before x l)))
        in Hz.
      destruct Hz as [<- | Hz]; [exact E | exact (Hall z Hz)].
Qed.

Lemma sorted_by_rank_sorted (l : list Route) :
  StronglySorted (fun a b => rank_before b a = false) (sorted_by rank_before l).
Proof.
  unfold sorted_by.
  assert (G : forall acc,
             StronglySorted (fun a b => rank_before b a = false) acc ->
             StronglySorted (fun a b => rank_before b a = false)
               (fold_left (fun acc x => insert_by rank_before x acc) l acc)).
  { induction l as [| x l IH]; simpl; intros acc Hs; [exact Hs |].
    apply IH. apply insert_by_rank_sorted. exact Hs. }
  apply G. constructor.
Qed.

Lemma In_firstn {A : Type} (n : nat) (l : list A) (x : A) :
  In x (firstn n l) -> In x l.
Proof.
  revert l. induction n as [| n IH]; intros [| y l]; simpl; try tauto.
  intros [H | H]; [left; exact H | right; apply IH; exact H].
Qed.

Lemma StronglySorted_firstn {A : Type} (R : A -> A -> Prop) (n : nat) (l : list A) :
  StronglySorted R l -> StronglySorted R (firstn n l).
Proof.
  revert l. induction n as [| n IH]; intros l Hs; simpl; [constructor |].
  destruct l as [| x l]; [constructor |].
  inversion Hs as [| ? ? Hs' Hall]; subst.
  constructor; [apply IH; exact Hs' |].
  rewrite Forall_forall in *. intros z Hz. apply Hall.
  eapply In_firstn; exact Hz.
Qed.

Lemma StronglySorted_weaken {A : Type} (R R' : A -> A -> Prop) (l : list A) :
  (forall a b, R a b -> R' a b) -> StronglySorted R l -> StronglySorted R' l.
Proof.
  intros HR Hs. induction Hs as [| x l Hs IH Hall]; constructor; [exact IH |].
  rewrite Forall_forall in *. intros z Hz. apply HR, Hall, Hz.
Qed.

(** The parts of the selector's contract that hold: for a count [k >= 0]
    at most [k] routes are returned, none of them empty, ordered by
    quantity delivered (descending), then by elapsed time (ascending). *)
Lemma selector_bounded_nonempty_ranked
      (distance_to : Location -> Location -> Q) (v : Vehicle)
      (gl : list PerishableGoods) (k : Z) (rs : list Route) :
  (0 <= k)%Z ->
  find_k_shortest_routes distance_to v gl k = Returns rs ->
  (Z.of_nat (List.length rs) <= k)%Z
  /\ (List.length rs <= 3)%nat
  /\ (forall r, In r rs -> stops r <> [])
  /\ StronglySorted ranks_no_lower rs.
Proof.
  intros Hk H. unfold find_k_shortest_routes in H.
  apply bind_Returns in H. destruct H as [r1 [_ H]].
  apply bind_Returns in H. destruct H as [r2 [_ H]].
  apply bind_Returns in H. destruct H as [r3 [_ H]].
  inversion H as [Hrs]. clear H.
  set (l1 := if negb (is_empty (stops r1)) then [r1] else []) in *.
  set (l2 := if negb (is_empty (stops r2)) && negb (Route_eqb r2 r1)
             then (l1 ++ [r2])%list else l1) in *.
  set (l3 := if negb (is_empty (stops r3))
                && negb (existsb (fun r => Route_eqb r r3) l2)
             then (l2 ++ [r3])%list else l2) in *.
  assert (N1 : forall r, In r l1 -> stops r <> []).
  { intros r. subst l1. destruct (stops r1) eqn:E; simpl; [intros [] |].
    intros [<- | []]. rewrite E. discriminate. }
  assert (L1 : (List.length l1 <= 1)%nat).
  { subst l1. destruct (is_empty (stops r1)); simpl; lia. }
  assert (N2 : forall r, In r l2 -> stops r <> []).
  { intros r. subst l2. destruct (stops r2) eqn:E; simpl; [apply N1 |].
    destruct (negb (Route_eqb r2 r1)); [| apply N1].
    intros Hin. apply in_app_or in Hin. destruct Hin as [Hin | [<- | []]];
      [apply N1; exact Hin | rewrite E; discriminate]. }
  assert (L2 : (List.length l2 <= 2)%nat).
  { subst l2.
    destruct (negb (is_empty (stops r2)) && negb (Route_eqb r2 r1));
      [rewrite length_app; simpl |]; lia. }
  assert (N3 : forall r, In r l3 -> stops r <> []).
  { intros r. subst l3. destruct (stops r3) eqn:E; simpl; [apply N2 |].
    destruct (negb (existsb _ l2)); [| apply N2].
    intros Hin. apply in_app_or in Hin. destruct Hin as [Hin | [<- | []]];
      [apply N2; exact Hin | rewrite E; discriminate]. }
  assert (L3 : (List.length l3 <= 3)%nat).
  { subst l3.
    destruct (negb (is_empty (stops r3))
              && negb (existsb (fun r => Route_eqb r r3) l2));
      [rewrite length_app; simpl |]; lia. }
  assert (Hslice : slice_to k (sorted_by rank_before l3)
                   = firstn (Z.to_nat k) (sorted_by rank_before l3)).
  { unfold slice_to. destruct (0 <=? k)%Z eqn:E; [reflexivity | lia]. }
  rewrite Hslice.
  split; [| split; [| split]].
  - pose proof (firstn_le_length (Z.to_nat k)
                                  (sorted_by rank_before l3)). 
    pose proof (length_firstn (Z.to_nat k) (sorted_by rank_before l3)). lia.
  - rewrite length_firstn, sorted_by_length. lia.
  - intros r Hin. apply In_firstn in Hin. apply sorted_by_In in Hin.
    apply N3. exact Hin.
  - apply StronglySorted_firstn.
    apply (StronglySorted_weaken (fun a b => rank_before b a = false)).
    + intros a b. apply rank_before_false.
    + apply sorted_by_rank_sorted.
Qed.

(** C6 (the code departs from it).  Van at A, one crate to fetch at B, 20 km
    away.  The greedy and the nearest-action builder return the same stop
    sequence, but the greedy route carries [total_distance] 20 and the
    nearest-action route 0, so the comparison of whole routes does not see
    a duplicate and the selector returns both. *)
Theorem selector_returns_same_stops_twice :
  exists r1 r2,
    find_k_shortest_routes table_distance (van 100 40) far_crate 3
    = Returns [r1; r2]
    /\ optimize_route table_distance (van 100 40) far_crate = Returns r1
    /\ _optimize_by_distance table_distance (van 100 40) far_crate = Returns r2
    /\ stops r1 = stops r2
    /\ map action (stops r1) = ["pickup"; "delivery"]
    /\ total_distance r1 == 20 /\ total_distance r2 == 0.
Proof.
  do 2 eexists.
  split; [vm_compute; reflexivity |].
  split; [vm_compute; reflexivity |].
  split; [vm_compute; reflexivity |].
  split; [reflexivity |].
  split; [reflexivity |].
  split; vm_compute; reflexivity.
Qed.

(* ================================================================== *)
(** * Further properties of the planner *)

(** ** Replaying a stop sequence *)

Lemma end_location_snoc (start : Location) (ss : list RouteStop) (s : RouteStop) :
  end_location start (ss ++ [s]) = location s.
Proof. unfold end_location. rewrite map_app. simpl. apply last_last. Qed.

Lemma end_clock_snoc (clock : Q) (ss : list RouteStop) (s : RouteStop) :
  end_clock clock (ss ++ [s]) = arrival_time s + estimated_duration s.
Proof. unfold end_clock. rewrite map_app. simpl. apply last_last. Qed.

Lemma last_cons_default {A : Type} (l : list A) (x d : A) :
  last (x :: l) d = last l x.
Proof.
  revert x d. induction l as [| y l IH]; intros x d; [reflexivity |].
  change (last (x :: y :: l) d) with (last (y :: l) d).
  rewrite (IH y d), (IH y x). reflexivity.
Qed.

Lemma end_location_cons (start : Location) (s : RouteStop) (ss : list RouteStop) :
  end_location start (s :: ss) = end_location (location s) ss.
Proof. unfold end_location. simpl map. apply last_cons_default. Qed.

Lemma end_clock_cons (clock : Q) (s : RouteStop) (ss : list RouteStop) :
  end_clock clock (s :: ss)
  = end_clock (arrival_time s + estimated_duration s) ss.
Proof. unfold end_clock. simpl map. apply last_cons_default. Qed.

Lemma timetable_snoc (distance_to : Location -> Location -> Q) (spd : Q)
      (ss : list RouteStop) (s : RouteStop) :
  forall from clock,
    timetable distance_to spd from clock ss ->
    arrival_time s
    = end_clock clock ss + distance_to (end_location from ss) (location s) / spd * 60 ->
    estimated_duration s = 15 ->
    timetable distance_to spd from clock (ss ++ [s]).
Proof.
  induction ss as [| x ss IH]; intros from clock Ht Ha Hd.
  - simpl. auto.
  - destruct Ht as [Hx [Hdx Ht]]. simpl. split; [exact Hx |]. split; [exact Hdx |].
    apply IH; [exact Ht | | exact Hd].
    rewrite end_clock_cons, end_location_cons in Ha. exact Ha.
Qed.

(** ** What the loops keep besides [well_formed] *)

Lemma NoDup_snoc {A : Type} (l : list A) (x : A) :
  NoDup l -> ~ In x l -> NoDup (l ++ [x]).
Proof.
  intros Hl Hx. apply (Permutation_NoDup (Permutation_cons_append l x)).
  constructor; assumption.
Qed.

Lemma id_add_nodup (x : string) (s : id_set) : NoDup s -> NoDup (id_add x s).
Proof. apply set_add_nodup. Qed.

Lemma in_stop_ids (p : RouteStop -> bool) (ss : list RouteStop) (x : string) :
  In x (map stop_id (filter p ss)) ->
  exists s, In s ss /\ p s = true /\ stop_id s = x.
Proof.
  intros H. apply in_map_iff in H. destruct H as [s [Hid Hs]].
  apply filter_In in Hs. destruct Hs as [Hs Hp]. exists s. auto.
Qed.

Section TrackedFacts.

Variable distance_to : Location -> Location -> Q.
Variable v : Vehicle.
Variable gl : list PerishableGoods.

Lemma greedy_visit_in_window (st : plan_state) (best best' : option candidate)
      (g : PerishableGoods) :
  all_in_window distance_to v st best ->
  greedy_visit distance_to v st best g = Returns best' ->
  all_in_window distance_to v st best'.
Proof.
  unfold greedy_visit. intros Hbest H.
  destruct (id_in (goods_id g) (delivered st)).
  { inversion H; subst; exact Hbest. }
  destruct (id_in (goods_id g) (picked_up st)); simpl in H;
    apply bind_Returns in H; destruct H as [t [Ht H]];
    apply travel_time_Returns in Ht; destruct Ht as [_ ->].
  - destruct (Qle_bool _ _) in H.
    + destruct (match best with None => true | Some b => _ end) in H;
        inversion H; subst; [| exact Hbest].
      intros c Hc; inversion Hc; subst. intros Ha. discriminate Ha.
    + inversion H; subst; exact Hbest.
  - destruct (Qle_bool _ _) eqn:Ea in H.
    + destruct (match best with None => true | Some b => _ end) in H;
        inversion H; subst; [| exact Hbest].
      intros c Hc; inversion Hc; subst. intros _. exact Ea.
    + inversion H; subst; exact Hbest.
Qed.

Lemma distance_visit_in_window (st : plan_state) (best best' : option candidate)
      (g : PerishableGoods) :
  all_in_window distance_to v st best ->
  distance_visit distance_to v st best g = Returns best' ->
  all_in_window distance_to v st best'.
Proof.
  unfold distance_visit. intros Hbest H.
  destruct (id_in (goods_id g) (delivered st)).
  { inversion H; subst; exact Hbest. }
  destruct (id_in (goods_id g) (picked_up st)); simpl in H;
    (destruct (Qeq_bool (speed v) 0); [discriminate |]).
  - destruct (Qle_bool _ _) in H.
    + destruct (match best with None => true | Some b => _ end) in H;
        inversion H; subst; [| exact Hbest].
      intros c Hc; inversion Hc; subst. intros Ha. discriminate Ha.
    + inversion H; subst; exact Hbest.
  - destruct (Qle_bool _ _) eqn:Ea in H.
    + destruct (match best with None => true | Some b => _ end) in H;
        inversion H; subst; [| exact Hbest].
      intros c Hc; inversion Hc; subst. intros _. exact Ea.
    + inversion H; subst; exact Hbest.
Qed.

Lemma committed_tracked (st st' : plan_state) (c : candidate) :
  well_formed gl st -> tracked distance_to v st ->
  eligible distance_to v gl st c -> in_window distance_to v st c ->
  committed distance_to v st c st' -> tracked distance_to v st'.
Proof.
  intros W T He Hw Hc. pose proof He as [Hin [Hd _]].
  unfold committed in Hc.
  destruct (eligible_kind _ _ _ _ _ He) as [[E [Ha Hp]] | [E [Ha [Hp Ht]]]];
    rewrite E in Hc;
    destruct Hc as [Hv [Hs [Hg [Hl [Hc [Hpk Hdl]]]]]].
  - (* pickup *)
    specialize (Hw Ha).
    constructor; rewrite ?Hs, ?Hpk, ?Hdl, ?Hl, ?Hc.
    + rewrite Hv. exact (tr_vehicle _ _ _ T).
    + intros s Hs'. apply in_app_or in Hs'. destruct Hs' as [Hs' | [<- | []]].
      * exact (tr_place _ _ _ T s Hs').
      * left. split; reflexivity.
    + intros s Hs' Hact. apply in_app_or in Hs'. destruct Hs' as [Hs' | [<- | []]].
      * exact (tr_window _ _ _ T s Hs' Hact).
      * exact Hw.
    + apply timetable_snoc; [exact (tr_timetable _ _ _ T) | | reflexivity].
      rewrite <- (tr_now _ _ _ T), <- (tr_here _ _ _ T). reflexivity.
    + rewrite end_location_snoc. reflexivity.
    + rewrite end_clock_snoc. reflexivity.
    + intros x Hx. destruct (tr_dropped _ _ _ T x Hx) as [s [Hs' Hrest]].
      exists s. split; [apply in_or_app; left; exact Hs' | exact Hrest].
    + apply id_add_nodup. exact (tr_picked_nodup _ _ _ T).
    + exact (tr_delivered_nodup _ _ _ T).
    + rewrite filter_app, map_app. simpl. apply NoDup_snoc.
      * exact (tr_pickups_nodup _ _ _ T).
      * intros Hx. apply in_stop_ids in Hx. destruct Hx as [s [Hs' [Hps Hid]]].
        pose proof (wf_picked _ _ W s Hs' (proj1 (String.eqb_eq _ _) Hps)) as Hc'.
        rewrite Hid in Hc'. unfold stop_id in Hc'. simpl in Hc'. congruence.
    + rewrite filter_app, map_app. simpl. rewrite app_nil_r.
      exact (tr_deliveries_nodup _ _ _ T).
  - (* delivery *)
    constructor; rewrite ?Hs, ?Hpk, ?Hdl, ?Hl, ?Hc.
    + rewrite Hv. exact (tr_vehicle _ _ _ T).
    + intros s Hs'. apply in_app_or in Hs'. destruct Hs' as [Hs' | [<- | []]].
      * exact (tr_place _ _ _ T s Hs').
      * right. split; reflexivity.
    + intros s Hs' Hact. apply in_app_or in Hs'. destruct Hs' as [Hs' | [<- | []]].
      * exact (tr_window _ _ _ T s Hs' Hact).
      * discriminate Hact.
    + apply timetable_snoc; [exact (tr_timetable _ _ _ T) | | reflexivity].
      rewrite <- (tr_now _ _ _ T), <- (tr_here _ _ _ T). reflexivity.
    + rewrite end_location_snoc. reflexivity.
    + rewrite end_clock_snoc. reflexivity.
    + intros x Hx. apply id_in_add_inv in Hx. destruct Hx as [-> | Hx].
      * eexists. split; [apply in_or_app; right; left; reflexivity |].
        split; reflexivity.
      * destruct (tr_dropped _ _ _ T x Hx) as [s [Hs' Hrest]].
        exists s. split; [apply in_or_app; left; exact Hs' | exact Hrest].
    + exact (tr_picked_nodup _ _ _ T).
    + apply id_add_nodup. exact (tr_delivered_nodup _ _ _ T).
    + rewrite filter_app, map_app. simpl. rewrite app_nil_r.
      exact (tr_pickups_nodup _ _ _ T).
    + rewrite filter_app, map_app. simpl. apply NoDup_snoc.
      * exact (tr_deliveries_nodup _ _ _ T).
      * intros Hx. apply in_stop_ids in Hx. destruct Hx as [s [Hs' [Hps Hid]]].
        assert (Hact : action s = "delivery").
        { destruct (wf_kind _ _ W s Hs') as [Hk | Hk]; [| exact Hk].
          unfold is_pickup in Hps. rewrite Hk in Hps. discriminate Hps. }
        pose proof (wf_delivered _ _ W s Hs' Hact) as Hc'.
        rewrite Hid in Hc'. unfold stop_id in Hc'. simpl in Hc'. congruence.
Qed.

Lemma initial_state_tracked : tracked distance_to v (initial_state v).
Proof.
  constructor; simpl; try (intros; contradiction); try reflexivity;
    try constructor.
  intros x Hx. discriminate Hx.
Qed.

End TrackedFacts.

(** ** The state a builder ends in *)

Lemma while_loop_exit (step : plan_state -> outcome (option plan_state)) :
  forall fuel st r, while_loop step fuel st = Returns r -> step r = Returns None.
Proof.
  induction fuel as [| fuel IH]; intros st r H; [discriminate H |].
  simpl in H. destruct (step st) as [[st' |] | e |] eqn:E; simpl in H;
    try discriminate H.
  - exact (IH st' r H).
  - inversion H; subst. exact E.
Qed.

Section FinalState.

Variable distance_to : Location -> Location -> Q.
Variable v : Vehicle.
Variable gl : list PerishableGoods.
Variable visit : plan_state -> option candidate -> PerishableGoods
                 -> outcome (option candidate).
Variable commit : plan_state -> candidate -> outcome plan_state.

Hypothesis visit_eligible :
  forall st best best' g,
    all_eligible distance_to v gl st best -> In g gl ->
    visit st best g = Returns best' -> all_eligible distance_to v gl st best'.
Hypothesis visit_in_window :
  forall st best best' g,
    all_in_window distance_to v st best ->
    visit st best g = Returns best' -> all_in_window distance_to v st best'.
Hypothesis commit_committed :
  forall st st' c, commit st c = Returns st' -> committed distance_to v st c st'.

Lemma iteration_commits_in_window (st st' : plan_state) :
  iteration visit commit gl st = Returns (Some st') ->
  exists c, eligible distance_to v gl st c /\ in_window distance_to v st c
            /\ committed distance_to v st c st'.
Proof.
  unfold iteration. destruct (Nat.ltb _ _); [| discriminate].
  intros H. apply bind_Returns in H. destruct H as [best [Hscan H]].
  destruct best as [c |]; [| discriminate].
  apply bind_Returns in H. destruct H as [st1 [Hcommit H]].
  inversion H; subst. exists c.
  assert (Hall : all_eligible distance_to v gl st (Some c)
                 /\ all_in_window distance_to v st (Some c)).
  { apply (for_each_invariant
             (fun best => all_eligible distance_to v gl st best
                          /\ all_in_window distance_to v st best)
             (fun g => In g gl) (visit st)) with (xs := gl) (s := None).
    - intros s x s' [H1 H2] Hx Hv. split.
      + exact (visit_eligible st s s' x H1 Hx Hv).
      + exact (visit_in_window st s s' x H2 Hv).
    - apply Forall_forall. auto.
    - split; intros c' Hc'; discriminate Hc'.
    - exact Hscan. }
  destruct Hall as [H1 H2].
  split; [apply H1; reflexivity |].
  split; [apply H2; reflexivity | apply commit_committed; exact Hcommit].
Qed.

Lemma loop_final_state (fuel : nat) (st : plan_state) :
  while_loop (iteration visit commit gl) fuel (initial_state v) = Returns st ->
  well_formed gl st /\ tracked distance_to v st
  /\ iteration visit commit gl st = Returns None.
Proof.
  intros H.
  assert (HP : well_formed gl st /\ tracked distance_to v st).
  { apply (while_loop_invariant (iteration visit commit gl)
             (fun s => well_formed gl s /\ tracked distance_to v s))
      with (fuel := fuel) (st := initial_state v).
    - intros s s' [W T] Hs.
      destruct (iteration_commits_in_window s s' Hs) as [c [He [Hw Hc]]].
      split.
      + exact (committed_well_formed distance_to v gl s s' c W He Hc).
      + exact (committed_tracked distance_to v gl s s' c W T He Hw Hc).
    - split; [apply initial_state_well_formed | apply initial_state_tracked].
    - exact H. }
  destruct HP as [W T]. split; [exact W |]. split; [exact T |].
  exact (while_loop_exit _ fuel _ st H).
Qed.

End FinalState.

(** Every built route is the finished final state of one of the two loops,
    run on a reordering of the goods list, and that state leaves the loop. *)
Lemma built_by_final (distance_to : Location -> Location -> Q) (v : Vehicle)
      (gl : list PerishableGoods) (r : Route) :
  built_by distance_to v gl r ->
  exists gl' st,
    Permutation gl gl' /\ well_formed gl' st /\ tracked distance_to v st
    /\ r = finish st
    /\ (greedy_step distance_to v gl' st = Returns None
        \/ distance_step distance_to v gl' st = Returns None).
Proof.
  assert (G : forall l r0,
             optimize_route distance_to v l = Returns r0 ->
             exists gl' st,
               Permutation l gl' /\ well_formed gl' st /\ tracked distance_to v st
               /\ r0 = finish st
               /\ (greedy_step distance_to v gl' st = Returns None
                   \/ distance_step distance_to v gl' st = Returns None)).
  { intros l r0 H. unfold optimize_route, optimize_route_fuel in H.
    destruct l as [| g l'].
    - inversion H; subst. exists [], (initial_state v).
      split; [constructor |].
      split; [apply initial_state_well_formed |].
      split; [apply initial_state_tracked |].
      split; [reflexivity | left; reflexivity].
    - apply bind_Returns in H. destruct H as [st [Hloop H]]. inversion H; subst.
      destruct (loop_final_state distance_to v _ _ _
                  (greedy_visit_eligible distance_to v _)
                  (greedy_visit_in_window distance_to v)
                  (greedy_commit_committed distance_to v) _ st Hloop)
        as [W [T Hexit]].
      exists (sorted_by urgency_before (g :: l')), st.
      split; [apply sorted_by_perm |]. auto. }
  intros [H | [H | H]].
  - exact (G gl r H).
  - unfold _optimize_by_distance, _optimize_by_distance_fuel in H.
    apply bind_Returns in H. destruct H as [st [Hloop H]]. inversion H; subst.
    destruct (loop_final_state distance_to v _ _ _
                (distance_visit_eligible distance_to v _)
                (distance_visit_in_window distance_to v)
                (distance_commit_committed distance_to v) _ st Hloop)
      as [W [T Hexit]].
    exists gl, st. split; [apply Permutation_refl |]. auto.
  - unfold _optimize_by_time_window in H.
    destruct (G _ r H) as [gl' [st [Hp Hrest]]].
    exists gl', st. split; [| exact Hrest].
    eapply perm_trans; [apply sorted_by_perm | exact Hp].
Qed.

Lemma tracked_scheduled (distance_to : Location -> Location -> Q) (v : Vehicle)
      (st : plan_state) :
  tracked distance_to v st -> scheduled distance_to v (finish st).
Proof.
  intros T. constructor; simpl.
  - exact (tr_vehicle _ _ _ T).
  - exact (tr_place _ _ _ T).
  - exact (tr_window _ _ _ T).
  - exact (tr_timetable _ _ _ T).
  - exact (tr_now _ _ _ T).
  - exact (tr_pickups_nodup _ _ _ T).
  - exact (tr_deliveries_nodup _ _ _ T).
Qed.

Lemma built_by_scheduled (distance_to : Location -> Location -> Q) (v : Vehicle)
      (gl : list PerishableGoods) (r : Route) :
  built_by distance_to v gl r -> scheduled distance_to v r.
Proof.
  intros Hb. destruct (built_by_final _ _ _ _ Hb) as [gl' [st [_ [_ [T [-> _]]]]]].
  apply tracked_scheduled. exact T.
Qed.

(** ** The feasibility checker on any route *)

Lemma is_feasible_from_true (cap : Q) (ss : list RouteStop) :
  forall load,
    fst (is_feasible_from cap load ss) = true
    <-> forall n s, nth_error ss n = Some s -> stop_passes cap load ss n s.
Proof.
  induction ss as [| x ss IH]; intros load.
  - simpl. split; [| reflexivity]. intros _ n s H. destruct n; discriminate H.
  - cbn [is_feasible_from]. fold (is_pickup x).
    split.
    + intros H n s Hn. unfold stop_passes.
      destruct n as [| n].
      * inversion Hn; subst s. cbn [firstn load_from fold_left].
        destruct (is_pickup x).
        -- destruct (Qgt_bool (load + quantity (goods x)) cap) eqn:E;
             [discriminate H |]. apply Qgt_bool_false_iff. exact E.
        -- destruct (Qgt_bool (arrival_time x) _) eqn:E; [discriminate H |].
           apply Qgt_bool_false_iff. exact E.
      * simpl in Hn.
        assert (Hrest : fst (is_feasible_from cap
                               (if is_pickup x then load + quantity (goods x)
                                else load - quantity (goods x)) ss) = true).
        { destruct (is_pickup x).
          - destruct (Qgt_bool _ cap); [discriminate H | exact H].
          - destruct (Qgt_bool _ _); [discriminate H | exact H]. }
        exact (proj1 (IH _) Hrest n s Hn).
    + intros H.
      pose proof (H 0%nat x eq_refl) as H0. unfold stop_passes in H0.
      cbn [firstn load_from fold_left] in H0.
      assert (Hrest : fst (is_feasible_from cap
                             (if is_pickup x then load + quantity (goods x)
                              else load - quantity (goods x)) ss) = true).
      { apply IH. intros n s Hn. exact (H (S n) s Hn). }
      destruct (is_pickup x).
      * apply Qgt_bool_false_iff in H0. rewrite H0. exact Hrest.
      * apply Qgt_bool_false_iff in H0. rewrite H0. exact Hrest.
Qed.

Lemma is_feasible_from_message (cap : Q) (ss : list RouteStop) :
  forall load,
    fst (is_feasible_from cap load ss) = true ->
    is_feasible_from cap load ss = (true, "Route is feasible").
Proof.
  induction ss as [| x ss IH]; intros load; [reflexivity |].
  cbn [is_feasible_from].
  destruct (String.eqb (action x) "pickup").
  - destruct (Qgt_bool _ cap); [discriminate | apply IH].
  - destruct (Qgt_bool _ _); [discriminate | apply IH].
Qed.

Lemma is_feasible_from_first_failure (cap : Q) (ss : list RouteStop) :
  forall load,
    fst (is_feasible_from cap load ss) = false ->
    exists n s,
      nth_error ss n = Some s
      /\ (forall m s', (m < n)%nat -> nth_error ss m = Some s' ->
                       stop_passes cap load ss m s')
      /\ ((is_pickup s = true /\ cap < load_from load (firstn (S n) ss)
           /\ snd (is_feasible_from cap load ss)
              = "Capacity exceeded at " ++ loc_name (location s))
          \/ (is_pickup s = false
              /\ inject_Z (time_to_expiry (goods s)) < arrival_time s
              /\ snd (is_feasible_from cap load ss)
                 = goods_name (goods s) ++ " expired before delivery")).
Proof.
  induction ss as [| x ss IH]; intros load H; [discriminate H |].
  cbn [is_feasible_from] in *. fold (is_pickup x) in *.
  assert (Hstep : forall load',
             load' = (if is_pickup x then load + quantity (goods x)
                      else load - quantity (goods x)) ->
             stop_passes cap load (x :: ss) 0 x ->
             fst (is_feasible_from cap load' ss) = false ->
             exists n s,
               nth_error (x :: ss) n = Some s
               /\ (forall m s', (m < n)%nat -> nth_error (x :: ss) m = Some s' ->
                                stop_passes cap load (x :: ss) m s')
               /\ ((is_pickup s = true
                    /\ cap < load_from load (firstn (S n) (x :: ss))
                    /\ snd (is_feasible_from cap load' ss)
                       = "Capacity exceeded at " ++ loc_name (location s))
                   \/ (is_pickup s = false
                       /\ inject_Z (time_to_expiry (goods s)) < arrival_time s
                       /\ snd (is_feasible_from cap load' ss)
                          = goods_name (goods s) ++ " expired before delivery"))).
  { intros load' Hl Hx Hf. destruct (IH load' Hf) as [n [s [Hn [Hbefore Hfail]]]].
    exists (S n), s. split; [exact Hn |]. split.
    - intros m s' Hm Hs'. destruct m as [| m].
      + inversion Hs'; subst s'. exact Hx.
      + simpl in Hs'. pose proof (Hbefore m s' ltac:(lia) Hs') as Hp.
        unfold stop_passes in *. cbn [firstn load_from fold_left].
        rewrite <- Hl. exact Hp.
    - unfold load_from in *. cbn [firstn fold_left]. rewrite <- Hl. exact Hfail. }
  destruct (is_pickup x) eqn:Ep.
  - destruct (Qgt_bool (load + quantity (goods x)) cap) eqn:E.
    + exists 0%nat, x. split; [reflexivity |]. split; [intros m s' Hm; lia |].
      left. split; [exact Ep |]. split; [| reflexivity].
      unfold load_from. cbn [firstn fold_left]. rewrite Ep.
      apply Qgt_bool_iff. exact E.
    + apply (Hstep _ eq_refl); [| exact H].
      unfold stop_passes, load_from. rewrite Ep. cbn [firstn fold_left].
      rewrite Ep. apply Qgt_bool_false_iff. exact E.
  - destruct (Qgt_bool (arrival_time x) _) eqn:E.
    + exists 0%nat, x. split; [reflexivity |]. split; [intros m s' Hm; lia |].
      right. split; [exact Ep |]. split; [| reflexivity].
      apply Qgt_bool_iff. exact E.
    + apply (Hstep _ eq_refl); [| exact H].
      unfold stop_passes. rewrite Ep. apply Qgt_bool_false_iff. exact E.
Qed.

(** X1.  An empty goods list is no error: each builder returns the empty
    route of the vehicle (no stops, zero distance and time, nothing
    delivered) and the selector returns no route, for every count [k] and
    even for a vehicle of speed zero. *)
Theorem empty_goods_list_gives_empty_route
        (distance_to : Location -> Location -> Q) (v : Vehicle) (k : Z) :
  optimize_route distance_to v [] = Returns (new_route v)
  /\ _optimize_by_distance distance_to v [] = Returns (new_route v)
  /\ _optimize_by_time_window distance_to v [] = Returns (new_route v)
  /\ find_k_shortest_routes distance_to v [] k = Returns []
  /\ is_feasible (new_route v) = (true, "Route is feasible").
Proof.
  repeat split; try reflexivity.
  unfold find_k_shortest_routes.
  change (optimize_route distance_to v []) with (Returns (new_route v)).
  change (_optimize_by_distance distance_to v []) with (Returns (new_route v)).
  change (_optimize_by_time_window distance_to v []) with (Returns (new_route v)).
  cbn [bind new_route stops is_empty negb andb sorted_by fold_left].
  unfold slice_to. destruct (0 <=? k)%Z; [rewrite firstn_nil |]; reflexivity.
Qed.

(** X2.  The checker accepts a route exactly when every stop passes: after
    each pickup stop the running load (pickups added, all other stops
    subtracted, from 0) is within the vehicle's capacity, and every stop
    that is not a pickup is reached no later than its item's
    time-to-expiry.  An accepted route always carries the message
    "Route is feasible". *)
Theorem is_feasible_iff_every_stop_passes (r : Route) :
  (fst (is_feasible r) = true
   <-> forall n s, nth_error (stops r) n = Some s ->
                   stop_passes (capacity (vehicle r)) 0 (stops r) n s)
  /\ (fst (is_feasible r) = true -> is_feasible r = (true, "Route is feasible")).
Proof.
  unfold is_feasible. split.
  - apply is_feasible_from_true.
  - apply is_feasible_from_message.
Qed.

(** X3.  A rejected route is rejected at its first failing stop: all stops
    before it pass, and the message is "Capacity exceeded at <location
    name>" when that stop is a pickup that overloads the vehicle, and
    "<item name> expired before delivery" when it is any other stop reached
    after the expiry of its item. *)
Theorem is_feasible_reports_first_failure (r : Route) :
  fst (is_feasible r) = false ->
  exists n s,
    nth_error (stops r) n = Some s
    /\ (forall m s', (m < n)%nat -> nth_error (stops r) m = Some s' ->
                     stop_passes (capacity (vehicle r)) 0 (stops r) m s')
    /\ ((is_pickup s = true
         /\ capacity (vehicle r) < load_from 0 (firstn (S n) (stops r))
         /\ snd (is_feasible r) = "Capacity exceeded at " ++ loc_name (location s))
        \/ (is_pickup s = false
            /\ inject_Z (time_to_expiry (goods s)) < arrival_time s
            /\ snd (is_feasible r)
               = goods_name (goods s) ++ " expired before delivery")).
Proof. unfold is_feasible. apply is_feasible_from_first_failure. Qed.

Lemma is_feasible_reports_first_failure_witness :
  exists n s,
    nth_error (stops overloaded_route) n = Some s
    /\ (forall m s', (m < n)%nat -> nth_error (stops overloaded_route) m = Some s' ->
                     stop_passes (capacity (vehicle overloaded_route)) 0
                                 (stops overloaded_route) m s')
    /\ ((is_pickup s = true
         /\ capacity (vehicle overloaded_route)
            < load_from 0 (firstn (S n) (stops overloaded_route))
         /\ snd (is_feasible overloaded_route)
            = "Capacity exceeded at " ++ loc_name (location s))
        \/ (is_pickup s = false
            /\ inject_Z (time_to_expiry (goods s)) < arrival_time s
            /\ snd (is_feasible overloaded_route)
               = goods_name (goods s) ++ " expired before delivery")).
Proof.
  apply (is_feasible_reports_first_failure overloaded_route).
  vm_compute. reflexivity.
Defined.

(** X4.  The verdict depends on the stop sequence and the capacity only,
    and a larger capacity never hurts: a route accepted for one vehicle is
    accepted, with the same stops, for any vehicle of at least that
    capacity, whatever the cached totals say. *)
Theorem is_feasible_monotone_in_capacity (r r' : Route) :
  stops r' = stops r ->
  capacity (vehicle r) <= capacity (vehicle r') ->
  fst (is_feasible r) = true ->
  is_feasible r' = (true, "Route is feasible").
Proof.
  intros Hs Hc H. unfold is_feasible in *. rewrite Hs.
  apply is_feasible_from_message. apply is_feasible_from_true.
  intros n s Hn.
  pose proof (proj1 (is_feasible_from_true _ _ 0) H n s Hn) as Hp.
  unfold stop_passes in *. destruct (is_pickup s); [| exact Hp].
  eapply Qle_trans; [exact Hp | exact Hc].
Qed.

Lemma is_feasible_monotone_in_capacity_witness :
  is_feasible (mkRoute (van 200 40) (stops one_crate_route) 0 0 [])
  = (true, "Route is feasible").
Proof.
  apply (is_feasible_monotone_in_capacity
           one_crate_route
           (mkRoute (van 200 40) (stops one_crate_route) 0 0 [])).
  - reflexivity.
  - vm_compute. discriminate.
  - vm_compute. reflexivity.
Defined.

(** ** The timetable of a built route *)

Lemma timetable_durations (distance_to : Location -> Location -> Q) (spd : Q)
      (ss : list RouteStop) :
  forall from clock,
    timetable distance_to spd from clock ss ->
    forall s, In s ss -> estimated_duration s = 15.
Proof.
  induction ss as [| x ss IH]; intros from clock Ht s Hs; [contradiction |].
  destruct Ht as [_ [Hd Ht]]. destruct Hs as [<- | Hs]; [exact Hd |].
  exact (IH _ _ Ht s Hs).
Qed.

Lemma timetable_next (distance_to : Location -> Location -> Q) (spd : Q)
      (ss : list RouteStop) :
  forall from clock i s s',
    timetable distance_to spd from clock ss ->
    nth_error ss i = Some s -> nth_error ss (S i) = Some s' ->
    arrival_time s'
    = arrival_time s + 15 + distance_to (location s) (location s') / spd * 60.
Proof.
  induction ss as [| x ss IH]; intros from clock i s s' Ht Hi Hi';
    [destruct i; discriminate Hi |].
  destruct Ht as [_ [Hd Ht]]. destruct i as [| i].
  - inversion Hi; subst x. destruct ss as [| y ss]; [discriminate Hi' |].
    inversion Hi'; subst y. destruct Ht as [Ha _]. rewrite Hd in Ha. exact Ha.
  - exact (IH _ _ i s s' Ht Hi Hi').
Qed.

Lemma travel_minutes_nonneg (distance_to : Location -> Location -> Q) (spd : Q)
      (a b : Location) :
  (forall x y, 0 <= distance_to x y) -> 0 < spd ->
  0 <= distance_to a b / spd * 60.
Proof.
  intros Hd Hs. apply Qmult_le_0_compat; [| discriminate].
  apply Qle_shift_div_l; [exact Hs |]. rewrite Qmult_0_l. apply Hd.
Qed.

(** X5.  In every route returned by a builder each pickup stop is reached
    no later than the close bound of its item's pickup window. *)
Theorem built_routes_pick_up_before_window_closes
        (distance_to : Location -> Location -> Q) (v : Vehicle)
        (gl : list PerishableGoods) (r : Route) :
  built_by distance_to v gl r ->
  forall s, In s (stops r) -> action s = "pickup" ->
            arrival_time s <= inject_Z (snd (pickup_time_window (goods s))).
Proof.
  intros Hb s Hs Ha. apply Qle_bool_iff.
  exact (sc_window _ _ _ (built_by_scheduled _ _ _ _ Hb) s Hs Ha).
Qed.

Lemma built_routes_pick_up_before_window_closes_witness :
  (forall s, In s (stops light_route) -> action s = "pickup" ->
             arrival_time s <= inject_Z (snd (pickup_time_window (goods s))))
  /\ List.length (stops light_route) = 4%nat.
Proof.
  split; [| reflexivity].
  apply (built_routes_pick_up_before_window_closes
           table_distance (van 100 40) light_crates light_route).
  left. vm_compute. reflexivity.
Defined.

(** X6.  A built route is a consistent timetable for its vehicle: it
    belongs to the optimizer's vehicle; each pickup stop is at its item's
    pickup location and each delivery stop at its item's delivery location,
    with 15 minutes of service; the first stop is reached after the travel
    time from the vehicle's start, every later stop 15 minutes of service
    plus the travel time after the stop before it; and [total_time] is 0
    for a route without stops and the last arrival plus 15 minutes
    otherwise. *)
Theorem built_routes_follow_the_timetable
        (distance_to : Location -> Location -> Q) (v : Vehicle)
        (gl : list PerishableGoods) (r : Route) :
  built_by distance_to v gl r ->
  vehicle r = v
  /\ (forall s, In s (stops r) ->
        estimated_duration s = 15
        /\ ((action s = "pickup" /\ location s = pickup_location (goods s))
            \/ (action s = "delivery" /\ location s = delivery_location (goods s))))
  /\ (forall s, nth_error (stops r) 0 = Some s ->
        arrival_time s
        = 0 + distance_to (current_location v) (location s) / speed v * 60)
  /\ (forall i s s',
         nth_error (stops r) i = Some s -> nth_error (stops r) (S i) = Some s' ->
         arrival_time s'
         = arrival_time s + 15
           + distance_to (location s) (location s') / speed v * 60)
  /\ (stops r = [] -> total_time r = 0)
  /\ (forall ss s, stops r = (ss ++ [s])%list -> total_time r = arrival_time s + 15).
Proof.
  intros Hb. pose proof (built_by_scheduled _ _ _ _ Hb) as Sc.
  pose proof (sc_timetable _ _ _ Sc) as Ht.
  split; [exact (sc_vehicle _ _ _ Sc) |].
  split.
  { intros s Hs. split; [exact (timetable_durations _ _ _ _ _ Ht s Hs) |].
    exact (sc_place _ _ _ Sc s Hs). }
  split.
  { intros s Hs. destruct (stops r) as [| x ss]; [discriminate Hs |].
    inversion Hs; subst x. exact (proj1 Ht). }
  split; [intros i s s'; apply (timetable_next _ _ _ _ _ i s s' Ht) |].
  split.
  - intros E. rewrite (sc_time _ _ _ Sc), E. reflexivity.
  - intros ss s E. rewrite (sc_time _ _ _ Sc), E, end_clock_snoc.
    rewrite (timetable_durations _ _ _ _ _ Ht s); [reflexivity |].
    rewrite E. apply in_or_app. right. left. reflexivity.
Qed.

Lemma built_routes_follow_the_timetable_witness :
  vehicle light_route = van 100 40
  /\ (forall s, In s (stops light_route) ->
        estimated_duration s = 15
        /\ ((action s = "pickup" /\ location s = pickup_location (goods s))
            \/ (action s = "delivery" /\ location s = delivery_location (goods s))))
  /\ (forall s, nth_error (stops light_route) 0 = Some s ->
        arrival_time s
        = 0 + table_distance (current_location (van 100 40)) (location s)
              / speed (van 100 40) * 60)
  /\ (forall i s s',
         nth_error (stops light_route) i = Some s ->
         nth_error (stops light_route) (S i) = Some s' ->
         arrival_time s'
         = arrival_time s + 15
           + table_distance (location s) (location s') / speed (van 100 40) * 60)
  /\ (stops light_route = [] -> total_time light_route = 0)
  /\ (forall ss s, stops light_route = (ss ++ [s])%list ->
                   total_time light_route = arrival_time s + 15).
Proof.
  apply (built_routes_follow_the_timetable
           table_distance (van 100 40) light_crates light_route).
  left. vm_compute. reflexivity.
Defined.

(** X7.  When distances are never negative and the speed is positive, the
    arrival times of a built route start at a non-negative time and any
    later stop is reached at least 15 minutes after any earlier one. *)
Theorem built_routes_arrive_in_order
        (distance_to : Location -> Location -> Q) (v : Vehicle)
        (gl : list PerishableGoods) (r : Route) :
  (forall x y, 0 <= distance_to x y) -> 0 < speed v ->
  built_by distance_to v gl r ->
  (forall s, In s (stops r) -> 0 <= arrival_time s)
  /\ (forall i j si sj,
         (i < j)%nat ->
         nth_error (stops r) i = Some si -> nth_error (stops r) j = Some sj ->
         arrival_time si + 15 <= arrival_time sj).
Proof.
  intros Hd Hs Hb. pose proof (built_by_scheduled _ _ _ _ Hb) as Sc.
  pose proof (sc_timetable _ _ _ Sc) as Ht.
  assert (Hnext : forall i s s',
             nth_error (stops r) i = Some s -> nth_error (stops r) (S i) = Some s' ->
             arrival_time s + 15 <= arrival_time s').
  { intros i s s' Hi Hi'. rewrite (timetable_next _ _ _ _ _ i s s' Ht Hi Hi').
    pose proof (travel_minutes_nonneg distance_to (speed v)
                  (location s) (location s') Hd Hs). lra. }
  assert (Hord : forall j i si sj,
             (i < j)%nat ->
             nth_error (stops r) i = Some si -> nth_error (stops r) j = Some sj ->
             arrival_time si + 15 <= arrival_time sj).
  { induction j as [| j IH]; intros i si sj Hlt Hi Hj; [lia |].
    destruct (Nat.eq_dec i j) as [-> | Hne].
    - exact (Hnext j si sj Hi Hj).
    - destruct (nth_error (stops r) j) as [sm |] eqn:Em.
      + pose proof (IH i si sm ltac:(lia) Hi eq_refl) as H1.
        pose proof (Hnext j sm sj Em Hj) as H2. lra.
      + exfalso. apply nth_error_None in Em.
        assert (S j < List.length (stops r))%nat
          by (apply nth_error_Some; congruence). lia. }
  split.
  - intros s Hin. apply In_nth_error in Hin. destruct Hin as [n Hn].
    assert (H0 : forall s0, nth_error (stops r) 0 = Some s0 -> 0 <= arrival_time s0).
    { intros s0 H0. destruct (stops r) as [| x ss]; [discriminate H0 |].
      inversion H0; subst x. rewrite (proj1 Ht).
      pose proof (travel_minutes_nonneg distance_to (speed v)
                    (current_location v) (location s0) Hd Hs). lra. }
    destruct n as [| n]; [exact (H0 s Hn) |].
    destruct (nth_error (stops r) 0) as [s0 |] eqn:E0.
    + pose proof (H0 s0 eq_refl). pose proof (Hord (S n) 0%nat s0 s ltac:(lia) E0 Hn).
      lra.
    + apply nth_error_None in E0.
      assert (S n < List.length (stops r))%nat by (apply nth_error_Some; congruence).
      lia.
  - intros i j si sj. apply Hord.
Qed.

Lemma built_routes_arrive_in_order_witness :
  (forall s, In s (stops light_route) -> 0 <= arrival_time s)
  /\ (forall i j si sj,
         (i < j)%nat ->
         nth_error (stops light_route) i = Some si ->
         nth_error (stops light_route) j = Some sj ->
         arrival_time si + 15 <= arrival_time sj).
Proof.
  apply (built_routes_arrive_in_order
           table_distance (van 100 40) light_crates light_route).
  - intros x y. unfold table_distance. destruct (_ && _); discriminate.
  - reflexivity.
  - left. vm_compute. reflexivity.
Defined.

(** ** The delivered goods *)

(** X9.  The delivered items of a built route are the items of its
    delivery stops, in order; they are listed items and no two of them
    share an id, so no item is reported as delivered twice. *)
Theorem built_routes_deliver_listed_goods_once
        (distance_to : Location -> Location -> Q) (v : Vehicle)
        (gl : list PerishableGoods) (r : Route) :
  built_by distance_to v gl r ->
  goods_delivered r = recomputed_delivered (stops r)
  /\ NoDup (map goods_id (goods_delivered r))
  /\ incl (goods_delivered r) gl.
Proof.
  intros Hb.
  pose proof (built_by_sound _ _ _ _ Hb) as Sd.
  pose proof (built_by_scheduled _ _ _ _ Hb) as Sc.
  pose proof (sr_cache _ _ Sd) as Hc.
  split; [exact Hc |]. split.
  - rewrite Hc. unfold recomputed_delivered. rewrite map_map.
    exact (sc_deliveries_nodup _ _ _ Sc).
  - intros g Hg. rewrite Hc in Hg. unfold recomputed_delivered in Hg.
    apply in_map_iff in Hg. destruct Hg as [s [<- Hs]].
    apply filter_In in Hs. exact (sr_listed _ _ Sd s (proj1 Hs)).
Qed.

Lemma built_routes_deliver_listed_goods_once_witness :
  goods_delivered light_route = recomputed_delivered (stops light_route)
  /\ NoDup (map goods_id (goods_delivered light_route))
  /\ incl (goods_delivered light_route) light_crates.
Proof.
  apply (built_routes_deliver_listed_goods_once
           table_distance (van 100 40) light_crates light_route).
  left. vm_compute. reflexivity.
Defined.

(** ** The cached distance *)

Section DistanceCache.

Variable distance_to : Location -> Location -> Q.
Variable v : Vehicle.

Lemma iteration_commit (visit : plan_state -> option candidate -> PerishableGoods
                                -> outcome (option candidate))
      (commit : plan_state -> candidate -> outcome plan_state)
      (gl : list PerishableGoods) (st st' : plan_state) :
  (forall st best best' g,
      all_eligible distance_to v gl st best -> In g gl ->
      visit st best g = Returns best' -> all_eligible distance_to v gl st best') ->
  iteration visit commit gl st = Returns (Some st') ->
  exists c, eligible distance_to v gl st c /\ commit st c = Returns st'.
Proof.
  intros Hv. unfold iteration. destruct (Nat.ltb _ _); [| discriminate].
  intros H. apply bind_Returns in H. destruct H as [best [Hscan H]].
  destruct best as [c |]; [| discriminate].
  apply bind_Returns in H. destruct H as [st1 [Hcommit H]].
  inversion H; subst. exists c. split; [| exact Hcommit].
  assert (Hall : all_eligible distance_to v gl st (Some c)).
  { apply (for_each_invariant (all_eligible distance_to v gl st)
                              (fun g => In g gl) (visit st)
                              (fun s x s' Hs Hx => Hv st s s' x Hs Hx)
                              gl None (Some c)).
    - apply Forall_forall. auto.
    - intros c' Hc'. discriminate Hc'.
    - exact Hscan. }
  apply Hall. reflexivity.
Qed.

Lemma distance_commit_total_distance (st st' : plan_state) (c : candidate) :
  distance_commit distance_to v st c = Returns st' ->
  total_distance (route st') = total_distance (route st).
Proof.
  unfold distance_commit, distance_commit_pickup, commit_delivery, travel_time.
  destruct (String.eqb _ _); destruct (Qeq_bool _ _); simpl; intros H;
    inversion H; reflexivity.
Qed.

Lemma distance_loop_total_distance (gl : list PerishableGoods) (fuel : nat)
      (st : plan_state) :
  while_loop (distance_step distance_to v gl) fuel (initial_state v) = Returns st ->
  total_distance (route st) = 0.
Proof.
  apply (while_loop_invariant _ (fun s => total_distance (route s) = 0)).
  - intros s s' Hs H.
    destruct (iteration_commit _ _ gl s s'
                (distance_visit_eligible distance_to v gl) H) as [c [_ Hc]].
    rewrite (distance_commit_total_distance _ _ _ Hc). exact Hs.
  - reflexivity.
Qed.

Hypothesis no_self_distance : forall x, distance_to x x == 0.

Lemma greedy_commit_first_leg (gl : list PerishableGoods) (st st' : plan_state)
      (c : candidate) :
  well_formed gl st -> eligible distance_to v gl st c ->
  total_distance (route st) == first_leg distance_to v (stops (route st)) ->
  greedy_commit distance_to v st c = Returns st' ->
  total_distance (route st') == first_leg distance_to v (stops (route st')).
Proof.
  intros W He Hinv H. unfold greedy_commit in H.
  destruct (eligible_kind _ _ _ _ _ He) as [[E _] | [E [_ [Hp _]]]]; rewrite E in H.
  - unfold greedy_commit_pickup in H. apply bind_Returns in H.
    destruct H as [t [_ H]]. inversion H; subst; clear H. simpl.
    rewrite length_app. simpl.
    destruct (stops (route st)) as [| s0 ss] eqn:Es; simpl in *.
    + rewrite Hinv. lra.
    + replace (List.length ss + 1)%nat with (S (List.length ss)) by lia.
      simpl. rewrite Hinv, (no_self_distance (pickup_location (best_goods c))). lra.
  - unfold commit_delivery in H. apply bind_Returns in H.
    destruct H as [t [_ H]]. inversion H; subst; clear H. simpl.
    destruct (wf_on_board _ _ W _ Hp) as [s [Hs _]].
    destruct (stops (route st)) as [| s0 ss] eqn:Es; [contradiction |].
    simpl in *. exact Hinv.
Qed.

Lemma greedy_loop_first_leg (gl : list PerishableGoods) (fuel : nat)
      (st : plan_state) :
  while_loop (greedy_step distance_to v gl) fuel (initial_state v) = Returns st ->
  total_distance (route st) == first_leg distance_to v (stops (route st)).
Proof.
  intros H.
  assert (HP : well_formed gl st
               /\ total_distance (route st)
                  == first_leg distance_to v (stops (route st))).
  { apply (while_loop_invariant (greedy_step distance_to v gl)
             (fun s => well_formed gl s
                       /\ total_distance (route s)
                          == first_leg distance_to v (stops (route s))))
      with (fuel := fuel) (st := initial_state v).
    - intros s s' [W Hs] Hstep.
      destruct (iteration_commit _ _ gl s s'
                  (greedy_visit_eligible distance_to v gl) Hstep) as [c [He Hc]].
      split.
      + exact (committed_well_formed distance_to v gl s s' c W He
                 (greedy_commit_committed distance_to v s s' c Hc)).
      + exact (greedy_commit_first_leg gl s s' c W He Hs Hc).
    - split; [apply initial_state_well_formed | reflexivity].
    - exact H. }
  exact (proj2 HP).
Qed.

Lemma optimize_route_first_leg (gl : list PerishableGoods) (r : Route) :
  optimize_route distance_to v gl = Returns r ->
  total_distance r == first_leg distance_to v (stops r).
Proof.
  unfold optimize_route, optimize_route_fuel. destruct gl as [| g gl'].
  - intros H; inversion H; subst. reflexivity.
  - intros H. apply bind_Returns in H. destruct H as [st [Hloop H]].
    inversion H; subst. simpl. exact (greedy_loop_first_leg _ _ _ Hloop).
Qed.

End DistanceCache.

(** X10.  What [total_distance] holds.  The nearest-action builder always
    returns 0.  When the distance from a place to itself is 0, the greedy
    and the deadline-ordered builder return the distance of the first leg
    only, from the vehicle's start to the first stop (0 for a route without
    stops), however many stops follow. *)
Theorem total_distance_is_the_first_leg
        (distance_to : Location -> Location -> Q) (v : Vehicle)
        (gl : list PerishableGoods) (r : Route) :
  (forall x, distance_to x x == 0) ->
  (optimize_route distance_to v gl = Returns r
   \/ _optimize_by_time_window distance_to v gl = Returns r ->
   total_distance r == first_leg distance_to v (stops r))
  /\ (_optimize_by_distance distance_to v gl = Returns r -> total_distance r = 0).
Proof.
  intros Hd. split.
  - intros [H | H].
    + exact (optimize_route_first_leg distance_to v Hd gl r H).
    + exact (optimize_route_first_leg distance_to v Hd _ r H).
  - unfold _optimize_by_distance, _optimize_by_distance_fuel. intros H.
    apply bind_Returns in H. destruct H as [st [Hloop H]]. inversion H; subst.
    simpl. exact (distance_loop_total_distance distance_to v _ _ _ Hloop).
Qed.

Lemma total_distance_is_the_first_leg_witness :
  (optimize_route table_distance (van 100 40) light_crates = Returns light_route
   \/ _optimize_by_time_window table_distance (van 100 40) light_crates
      = Returns light_route ->
   total_distance light_route
   == first_leg table_distance (van 100 40) (stops light_route))
  /\ (_optimize_by_distance table_distance (van 100 40) light_crates
      = Returns light_route -> total_distance light_route = 0).
Proof.
  apply (total_distance_is_the_first_leg
           table_distance (van 100 40) light_crates light_route).
  intros x. unfold table_distance. rewrite !Qeq_bool_refl. reflexivity.
Defined.

(** ** What a scan chooses *)

Section ScanFacts.

Variable distance_to : Location -> Location -> Q.
Variable v : Vehicle.
Variable st : plan_state.

(** A visit with a current best is the visit without one, followed by the
    comparison of the two. *)
Lemma greedy_visit_offer (best : option candidate) (g : PerishableGoods) :
  greedy_visit distance_to v st best g
  = match greedy_visit distance_to v st None g with
    | Returns (Some c0) =>
        if match best with
           | None => true
           | Some b => Qgt_bool (best_score c0) (best_score b)
           end
        then Returns (Some c0) else Returns best
    | Returns None => Returns best
    | Raises e => Raises e
    | OutOfFuel => OutOfFuel
    end.
Proof.
  unfold greedy_visit, travel_time.
  destruct (id_in (goods_id g) (delivered st)); [reflexivity |].
  destruct (id_in (goods_id g) (picked_up st)); cbn [negb];
    (destruct (Qeq_bool (speed v) 0); [reflexivity |]); cbn [bind];
    match goal with
    | |- context [if Qle_bool ?a ?b then _ else _] => destruct (Qle_bool a b)
    end; reflexivity.
Qed.

Lemma distance_visit_offer (best : option candidate) (g : PerishableGoods) :
  distance_visit distance_to v st best g
  = match distance_visit distance_to v st None g with
    | Returns (Some c0) =>
        if match best with
           | None => true
           | Some b =>
               Qlt_bool (best_score c0)
                        (if String.eqb (best_action c0) "pickup"
                         then best_score b else best_score b - 1)
           end
        then Returns (Some c0) else Returns best
    | Returns None => Returns best
    | Raises e => Raises e
    | OutOfFuel => OutOfFuel
    end.
Proof.
  unfold distance_visit.
  destruct (id_in (goods_id g) (delivered st)); [reflexivity |].
  destruct (id_in (goods_id g) (picked_up st)); cbn [negb];
    (destruct (Qeq_bool (speed v) 0); [reflexivity |]);
    match goal with
    | |- context [if Qle_bool ?a ?b then _ else _] => destruct (Qle_bool a b)
    end; reflexivity.
Qed.

Lemma greedy_scan (gl : list PerishableGoods) :
  forall best best',
    for_each (greedy_visit distance_to v st) gl best = Returns best' ->
    (forall b, best = Some b ->
               exists b', best' = Some b' /\ best_score b <= best_score b')
    /\ (forall g c0, In g gl ->
          greedy_visit distance_to v st None g = Returns (Some c0) ->
          exists b', best' = Some b' /\ best_score c0 <= best_score b')
    /\ (forall g, In g gl ->
          exists o, greedy_visit distance_to v st None g = Returns o)
    /\ (best' = best
        \/ exists g, In g gl /\ greedy_visit distance_to v st None g = Returns best').
Proof.
  induction gl as [| g gl IH]; intros best best' H.
  - simpl in H. inversion H; subst.
    split; [intros b Hb; exists b; split; [exact Hb | apply Qle_refl] |].
    split; [intros g c0 [] |]. split; [intros g [] | left; reflexivity].
  - simpl in H. apply bind_Returns in H. destruct H as [mid [Hvisit H]].
    destruct (IH mid best' H) as [Hup [Hoff [Hret Horig]]].
    rewrite greedy_visit_offer in Hvisit.
    destruct (greedy_visit distance_to v st None g) as [[c0 |] | e |] eqn:Eo;
      try discriminate Hvisit.
    + (* g makes an offer *)
      assert (Hmid : exists m, mid = Some m /\ best_score c0 <= best_score m
                               /\ (forall b, best = Some b ->
                                             best_score b <= best_score m)
                               /\ (mid = best \/ mid = Some c0)).
      { destruct best as [b |].
        - destruct (Qgt_bool (best_score c0) (best_score b)) eqn:Ec;
            inversion Hvisit; subst.
          + exists c0. split; [reflexivity |]. split; [apply Qle_refl |].
            split; [| right; reflexivity].
            intros b0 Hb0. inversion Hb0; subst.
            apply Qlt_le_weak. apply Qgt_bool_iff. exact Ec.
          + exists b. split; [reflexivity |].
            split; [apply Qgt_bool_false_iff; exact Ec |].
            split; [| left; reflexivity].
            intros b0 Hb0. inversion Hb0; subst. apply Qle_refl.
        - inversion Hvisit; subst. exists c0. split; [reflexivity |].
          split; [apply Qle_refl |]. split; [| right; reflexivity].
          intros b0 Hb0. discriminate Hb0. }
      destruct Hmid as [m [-> [Hc0 [Hb Hm]]]].
      destruct (Hup m eq_refl) as [b' [-> Hmb]].
      split.
      { intros b Hbest. exists b'. split; [reflexivity |].
        eapply Qle_trans; [exact (Hb b Hbest) | exact Hmb]. }
      split.
      { intros h c1 [<- | Hh] Hoffer.
        - rewrite Eo in Hoffer. inversion Hoffer; subst.
          exists b'. split; [reflexivity |]. eapply Qle_trans; eassumption.
        - exact (Hoff h c1 Hh Hoffer). }
      split.
      { intros h [<- | Hh]; [eexists; exact Eo | exact (Hret h Hh)]. }
      destruct Horig as [Ho | [h [Hh Ho]]].
      * destruct Hm as [Hm | Hm].
        -- left. congruence.
        -- right. exists g. split; [left; reflexivity |]. congruence.
      * right. exists h. split; [right; exact Hh | exact Ho].
    + (* g makes no offer *)
      inversion Hvisit; subst mid.
      split; [exact Hup |].
      split.
      { intros h c1 [<- | Hh] Hoffer.
        - rewrite Eo in Hoffer. discriminate Hoffer.
        - exact (Hoff h c1 Hh Hoffer). }
      split.
      { intros h [<- | Hh]; [eexists; exact Eo | exact (Hret h Hh)]. }
      destruct Horig as [Ho | [h [Hh Ho]]]; [left; exact Ho |].
      right. exists h. split; [right; exact Hh | exact Ho].
Qed.

Lemma distance_scan (gl : list PerishableGoods) :
  forall best best',
    for_each (distance_visit distance_to v st) gl best = Returns best' ->
    (forall b, best = Some b ->
               exists b', best' = Some b' /\ best_score b' <= best_score b)
    /\ (forall g c0, In g gl ->
          distance_visit distance_to v st None g = Returns (Some c0) ->
          exists b', best' = Some b'
                     /\ best_score b'
                        <= (if String.eqb (best_action c0) "pickup"
                            then best_score c0 else best_score c0 + 1))
    /\ (forall g, In g gl ->
          exists o, distance_visit distance_to v st None g = Returns o)
    /\ (best' = best
        \/ exists g, In g gl
                     /\ distance_visit distance_to v st None g = Returns best').
Proof.
  induction gl as [| g gl IH]; intros best best' H.
  - simpl in H. inversion H; subst.
    split; [intros b Hb; exists b; split; [exact Hb | apply Qle_refl] |].
    split; [intros g c0 [] |]. split; [intros g [] | left; reflexivity].
  - simpl in H. apply bind_Returns in H. destruct H as [mid [Hvisit H]].
    destruct (IH mid best' H) as [Hup [Hoff [Hret Horig]]].
    rewrite distance_visit_offer in Hvisit.
    destruct (distance_visit distance_to v st None g) as [[c0 |] | e |] eqn:Eo;
      try discriminate Hvisit.
    + assert (Hmid : exists m, mid = Some m
                               /\ best_score m
                                  <= (if String.eqb (best_action c0) "pickup"
                                      then best_score c0 else best_score c0 + 1)
                               /\ (forall b, best = Some b ->
                                             best_score m <= best_score b)
                               /\ (mid = best \/ mid = Some c0)).
      { destruct best as [b |].
        - destruct (Qlt_bool (best_score c0) _) eqn:Ec in Hvisit;
            inversion Hvisit; subst.
          + exists c0. split; [reflexivity |].
            split; [destruct (String.eqb _ _); lra |].
            split; [| right; reflexivity].
            intros b0 Hb0. inversion Hb0; subst.
            apply Qlt_bool_iff in Ec. destruct (String.eqb _ _); lra.
          + exists b. split; [reflexivity |].
            assert (Hn : ~ best_score c0
                           < (if String.eqb (best_action c0) "pickup"
                              then best_score b else best_score b - 1)).
            { intros Hlt. apply Qlt_bool_iff in Hlt. congruence. }
            split; [destruct (String.eqb _ _); lra |].
            split; [| left; reflexivity].
            intros b0 Hb0. inversion Hb0; subst. apply Qle_refl.
        - inversion Hvisit; subst. exists c0. split; [reflexivity |].
          split; [destruct (String.eqb _ _); lra |].
          split; [| right; reflexivity].
          intros b0 Hb0. discriminate Hb0. }
      destruct Hmid as [m [-> [Hc0 [Hb Hm]]]].
      destruct (Hup m eq_refl) as [b' [-> Hmb]].
      split.
      { intros b Hbest. exists b'. split; [reflexivity |].
        eapply Qle_trans; [exact Hmb | exact (Hb b Hbest)]. }
      split.
      { intros h c1 [<- | Hh] Hoffer.
        - rewrite Eo in Hoffer. inversion Hoffer; subst.
          exists b'. split; [reflexivity |]. eapply Qle_trans; eassumption.
        - exact (Hoff h c1 Hh Hoffer). }
      split.
      { intros h [<- | Hh]; [eexists; exact Eo | exact (Hret h Hh)]. }
      destruct Horig as [Ho | [h [Hh Ho]]].
      * destruct Hm as [Hm | Hm].
        -- left. congruence.
        -- right. exists g. split; [left; reflexivity |]. congruence.
      * right. exists h. split; [right; exact Hh | exact Ho].
    + inversion Hvisit; subst mid.
      split; [exact Hup |].
      split.
      { intros h c1 [<- | Hh] Hoffer.
        - rewrite Eo in Hoffer. discriminate Hoffer.
        - exact (Hoff h c1 Hh Hoffer). }
      split.
      { intros h [<- | Hh]; [eexists; exact Eo | exact (Hret h Hh)]. }
      destruct Horig as [Ho | [h [Hh Ho]]]; [left; exact Ho |].
      right. exists h. split; [right; exact Hh | exact Ho].
Qed.

End ScanFacts.

(** X12.  One scan of the greedy builder, started without a current best,
    returns the offer of a listed item whose score is the highest of all
    offers made in this state (an offer being what the visit of that item
    alone returns); it returns no winner exactly when no listed item makes
    an offer. *)
Theorem greedy_scan_takes_the_highest_score
        (distance_to : Location -> Location -> Q) (v : Vehicle)
        (st : plan_state) (gl : list PerishableGoods)
        (best : option candidate) :
  for_each (greedy_visit distance_to v st) gl None = Returns best ->
  match best with
  | Some c =>
      (exists g, In g gl
                 /\ greedy_visit distance_to v st None g = Returns (Some c))
      /\ (forall g c0, In g gl ->
            greedy_visit distance_to v st None g = Returns (Some c0) ->
            best_score c0 <= best_score c)
  | None =>
      forall g, In g gl -> greedy_visit distance_to v st None g = Returns None
  end.
Proof.
  intros H. destruct (greedy_scan distance_to v st gl None best H)
    as [_ [Hoff [Hret Horig]]].
  destruct best as [c |].
  - split.
    + destruct Horig as [Ho | Ho]; [discriminate Ho | exact Ho].
    + intros g c0 Hg Hc0. destruct (Hoff g c0 Hg Hc0) as [b' [Hb' Hle]].
      inversion Hb'; subst. exact Hle.
  - intros g Hg. destruct (Hret g Hg) as [[c0 |] Ho]; [| exact Ho].
    destruct (Hoff g c0 Hg Ho) as [b' [Hb' _]]. discriminate Hb'.
Qed.

Lemma greedy_scan_takes_the_highest_score_witness :
  (exists g, In g light_crates
             /\ greedy_visit table_distance (van 100 40)
                             (initial_state (van 100 40)) None g
                = Returns (Some (mkCandidate (2480000 # 48000) "pickup"
                                   (crate "g1" 30 place_A place_B 600 (0, 120)%Z))))
  /\ (forall g c0, In g light_crates ->
        greedy_visit table_distance (van 100 40) (initial_state (van 100 40)) None g
        = Returns (Some c0) ->
        best_score c0
        <= best_score (mkCandidate (2480000 # 48000) "pickup"
                         (crate "g1" 30 place_A place_B 600 (0, 120)%Z))).
Proof.
  apply (greedy_scan_takes_the_highest_score
           table_distance (van 100 40) (initial_state (van 100 40)) light_crates
           (Some (mkCandidate (2480000 # 48000) "pickup"
                    (crate "g1" 30 place_A place_B 600 (0, 120)%Z)))).
  vm_compute. reflexivity.
Defined.

(** X13.  One scan of the nearest-action builder, started without a current
    best, returns the offer of a listed item that is at most as far as
    every pickup offer and at most 1 km farther than every delivery offer
    made in this state; it returns no winner exactly when no listed item
    makes an offer. *)
Theorem nearest_action_scan_takes_the_nearest_within_1km
        (distance_to : Location -> Location -> Q) (v : Vehicle)
        (st : plan_state) (gl : list PerishableGoods)
        (best : option candidate) :
  for_each (distance_visit distance_to v st) gl None = Returns best ->
  match best with
  | Some c =>
      (exists g, In g gl
                 /\ distance_visit distance_to v st None g = Returns (Some c))
      /\ (forall g c0, In g gl ->
            distance_visit distance_to v st None g = Returns (Some c0) ->
            (best_action c0 = "pickup" -> best_score c <= best_score c0)
            /\ best_score c <= best_score c0 + 1)
  | None =>
      forall g, In g gl -> distance_visit distance_to v st None g = Returns None
  end.
Proof.
  intros H. destruct (distance_scan distance_to v st gl None best H)
    as [_ [Hoff [Hret Horig]]].
  destruct best as [c |].
  - split.
    + destruct Horig as [Ho | Ho]; [discriminate Ho | exact Ho].
    + intros g c0 Hg Hc0. destruct (Hoff g c0 Hg Hc0) as [b' [Hb' Hle]].
      inversion Hb'; subst. split.
      * intros Ha. rewrite Ha in Hle. exact Hle.
      * destruct (String.eqb _ _); lra.
  - intros g Hg. destruct (Hret g Hg) as [[c0 |] Ho]; [| exact Ho].
    destruct (Hoff g c0 Hg Ho) as [b' [Hb' _]]. discriminate Hb'.
Qed.

Lemma nearest_action_scan_takes_the_nearest_within_1km_witness :
  (exists g, In g light_crates
             /\ distance_visit table_distance (van 100 40)
                               (initial_state (van 100 40)) None g
                = Returns (Some (mkCandidate 0 "pickup"
                                   (crate "g1" 30 place_A place_B 600 (0, 120)%Z))))
  /\ (forall g c0, In g light_crates ->
        distance_visit table_distance (van 100 40) (initial_state (van 100 40))
                       None g
        = Returns (Some c0) ->
        (best_action c0 = "pickup" ->
         best_score (mkCandidate 0 "pickup"
                       (crate "g1" 30 place_A place_B 600 (0, 120)%Z))
         <= best_score c0)
        /\ best_score (mkCandidate 0 "pickup"
                         (crate "g1" 30 place_A place_B 600 (0, 120)%Z))
           <= best_score c0 + 1).
Proof.
  apply (nearest_action_scan_takes_the_nearest_within_1km
           table_distance (van 100 40) (initial_state (van 100 40)) light_crates
           (Some (mkCandidate 0 "pickup"
                    (crate "g1" 30 place_A place_B 600 (0, 120)%Z)))).
  vm_compute. reflexivity.
Defined.

(** ** Why a builder stops *)

Section Exit.

Variable distance_to : Location -> Location -> Q.
Variable v : Vehicle.

Lemma greedy_offer_None (st : plan_state) (g : PerishableGoods) :
  greedy_visit distance_to v st None g = Returns None ->
  no_offer distance_to v st g.
Proof.
  unfold greedy_visit, travel_time, no_offer.
  destruct (id_in (goods_id g) (delivered st)); [left; reflexivity |].
  destruct (id_in (goods_id g) (picked_up st)); cbn [negb];
    (destruct (Qeq_bool (speed v) 0); [discriminate |]); cbn [bind];
    match goal with
    | |- context [if Qle_bool ?a ?b then _ else _] =>
        destruct (Qle_bool a b) eqn:E
    end; try discriminate; intros _; right; [right | left]; auto.
Qed.

Lemma distance_offer_None (st : plan_state) (g : PerishableGoods) :
  distance_visit distance_to v st None g = Returns None ->
  no_offer distance_to v st g.
Proof.
  unfold distance_visit, no_offer.
  destruct (id_in (goods_id g) (delivered st)); [left; reflexivity |].
  destruct (id_in (goods_id g) (picked_up st)); cbn [negb];
    (destruct (Qeq_bool (speed v) 0); [discriminate |]);
    match goal with
    | |- context [if Qle_bool ?a ?b then _ else _] =>
        destruct (Qle_bool a b) eqn:E
    end; try discriminate; intros _; right; [right | left]; auto.
Qed.

Lemma step_exit (gl : list PerishableGoods) (st : plan_state) :
  greedy_step distance_to v gl st = Returns None
  \/ distance_step distance_to v gl st = Returns None ->
  (List.length gl <= List.length (delivered st))%nat
  \/ forall g, In g gl -> no_offer distance_to v st g.
Proof.
  unfold greedy_step, distance_step, iteration.
  destruct (Nat.ltb (List.length (delivered st)) (List.length gl)) eqn:E.
  - intros H. right. intros g Hg. destruct H as [H | H].
    + apply bind_Returns in H. destruct H as [best [Hscan H]].
      destruct best as [c |].
      * apply bind_Returns in H. destruct H as [st1 [_ H]]. discriminate H.
      * destruct (greedy_scan distance_to v st gl None None Hscan)
          as [_ [Hoff [Hret _]]].
        apply greedy_offer_None.
        destruct (Hret g Hg) as [[c0 |] Ho]; [| exact Ho].
        destruct (Hoff g c0 Hg Ho) as [b' [Hb' _]]. discriminate Hb'.
    + apply bind_Returns in H. destruct H as [best [Hscan H]].
      destruct best as [c |].
      * apply bind_Returns in H. destruct H as [st1 [_ H]]. discriminate H.
      * destruct (distance_scan distance_to v st gl None None Hscan)
          as [_ [Hoff [Hret _]]].
        apply distance_offer_None.
        destruct (Hret g Hg) as [[c0 |] Ho]; [| exact Ho].
        destruct (Hoff g c0 Hg Ho) as [b' [Hb' _]]. discriminate Hb'.
  - intros _. left. apply Nat.ltb_ge in E. exact E.
Qed.

End Exit.

Lemma id_in_iff (x : string) (s : id_set) : id_in x s = true <-> In x s.
Proof.
  unfold id_in. split; [apply set_mem_correct1 | apply set_mem_correct2].
Qed.

(** In a final state every delivered id belongs to a delivered item. *)
Lemma delivered_id_delivered (distance_to : Location -> Location -> Q)
      (v : Vehicle) (gl : list PerishableGoods) (st : plan_state)
      (g : PerishableGoods) :
  NoDup (map goods_id gl) -> well_formed gl st -> tracked distance_to v st ->
  In g gl -> id_in (goods_id g) (delivered st) = true ->
  In g (goods_delivered (route st)).
Proof.
  intros Hnd W T Hg Hid.
  destruct (tr_dropped _ _ _ T _ Hid) as [s [Hs [Ha Hsid]]].
  assert (goods s = g).
  { apply (NoDup_ids_same gl); try assumption.
    exact (wf_listed _ _ W s Hs). }
  subst g. rewrite (wf_cache _ _ W). unfold recomputed_delivered.
  apply in_map. apply filter_In. split; [exact Hs |].
  unfold is_pickup. rewrite Ha. reflexivity.
Qed.

(** X11.  A builder stops only when nothing more can be done.  For a goods
    list with pairwise-distinct ids, take a listed item that the returned
    route does not deliver, the place [here] of the last stop (the
    vehicle's start for a route without stops) and the end time
    [total_time]: if the route picked the item up, leaving [here] at
    [total_time] reaches its delivery location only after its
    time-to-expiry; if not, it reaches its pickup location only after the
    close bound of its window. *)
Theorem built_routes_leave_nothing_eligible
        (distance_to : Location -> Location -> Q) (v : Vehicle)
        (gl : list PerishableGoods) (r : Route) (g : PerishableGoods) :
  NoDup (map goods_id gl) ->
  built_by distance_to v gl r ->
  In g gl -> ~ In g (goods_delivered r) ->
  let here := end_location (current_location v) (stops r) in
  (picked_in r g ->
   inject_Z (time_to_expiry g)
   < total_time r + distance_to here (delivery_location g) / speed v * 60)
  /\ (~ picked_in r g ->
      inject_Z (snd (pickup_time_window g))
      < total_time r + distance_to here (pickup_location g) / speed v * 60).
Proof.
  intros Hnd Hb Hg Hnot here.
  destruct (built_by_final _ _ _ _ Hb) as [gl' [st [Hp [W [T [Hr Hexit]]]]]].
  assert (Hnd' : NoDup (map goods_id gl')).
  { eapply Permutation_NoDup; [apply Permutation_map; exact Hp | exact Hnd]. }
  assert (Hg' : In g gl') by (eapply Permutation_in; eassumption).
  assert (Hhere : here = cur_location st).
  { unfold here. rewrite Hr. simpl. symmetry. exact (tr_here _ _ _ T). }
  assert (Hnow : total_time r = current_time st) by (rewrite Hr; reflexivity).
  assert (Hnd_del : id_in (goods_id g) (delivered st) = false).
  { destruct (id_in (goods_id g) (delivered st)) eqn:E; [| reflexivity].
    exfalso. apply Hnot. rewrite Hr. simpl.
    exact (delivered_id_delivered distance_to v gl' st g Hnd' W T Hg' E). }
  assert (Hpick : picked_in r g <-> id_in (goods_id g) (picked_up st) = true).
  { unfold picked_in. rewrite Hr. simpl. split.
    - intros [s [Hs [Ha <-]]]. exact (wf_picked _ _ W s Hs Ha).
    - intros Hid. destruct (wf_on_board _ _ W _ Hid) as [s [Hs [Ha Hsid]]].
      exists s. split; [exact Hs |]. split; [exact Ha |].
      apply (NoDup_ids_same gl'); try assumption.
      exact (wf_listed _ _ W s Hs). }
  assert (Hstuck : no_offer distance_to v st g).
  { destruct (step_exit distance_to v gl' st Hexit) as [Hall | Hno];
      [| exact (Hno g Hg')].
    exfalso. rewrite <- Bool.not_true_iff_false in Hnd_del. apply Hnd_del.
    apply id_in_iff.
    apply (NoDup_length_incl (tr_delivered_nodup _ _ _ T)
             (l' := map goods_id gl')).
    - rewrite length_map. exact Hall.
    - intros x Hx. apply id_in_iff in Hx.
      destruct (tr_dropped _ _ _ T x Hx) as [s [Hs [_ <-]]].
      unfold stop_id. apply in_map. exact (wf_listed _ _ W s Hs).
    - apply in_map. exact Hg'. }
  rewrite Hhere, Hnow.
  destruct Hstuck as [Hd | [[Hp' Hw] | [Hp' Hw]]].
  - congruence.
  - split.
    + intros Hin. apply Hpick in Hin. congruence.
    + intros _. apply Qnot_le_lt. intros Hle. apply Qle_bool_iff in Hle. congruence.
  - split.
    + intros _. apply Qnot_le_lt. intros Hle. apply Qle_bool_iff in Hle. congruence.
    + intros Hn. exfalso. apply Hn. apply Hpick. exact Hp'.
Qed.

Lemma built_routes_leave_nothing_eligible_witness :
  (picked_in doomed_route (crate "g" 30 place_A place_B 10 (0, 120)%Z) ->
   inject_Z (time_to_expiry (crate "g" 30 place_A place_B 10 (0, 120)%Z))
   < total_time doomed_route
     + table_distance (end_location (current_location (van 100 40))
                                    (stops doomed_route))
                      (delivery_location (crate "g" 30 place_A place_B 10 (0, 120)%Z))
       / speed (van 100 40) * 60)
  /\ (~ picked_in doomed_route (crate "g" 30 place_A place_B 10 (0, 120)%Z) ->
      inject_Z (snd (pickup_time_window (crate "g" 30 place_A place_B 10 (0, 120)%Z)))
      < total_time doomed_route
        + table_distance (end_location (current_location (van 100 40))
                                       (stops doomed_route))
                         (pickup_location (crate "g" 30 place_A place_B 10 (0, 120)%Z))
          / speed (van 100 40) * 60).
Proof.
  apply (built_routes_leave_nothing_eligible
           table_distance (van 100 40) doomed_crate doomed_route
           (crate "g" 30 place_A place_B 10 (0, 120)%Z)).
  - simpl. constructor; [simpl; tauto | constructor].
  - left. vm_compute. reflexivity.
  - left. reflexivity.
  - simpl. tauto.
Defined.

(** ** Sorting with a strict order *)

Section SortedBy.

Variable A : Type.
Variable before : A -> A -> bool.

Hypothesis before_asym : forall x y, before x y = true -> before y x = false.
Hypothesis before_trans :
  forall x y z, before x y = true -> before y z = true -> before x z = true.

Lemma insert_by_sorted (x : A) (l : list A) :
  StronglySorted (fun a b => before b a = false) l ->
  StronglySorted (fun a b => before b a = false) (insert_by before x l).
Proof.
  induction l as [| y l IH]; simpl; intros Hs.
  - constructor; constructor.
  - inversion Hs as [| ? ? Hs' Hall]; subst.
    destruct (before x y) eqn:E.
    + constructor; [exact Hs |]. constructor.
      * apply before_asym. exact E.
      * rewrite Forall_forall in *. intros z Hz.
        destruct (before z x) eqn:Ez; [| reflexivity].
        pose proof (before_trans z x y Ez E) as Hzy.
        rewrite (Hall z Hz) in Hzy. discriminate Hzy.
    + constructor; [apply IH; exact Hs' |].
      rewrite Forall_forall in *. intros z Hz.
      apply (Permutation_in _ (Permutation_sym (insert_by_perm before x l))) in Hz.
      destruct Hz as [<- | Hz]; [exact E | exact (Hall z Hz)].
Qed.

Lemma sorted_by_sorted (l : list A) :
  StronglySorted (fun a b => before b a = false) (sorted_by before l).
Proof.
  unfold sorted_by.
  assert (G : forall acc,
             StronglySorted (fun a b => before b a = false) acc ->
             StronglySorted (fun a b => before b a = false)
               (fold_left (fun acc x => insert_by before x acc) l acc)).
  { induction l as [| x l IH]; simpl; intros acc Hs; [exact Hs |].
    apply IH. apply insert_by_sorted. exact Hs. }
  apply G. constructor.
Qed.

Lemma sorted_unique (l1 : list A) :
  forall l2,
    StronglySorted (fun a b => before b a = false) l1 ->
    StronglySorted (fun a b => before b a = false) l2 ->
    Permutation l1 l2 ->
    (forall x y, In x l1 -> In y l1 ->
                 before x y = false -> before y x = false -> x = y) ->
    l1 = l2.
Proof.
  induction l1 as [| a t1 IH]; intros l2 H1 H2 Hp Hanti.
  - apply Permutation_nil in Hp. congruence.
  - destruct l2 as [| b t2];
      [apply Permutation_sym, Permutation_nil in Hp; discriminate Hp |].
    inversion H1 as [| ? ? H1' Hall1]; subst.
    inversion H2 as [| ? ? H2' Hall2]; subst.
    rewrite Forall_forall in Hall1, Hall2.
    assert (Hab : a = b).
    { assert (Ha : In a (b :: t2))
        by (eapply Permutation_in; [exact Hp | left; reflexivity]).
      assert (Hb : In b (a :: t1))
        by (eapply Permutation_in;
            [apply Permutation_sym; exact Hp | left; reflexivity]).
      destruct Ha as [Ha | Ha]; [congruence |].
      destruct Hb as [Hb | Hb]; [congruence |].
      apply Hanti; [left; reflexivity | right; exact Hb | |].
      - exact (Hall2 a Ha).
      - exact (Hall1 b Hb). }
    subst b. f_equal. apply IH; try assumption.
    + eapply Permutation_cons_inv; exact Hp.
    + intros x y Hx Hy. apply Hanti; right; assumption.
Qed.

Lemma sorted_by_perm_eq (l l' : list A) :
  Permutation l l' ->
  (forall x y, In x l -> In y l ->
               before x y = false -> before y x = false -> x = y) ->
  sorted_by before l = sorted_by before l'.
Proof.
  intros Hp Hanti. apply sorted_unique.
  - apply sorted_by_sorted.
  - apply sorted_by_sorted.
  - eapply perm_trans; [apply Permutation_sym, sorted_by_perm |].
    eapply perm_trans; [exact Hp | apply sorted_by_perm].
  - intros x y Hx Hy. apply sorted_by_In in Hx. apply sorted_by_In in Hy.
    apply Hanti; assumption.
Qed.

End SortedBy.

Lemma urgency_before_asym (x y : PerishableGoods) :
  urgency_before x y = true -> urgency_before y x = false.
Proof.
  unfold urgency_before. intros H. apply Qgt_bool_iff in H.
  apply Qgt_bool_false_iff. lra.
Qed.

Lemma urgency_before_trans (x y z : PerishableGoods) :
  urgency_before x y = true -> urgency_before y z = true ->
  urgency_before x z = true.
Proof.
  unfold urgency_before. intros H1 H2.
  apply Qgt_bool_iff in H1. apply Qgt_bool_iff in H2. apply Qgt_bool_iff. lra.
Qed.

Lemma optimize_route_perm (distance_to : Location -> Location -> Q) (v : Vehicle)
      (gl gl' : list PerishableGoods) :
  Permutation gl gl' ->
  (forall x y, In x gl -> In y gl -> urgency_score x == urgency_score y -> x = y) ->
  optimize_route distance_to v gl' = optimize_route distance_to v gl.
Proof.
  intros Hp Hdistinct.
  assert (Hs : sorted_by urgency_before gl = sorted_by urgency_before gl').
  { apply sorted_by_perm_eq; [exact urgency_before_asym | exact urgency_before_trans
                              | exact Hp |].
    intros x y Hx Hy H1 H2. apply Hdistinct; [exact Hx | exact Hy |].
    unfold urgency_before in *.
    apply Qgt_bool_false_iff in H1. apply Qgt_bool_false_iff in H2. lra. }
  unfold optimize_route, optimize_route_fuel, enough_fuel.
  rewrite <- (Permutation_length Hp).
  destruct gl as [| g l]; destruct gl' as [| g' l'].
  - reflexivity.
  - apply Permutation_nil in Hp. discriminate Hp.
  - apply Permutation_sym, Permutation_nil in Hp. discriminate Hp.
  - rewrite Hs. reflexivity.
Qed.

(** ** Equality of routes *)

Lemma Qeq_bool_sym (a b : Q) : Qeq_bool a b = Qeq_bool b a.
Proof.
  destruct (Qeq_bool a b) eqn:E1; destruct (Qeq_bool b a) eqn:E2; try reflexivity.
  - apply Qeq_bool_iff in E1. symmetry in E1. apply Qeq_bool_iff in E1. congruence.
  - apply Qeq_bool_iff in E2. symmetry in E2. apply Qeq_bool_iff in E2. congruence.
Qed.

Lemma GoodsType_eqb_sym (a b : GoodsType) : GoodsType_eqb a b = GoodsType_eqb b a.
Proof. destruct a, b; reflexivity. Qed.

Ltac eqb_sym_tac :=
  repeat match goal with
         | |- andb _ _ = andb _ _ => f_equal
         end;
  first [apply String.eqb_sym | apply Qeq_bool_sym | apply Z.eqb_sym
         | apply GoodsType_eqb_sym | assumption | idtac].

Lemma Location_eqb_sym (a b : Location) : Location_eqb a b = Location_eqb b a.
Proof. unfold Location_eqb. eqb_sym_tac. Qed.

Lemma PerishableGoods_eqb_sym (a b : PerishableGoods) :
  PerishableGoods_eqb a b = PerishableGoods_eqb b a.
Proof. unfold PerishableGoods_eqb. eqb_sym_tac; apply Location_eqb_sym. Qed.

Lemma Vehicle_eqb_sym (a b : Vehicle) : Vehicle_eqb a b = Vehicle_eqb b a.
Proof. unfold Vehicle_eqb. eqb_sym_tac; apply Location_eqb_sym. Qed.

Lemma RouteStop_eqb_sym (a b : RouteStop) : RouteStop_eqb a b = RouteStop_eqb b a.
Proof.
  unfold RouteStop_eqb. eqb_sym_tac;
    first [apply Location_eqb_sym | apply PerishableGoods_eqb_sym].
Qed.

Lemma list_eqb_sym {A : Type} (eqb : A -> A -> bool) :
  (forall x y, eqb x y = eqb y x) ->
  forall xs ys, list_eqb eqb xs ys = list_eqb eqb ys xs.
Proof.
  intros H xs. induction xs as [| x xs IH]; intros [| y ys]; simpl; try reflexivity.
  rewrite H, IH. reflexivity.
Qed.

Lemma Route_eqb_sym (a b : Route) : Route_eqb a b = Route_eqb b a.
Proof.
  unfold Route_eqb. eqb_sym_tac;
    first [apply Vehicle_eqb_sym
          | apply list_eqb_sym; apply RouteStop_eqb_sym
          | apply list_eqb_sym; apply PerishableGoods_eqb_sym].
Qed.

Lemma list_eqb_refl {A : Type} (eqb : A -> A -> bool) :
  (forall x, eqb x x = true) -> forall xs, list_eqb eqb xs xs = true.
Proof.
  intros H xs. induction xs as [| x xs IH]; simpl; [reflexivity |].
  rewrite H, IH. reflexivity.
Qed.

Lemma Location_eqb_refl (a : Location) : Location_eqb a a = true.
Proof.
  unfold Location_eqb. rewrite !String.eqb_refl, !Qeq_bool_refl. reflexivity.
Qed.

Lemma PerishableGoods_eqb_refl (a : PerishableGoods) : PerishableGoods_eqb a a = true.
Proof.
  unfold PerishableGoods_eqb.
  rewrite !String.eqb_refl, !Qeq_bool_refl, !Location_eqb_refl, !Z.eqb_refl.
  destruct (goods_type a); reflexivity.
Qed.

Lemma Vehicle_eqb_refl (a : Vehicle) : Vehicle_eqb a a = true.
Proof.
  unfold Vehicle_eqb.
  rewrite !String.eqb_refl, !Qeq_bool_refl, !Location_eqb_refl. reflexivity.
Qed.

Lemma RouteStop_eqb_refl (a : RouteStop) : RouteStop_eqb a a = true.
Proof.
  unfold RouteStop_eqb.
  rewrite !String.eqb_refl, !Qeq_bool_refl, !Location_eqb_refl,
    !PerishableGoods_eqb_refl. reflexivity.
Qed.

Lemma Route_eqb_refl (a : Route) : Route_eqb a a = true.
Proof.
  unfold Route_eqb.
  rewrite Vehicle_eqb_refl, !Qeq_bool_refl,
    (list_eqb_refl RouteStop_eqb RouteStop_eqb_refl),
    (list_eqb_refl PerishableGoods_eqb PerishableGoods_eqb_refl).
  reflexivity.
Qed.

(** ** The candidates of the selector *)

Lemma all_differ_snoc (l : list Route) (x : Route) :
  all_differ l -> (forall y, In y l -> Route_eqb y x = false) ->
  all_differ (l ++ [x]).
Proof.
  induction l as [| a l IH]; simpl; intros Hl Hx.
  - split; [intros y [] | exact I].
  - destruct Hl as [Ha Hl]. split.
    + intros y Hy. apply in_app_or in Hy. destruct Hy as [Hy | [<- | []]].
      * exact (Ha y Hy).
      * apply Hx. left. reflexivity.
    + apply IH; [exact Hl |]. intros y Hy. apply Hx. right. exact Hy.
Qed.

Lemma all_differ_perm (l l' : list Route) :
  Permutation l l' -> all_differ l -> all_differ l'.
Proof.
  intros Hp. induction Hp as [| x l l' Hp IH | x y l | l l' l'' Hp1 IH1 Hp2 IH2];
    simpl.
  - auto.
  - intros [Hx Hl]. split; [| exact (IH Hl)].
    intros y Hy. apply Hx. eapply Permutation_in; [apply Permutation_sym; exact Hp |].
    exact Hy.
  - intros [Hy [Hx Hl]]. split; [| split].
    + intros z [<- | Hz]; [| exact (Hx z Hz)].
      rewrite Route_eqb_sym. apply Hy. left. reflexivity.
    + intros z Hz. apply Hy. right. exact Hz.
    + exact Hl.
  - intros H. exact (IH2 (IH1 H)).
Qed.

Lemma all_differ_firstn (n : nat) (l : list Route) :
  all_differ l -> all_differ (firstn n l).
Proof.
  revert l. induction n as [| n IH]; intros [| x l]; simpl; auto.
  intros [Hx Hl]. split; [| exact (IH l Hl)].
  intros y Hy. apply Hx. eapply In_firstn. exact Hy.
Qed.

Lemma all_differ_nth (l : list Route) :
  all_differ l ->
  forall i j a b, i <> j -> nth_error l i = Some a -> nth_error l j = Some b ->
                  Route_eqb a b = false.
Proof.
  induction l as [| x l IH]; intros Hl i j a b Hne Hi Hj;
    [destruct i; discriminate Hi |].
  destruct Hl as [Hx Hl]. destruct i as [| i]; destruct j as [| j].
  - congruence.
  - inversion Hi; subst. apply Hx. simpl in Hj. eapply nth_error_In; exact Hj.
  - inversion Hj; subst. rewrite Route_eqb_sym. apply Hx.
    simpl in Hi. eapply nth_error_In; exact Hi.
  - exact (IH Hl i j a b ltac:(congruence) Hi Hj).
Qed.

Lemma slice_to_firstn {A : Type} (k : Z) (l : list A) :
  exists n, slice_to k l = firstn n l.
Proof. unfold slice_to. destruct (0 <=? k)%Z; eexists; reflexivity. Qed.

(** X14.  When no two listed items have the same urgency score, the greedy
    builder does not depend on the order of the goods list; the
    deadline-ordered builder then returns exactly the greedy route, and the
    selector at most two routes. *)
Theorem greedy_route_independent_of_list_order
        (distance_to : Location -> Location -> Q) (v : Vehicle)
        (gl : list PerishableGoods) :
  (forall x y, In x gl -> In y gl -> urgency_score x == urgency_score y -> x = y) ->
  (forall gl', Permutation gl gl' ->
               optimize_route distance_to v gl' = optimize_route distance_to v gl)
  /\ _optimize_by_time_window distance_to v gl = optimize_route distance_to v gl
  /\ (forall k rs, find_k_shortest_routes distance_to v gl k = Returns rs ->
                   (List.length rs <= 2)%nat).
Proof.
  intros Hd.
  assert (Htw : _optimize_by_time_window distance_to v gl
                = optimize_route distance_to v gl).
  { unfold _optimize_by_time_window.
    exact (optimize_route_perm distance_to v gl _ (sorted_by_perm _ gl) Hd). }
  split; [| split; [exact Htw |]].
  - intros gl' Hp. exact (optimize_route_perm distance_to v gl gl' Hp Hd).
  - intros k rs H. unfold find_k_shortest_routes in H. rewrite Htw in H.
    apply bind_Returns in H. destruct H as [r1 [H1 H]].
    apply bind_Returns in H. destruct H as [r2 [H2 H]].
    rewrite H1 in H. cbn [bind] in H. inversion H as [Hrs]. clear H.
    set (l1 := if negb (is_empty (stops r1)) then [r1] else []) in *.
    set (l2 := if negb (is_empty (stops r2)) && negb (Route_eqb r2 r1)
               then (l1 ++ [r2])%list else l1) in *.
    assert (L2 : (List.length l2 <= 2)%nat).
    { subst l2 l1. destruct (negb (is_empty (stops r2)) && negb (Route_eqb r2 r1));
        destruct (negb (is_empty (stops r1))); simpl; lia. }
    assert (E3 : negb (is_empty (stops r1))
                 && negb (existsb (fun r => Route_eqb r r1) l2) = false).
    { destruct (stops r1) as [| s0 ss0] eqn:E; [reflexivity |].
      assert (Hin : In r1 l2).
      { subst l2 l1. simpl.
        destruct (negb (is_empty (stops r2)) && negb (Route_eqb r2 r1));
          simpl; left; reflexivity. }
      assert (Hex : existsb (fun r => Route_eqb r r1) l2 = true).
      { apply existsb_exists. exists r1. split; [exact Hin | apply Route_eqb_refl]. }
      rewrite Hex. apply andb_false_r. }
    rewrite E3. destruct (slice_to_firstn k (sorted_by rank_before l2)) as [n ->].
    rewrite length_firstn, sorted_by_length. lia.
Qed.

Lemma greedy_route_independent_of_list_order_witness :
  (forall gl', Permutation ranked_crates gl' ->
               optimize_route table_distance (van 100 40) gl'
               = optimize_route table_distance (van 100 40) ranked_crates)
  /\ _optimize_by_time_window table_distance (van 100 40) ranked_crates
     = optimize_route table_distance (van 100 40) ranked_crates
  /\ (forall k rs,
         find_k_shortest_routes table_distance (van 100 40) ranked_crates k
         = Returns rs -> (List.length rs <= 2)%nat).
Proof.
  apply (greedy_route_independent_of_list_order
           table_distance (van 100 40) ranked_crates).
  intros x y [<- | [<- | []]] [<- | [<- | []]] H;
    first [reflexivity | vm_compute in H; discriminate H].
Defined.

Lemma selector_candidates (distance_to : Location -> Location -> Q) (v : Vehicle)
      (gl : list PerishableGoods) (k : Z) (rs : list Route) :
  find_k_shortest_routes distance_to v gl k = Returns rs ->
  exists l,
    rs = slice_to k (sorted_by rank_before l)
    /\ (forall r, In r l -> built_by distance_to v gl r /\ stops r <> [])
    /\ (List.length l <= 3)%nat
    /\ all_differ l.
Proof.
  intros H. unfold find_k_shortest_routes in H.
  apply bind_Returns in H. destruct H as [r1 [H1 H]].
  apply bind_Returns in H. destruct H as [r2 [H2 H]].
  apply bind_Returns in H. destruct H as [r3 [H3 H]].
  inversion H as [Hrs]. clear H.
  set (l1 := if negb (is_empty (stops r1)) then [r1] else []) in *.
  set (l2 := if negb (is_empty (stops r2)) && negb (Route_eqb r2 r1)
             then (l1 ++ [r2])%list else l1) in *.
  set (l3 := if negb (is_empty (stops r3))
                && negb (existsb (fun r => Route_eqb r r3) l2)
             then (l2 ++ [r3])%list else l2) in *.
  assert (B1 : built_by distance_to v gl r1) by (left; exact H1).
  assert (B2 : built_by distance_to v gl r2) by (right; left; exact H2).
  assert (B3 : built_by distance_to v gl r3) by (right; right; exact H3).
  assert (P1 : (forall r, In r l1 -> built_by distance_to v gl r /\ stops r <> [])
               /\ (List.length l1 <= 1)%nat /\ all_differ l1
               /\ (forall r, In r l1 -> r = r1)).
  { subst l1. destruct (stops r1) as [| s0 ss0] eqn:E.
    - split; [intros r [] |]. split; [simpl; lia |].
      split; [exact I | intros r []].
    - split; [intros r [<- | []]; split; [exact B1 | rewrite E; discriminate] |].
      split; [simpl; lia |].
      split; [split; [intros y [] | exact I] |].
      intros r [<- | []]. reflexivity. }
  destruct P1 as [N1 [L1 [D1 O1]]].
  assert (P2 : (forall r, In r l2 -> built_by distance_to v gl r /\ stops r <> [])
               /\ (List.length l2 <= 2)%nat /\ all_differ l2).
  { subst l2. destruct (stops r2) as [| s0 ss0] eqn:E; simpl; [auto |].
    destruct (Route_eqb r2 r1) eqn:Er; simpl; [auto |].
    split; [| split].
    - intros r Hin. apply in_app_or in Hin. destruct Hin as [Hin | [<- | []]].
      + exact (N1 r Hin).
      + split; [exact B2 | rewrite E; discriminate].
    - rewrite length_app. simpl. lia.
    - apply all_differ_snoc; [exact D1 |].
      intros y Hy. rewrite (O1 y Hy), Route_eqb_sym. exact Er. }
  destruct P2 as [N2 [L2 D2]].
  exists l3. split; [reflexivity |].
  subst l3. destruct (stops r3) as [| s0 ss0] eqn:E; simpl; [auto |].
  destruct (existsb (fun r => Route_eqb r r3) l2) eqn:Ex; simpl; [auto |].
  split; [| split].
  - intros r Hin. apply in_app_or in Hin. destruct Hin as [Hin | [<- | []]].
    + exact (N2 r Hin).
    + split; [exact B3 | rewrite E; discriminate].
  - rewrite length_app. simpl. lia.
  - apply all_differ_snoc; [exact D2 |].
    intros y Hy. destruct (Route_eqb y r3) eqn:Ey; [| reflexivity].
    rewrite <- Ex. symmetry. apply existsb_exists. exists y. auto.
Qed.

(** X15.  Whatever the count [k], every route the selector returns is a
    non-empty route returned by one of the three builders for the same
    vehicle and goods list; there are at most three of them, at most [k]
    when [k] is not negative, and they stand in ranking order: more
    quantity delivered first, less elapsed time first among equals. *)
Theorem selector_returns_ranked_builder_routes
        (distance_to : Location -> Location -> Q) (v : Vehicle)
        (gl : list PerishableGoods) (k : Z) (rs : list Route) :
  find_k_shortest_routes distance_to v gl k = Returns rs ->
  (forall r, In r rs -> built_by distance_to v gl r /\ stops r <> [])
  /\ (List.length rs <= 3)%nat
  /\ ((0 <= k)%Z -> (Z.of_nat (List.length rs) <= k)%Z)
  /\ StronglySorted ranks_no_lower rs.
Proof.
  intros H. destruct (selector_candidates _ _ _ _ _ H) as [l [-> [Hb [Hl _]]]].
  split; [| split; [| split]].
  - intros r Hr. apply Hb.
    destruct (slice_to_firstn k (sorted_by rank_before l)) as [n Hn].
    rewrite Hn in Hr. apply In_firstn in Hr. apply sorted_by_In in Hr. exact Hr.
  - destruct (slice_to_firstn k (sorted_by rank_before l)) as [n ->].
    rewrite length_firstn, sorted_by_length. lia.
  - intros Hk. unfold slice_to. destruct (0 <=? k)%Z eqn:E; [| lia].
    pose proof (firstn_le_length (Z.to_nat k) (sorted_by rank_before l)). lia.
  - destruct (slice_to_firstn k (sorted_by rank_before l)) as [n ->].
    apply StronglySorted_firstn.
    apply (StronglySorted_weaken (fun a b => rank_before b a = false)).
    + intros a b. apply rank_before_false.
    + apply sorted_by_rank_sorted.
Qed.

Lemma selector_returns_ranked_builder_routes_witness :
  (forall r, In r far_selection ->
             built_by table_distance (van 100 40) far_crate r /\ stops r <> [])
  /\ (List.length far_selection <= 3)%nat
  /\ ((0 <= 3)%Z -> (Z.of_nat (List.length far_selection) <= 3)%Z)
  /\ StronglySorted ranks_no_lower far_selection.
Proof.
  apply (selector_returns_ranked_builder_routes
           table_distance (van 100 40) far_crate 3 far_selection).
  vm_compute. reflexivity.
Defined.

(** X16.  No two routes returned by the selector are equal as whole route
    values (vehicle, stops, total distance, total time and delivered
    goods all equal). *)
Theorem selector_routes_differ_as_values
        (distance_to : Location -> Location -> Q) (v : Vehicle)
        (gl : list PerishableGoods) (k : Z) (rs : list Route) :
  find_k_shortest_routes distance_to v gl k = Returns rs ->
  forall i j a b, i <> j -> nth_error rs i = Some a -> nth_error rs j = Some b ->
                  Route_eqb a b = false.
Proof.
  intros H. destruct (selector_candidates _ _ _ _ _ H) as [l [-> [_ [_ Hd]]]].
  apply all_differ_nth.
  destruct (slice_to_firstn k (sorted_by rank_before l)) as [n ->].
  apply all_differ_firstn.
  exact (all_differ_perm _ _ (sorted_by_perm rank_before l) Hd).
Qed.

Lemma selector_routes_differ_as_values_witness :
  List.length far_selection = 2%nat
  /\ forall i j a b, i <> j -> nth_error far_selection i = Some a ->
                     nth_error far_selection j = Some b -> Route_eqb a b = false.
Proof.
  split; [reflexivity |].
  apply (selector_routes_differ_as_values
           table_distance (van 100 40) far_crate 3 far_selection).
  vm_compute. reflexivity.
Defined.

(** ** The haversine distance *)

Lemma haversine_a_sym (p q : Location) : haversine_a p q = haversine_a q p.
Proof.
  unfold haversine_a. cbv zeta.
  set (x1 := radians (Q2R (latitude p))). set (y1 := radians (Q2R (longitude p))).
  set (x2 := radians (Q2R (latitude q))). set (y2 := radians (Q2R (longitude q))).
  replace ((x1 - x2) / 2)%R with (- ((x2 - x1) / 2))%R by field.
  replace ((y1 - y2) / 2)%R with (- ((y2 - y1) / 2))%R by field.
  rewrite !sin_neg. ring.
Qed.

Lemma asin_nonneg (x : R) : (0 <= x <= 1)%R -> (0 <= asin x)%R.
Proof.
  intros [H0 H1]. destruct (Rle_or_lt 0 (asin x)) as [H | H]; [exact H |].
  exfalso. pose proof (asin_bound x) as [Hlo _].
  assert (Hs : (sin (asin x) < 0)%R).
  { apply sin_lt_0_var; [| exact H]. pose proof PI_RGT_0. Lra.lra. }
  rewrite sin_asin in Hs; Lra.lra.
Qed.

(** X17.  Between two locations of equal latitude and equal longitude the
    haversine distance is exactly 0 (no domain error). *)
Theorem haversine_zero_at_the_same_coordinates (p q : Location) :
  latitude p == latitude q -> longitude p == longitude q ->
  haversine_km p q = Some 0%R.
Proof.
  intros Hlat Hlon.
  assert (Ha : haversine_a p q = 0%R).
  { unfold haversine_a. cbv zeta.
    rewrite (Qeq_eqR _ _ Hlat), (Qeq_eqR _ _ Hlon).
    replace ((radians (Q2R (latitude q)) - radians (Q2R (latitude q))) / 2)%R
      with 0%R by field.
    replace ((radians (Q2R (longitude q)) - radians (Q2R (longitude q))) / 2)%R
      with 0%R by field.
    rewrite sin_0. ring. }
  unfold haversine_km. cbv zeta. rewrite Ha, sqrt_0.
  destruct (Rlt_dec 0 0) as [H | _]; [exfalso; Lra.lra |].
  destruct (Rlt_dec 1 0) as [H | _]; [exfalso; Lra.lra |].
  rewrite asin_0. f_equal. ring.
Qed.

Lemma haversine_zero_at_the_same_coordinates_witness :
  haversine_km place_A (mkLocation "A2" "Depot A, gate 2" 0 (0 # 5) "warehouse")
  = Some 0%R.
Proof.
  apply (haversine_zero_at_the_same_coordinates
           place_A (mkLocation "A2" "Depot A, gate 2" 0 (0 # 5) "warehouse")).
  - reflexivity.
  - reflexivity.
Defined.

(** X18.  The haversine distance is symmetric, and whenever it is defined
    it lies between 0 and half the circumference of the sphere,
    6371 * pi kilometres. *)
Theorem haversine_symmetric_and_bounded (p q : Location) :
  haversine_km p q = haversine_km q p
  /\ (forall d, haversine_km p q = Some d -> (0 <= d <= 6371 * PI)%R).
Proof.
  split.
  - unfold haversine_km. rewrite (haversine_a_sym p q). reflexivity.
  - intros d. unfold haversine_km. cbv zeta.
    destruct (Rlt_dec (haversine_a p q) 0) as [_ | Hn]; [discriminate |].
    destruct (Rlt_dec 1 (sqrt (haversine_a p q))) as [_ | H1]; [discriminate |].
    intros H. inversion H; subst d. clear H.
    pose proof (sqrt_pos (haversine_a p q)) as H0.
    pose proof (asin_bound (sqrt (haversine_a p q))) as [_ Hup].
    pose proof (asin_nonneg (sqrt (haversine_a p q))) as Hlo.
    assert (Hlo' : (0 <= asin (sqrt (haversine_a p q)))%R) by (apply Hlo; Lra.lra).
    split; Lra.lra.
Qed.
